(** * Legal Evolution MemoRAG Lite: the indexing and retrieval core

    A shallow embedding of [src/legal_evolution_memorag_lite.py]
    (class [LegalEvolutionMemoRAGLite]) and the properties of its index build,
    relevance scoring, retrieval, response analysis and confidence estimate.

    Conventions of the embedding.
    - A Python [str] is a list of Unicode code points ([str]); source literals
      are written as UTF-8 text and decoded by [py].
    - Field names (DataFrame columns, dictionary keys fixed in the source) are
      Rocq strings.
    - A Python [dict] is an association list in insertion order with unique
      keys; assigning to an existing key keeps its position.
    - A score is an exact rational ([Q]): it is a quotient of two small
      integers, and its order, its 0 and its 1 are those of the double the
      interpreter computes. The confidence is a sum of decimal fractions, which
      the interpreter rounds at every step: it is embedded twice, over the
      rationals ([_calculate_confidence], the value in exact arithmetic, which
      the query carries) and over IEEE doubles
      ([Binary64._calculate_confidence], the value the code returns).
    - What the interpreter and its libraries supply (the Unicode tables behind
      [str.lower], [\w] and [\d], the iteration order of a [set], the text of
      float formatting and of exception messages) is a [PyRuntime]. *)

From Stdlib Require Import String Ascii List Bool Arith ZArith NArith QArith Lia.
From Stdlib Require Import Qminmax Lqa Sorting.Sorted Permutation DecimalString.
From Stdlib Require PrimFloat Uint63.
Import ListNotations.

Set Implicit Arguments.
Local Open Scope list_scope.

(** ** Python strings *)

Definition char := N.
Definition str := list char.

Definition char_eqb (a b : char) : bool := N.eqb a b.

Fixpoint str_eqb (a b : str) : bool :=
  match a, b with
  | [], [] => true
  | x :: a', y :: b' => char_eqb x y && str_eqb a' b'
  | _, _ => false
  end.

(** UTF-8 decoding of a source literal into code points. *)
Fixpoint utf8_decode (bs : list N) : str :=
  match bs with
  | [] => []
  | b :: t =>
      if (b <? 128)%N then b :: utf8_decode t
      else if (b <? 224)%N then
        match t with
        | c1 :: t1 => ((b - 192) * 64 + (c1 - 128))%N :: utf8_decode t1
        | [] => [b]
        end
      else if (b <? 240)%N then
        match t with
        | c1 :: c2 :: t2 =>
            ((b - 224) * 4096 + (c1 - 128) * 64 + (c2 - 128))%N :: utf8_decode t2
        | _ => [b]
        end
      else
        match t with
        | c1 :: c2 :: c3 :: t3 =>
            ((b - 240) * 262144 + (c1 - 128) * 4096 + (c2 - 128) * 64 + (c3 - 128))%N
              :: utf8_decode t3
        | _ => [b]
        end
  end.

Definition py (s : string) : str :=
  utf8_decode (map N_of_ascii (list_ascii_of_string s)).

Definition nl : str := [10%N].

(** [s.startswith(p)] *)
Fixpoint str_prefix (p s : str) : bool :=
  match p, s with
  | [], _ => true
  | x :: p', y :: s' => char_eqb x y && str_prefix p' s'
  | _ :: _, [] => false
  end.

(** [needle in hay] on strings: substring test. *)
Fixpoint str_in (needle hay : str) : bool :=
  str_prefix needle hay ||
  match hay with
  | [] => false
  | _ :: hay' => str_in needle hay'
  end.

(** [s[:n]] for a non-negative literal [n]. *)
Definition str_take (n : nat) (s : str) : str := firstn n s.

(** [a < b] on strings: lexicographic on code points. *)
Fixpoint str_ltb (a b : str) : bool :=
  match a, b with
  | _, [] => false
  | [], _ :: _ => true
  | x :: a', y :: b' =>
      if (x <? y)%N then true else if (y <? x)%N then false else str_ltb a' b'
  end.

(** ** Python values held in DataFrame cells and metadata *)

(** A cell is the object the row hands out. The missing-value marker of pandas
    is a NaN float, which equals no value, itself included: a dictionary, a
    set and [list.count] find it again only when it is the same object. [obj]
    tells the NaN objects apart: the cells of an all-missing (float64) column
    are a new object in every row, the missing cells of a column of strings
    may all be one object. *)
Inductive pyval :=
| PyNone
| PyNaN (obj : N)      (* the missing-value marker of pandas, as an object *)
| PyInt (z : Z)
| PyStr (s : str).

(** Key equality of a [dict] and a [set], also of [list.count]: the same
    object, or equal by [==]. *)
Definition pyval_eqb (a b : pyval) : bool :=
  match a, b with
  | PyNone, PyNone => true
  | PyNaN x, PyNaN y => N.eqb x y   (* never equal by [==]: found by identity only *)
  | PyInt x, PyInt y => Z.eqb x y
  | PyStr x, PyStr y => str_eqb x y
  | _, _ => false
  end.

(** [bool(v)] *)
Definition py_truthy (v : pyval) : bool :=
  match v with
  | PyNone => false
  | PyNaN _ => true
  | PyInt z => negb (Z.eqb z 0)
  | PyStr s => match s with [] => false | _ => true end
  end.

(** [str(v)], also what an f-string field renders. *)
Definition py_str (v : pyval) : str :=
  match v with
  | PyNone => py "None"
  | PyNaN _ => py "nan"
  | PyInt z => py (NilZero.string_of_int (Z.to_int z))
  | PyStr s => s
  end.

(** ** Exceptions *)

Inductive exn :=
| KeyError (key : string)
| TypeError_concat (left : pyval)    (* left + " " with a non-str left operand *)
| TypeError_len (arg : pyval).      (* len(arg) of a non-str scalar *)

Inductive res (A : Type) :=
| Ok (a : A)
| Raise (e : exn).
Arguments Ok {A} a.
Arguments Raise {A} e.

Definition bind {A B} (m : res A) (f : A -> res B) : res B :=
  match m with
  | Ok a => f a
  | Raise e => Raise e
  end.

Declare Scope res_scope.
Delimit Scope res_scope with res.
Notation "x <- m ;; k" := (bind m (fun x => k))
  (at level 61, m at next level, right associativity) : res_scope.

(** ** Dictionaries in insertion order *)

Section Dict.
Variables (K V : Type) (eqb : K -> K -> bool).

Definition dict := list (K * V).

Fixpoint dict_get (d : dict) (k : K) : option V :=
  match d with
  | [] => None
  | (k', v) :: t => if eqb k' k then Some v else dict_get t k
  end.

(** [d[k] = v]: replaces the value of an existing key where it stands,
    appends a new key at the end. *)
Fixpoint dict_set (d : dict) (k : K) (v : V) : dict :=
  match d with
  | [] => [(k, v)]
  | (k', v') :: t => if eqb k' k then (k', v) :: t else (k', v') :: dict_set t k v
  end.

Definition dict_keys (d : dict) : list K := map fst d.
End Dict.

(** [d[k].append(x)] on a [defaultdict(list)]. *)
Definition dd_append {K X : Type} (eqb : K -> K -> bool)
    (d : dict K (list X)) (k : K) (x : X) : dict K (list X) :=
  match dict_get eqb d k with
  | Some l => dict_set eqb d k (l ++ [x])
  | None => dict_set eqb d k [x]
  end.

(** ** The interpreter side *)

Inductive cclass := CDigit | CWord.

Class PyRuntime := {
  str_lower : str -> str;                     (* str.lower *)
  is_word : char -> bool;                     (* regex \w *)
  is_digit : char -> bool;                    (* regex \d *)
  ci_eq : char -> char -> bool;               (* equality under re.IGNORECASE *)
  set_iter_str : list str -> list str;        (* list(set(l)) on strings *)
  set_iter_val : list pyval -> list pyval;    (* iteration of set(l) on cell values *)
  format_2f : Q -> str;                       (* f"{x:.2f}" *)
  format_1f : Q -> str;                       (* f"{x:.1f}" *)
  exn_str : exn -> str;                       (* str(e) *)
  set_iter_str_in : forall l x, In x (set_iter_str l) <-> In x l;
  set_iter_val_in : forall l x, In x (set_iter_val l) <-> In x l;
  set_iter_val_nodup : forall l, NoDup (set_iter_val l)
}.

Section Core.
Context {RT : PyRuntime}.

(** ** 4.4 Relevance scorer *)

Definition _calculate_relevance_score (content : str) (keywords : list str) : Q :=
  match keywords with
  | [] => 0
  | _ :: _ =>
      let content_lower := str_lower content in
      let matches := length (filter (fun keyword => str_in keyword content_lower) keywords) in
      inject_Z (Z.of_nat matches) / inject_Z (Z.of_nat (length keywords))
  end.

(** ** The fragment of [re] the source uses *)

Inductive regex :=
| RLit (c : char)          (* a literal character *)
| RClass (k : cclass)      (* \d or \w *)
| RPlus (k : cclass)       (* \d+ or \w+, greedy *)
| REps                     (* the empty pattern *)
| RBound                   (* \b *)
| RSeq (a b : regex)
| RAlt (a b : regex)       (* a|b, the left one first *)
| RGroup (a : regex).      (* a capturing group *)

Definition in_class (k : cclass) (c : char) : bool :=
  match k with
  | CDigit => is_digit c
  | CWord => is_word c
  end.

(** [\b]: exactly one of the two neighbours is a word character; the ends of
    the string count as non-word. *)
Definition at_boundary (prev : option char) (rest : str) : bool :=
  xorb (match prev with Some c => is_word c | None => false end)
       (match rest with c :: _ => is_word c | [] => false end).

(** A match yields its end position and the span of the group, if one took part. *)
Definition mresult := option (nat * option (nat * nat)).
Definition mcont := option char -> str -> nat -> option (nat * nat) -> mresult.

(** The rest of a greedy repetition: the longest run first, then shorter ones. *)
Fixpoint rstar (k : cclass) (prev : option char) (s : str) (pos : nat)
    (g : option (nat * nat)) (cont : mcont) {struct s} : mresult :=
  match s with
  | c :: t =>
      if in_class k c then
        match rstar k (Some c) t (S pos) g cont with
        | Some r => Some r
        | None => cont prev s pos g
        end
      else cont prev s pos g
  | [] => cont prev s pos g
  end.

Definition lit_eq (ic : bool) (c x : char) : bool :=
  if ic then ci_eq c x else char_eqb c x.

(** Backtracking match of [r] at position [pos]; [prev] is the character before
    it and [s] the text from it on. *)
Fixpoint rmatch (ic : bool) (r : regex) (prev : option char) (s : str) (pos : nat)
    (g : option (nat * nat)) (cont : mcont) {struct r} : mresult :=
  match r with
  | RLit c =>
      match s with
      | x :: t => if lit_eq ic c x then cont (Some x) t (S pos) g else None
      | [] => None
      end
  | RClass k =>
      match s with
      | x :: t => if in_class k x then cont (Some x) t (S pos) g else None
      | [] => None
      end
  | RPlus k =>
      match s with
      | x :: t => if in_class k x then rstar k (Some x) t (S pos) g cont else None
      | [] => None
      end
  | REps => cont prev s pos g
  | RBound => if at_boundary prev s then cont prev s pos g else None
  | RSeq a b =>
      rmatch ic a prev s pos g (fun p' s' pos' g' => rmatch ic b p' s' pos' g' cont)
  | RAlt a b =>
      match rmatch ic a prev s pos g cont with
      | Some r => Some r
      | None => rmatch ic b prev s pos g cont
      end
  | RGroup a =>
      rmatch ic a prev s pos g (fun p' s' pos' _ => cont p' s' pos' (Some (pos, pos')))
  end.

Fixpoint has_group (r : regex) : bool :=
  match r with
  | RSeq a b | RAlt a b => has_group a || has_group b
  | RGroup _ => true
  | _ => false
  end.

(** [full[a:b]] *)
Definition str_slice (full : str) (a b : nat) : str := firstn (b - a) (skipn a full).

(** What [re.findall] reports for one match: the group when the pattern has
    one (the empty string when it took no part), the whole match otherwise. *)
Definition match_text (r : regex) (full : str) (pos e : nat) (g : option (nat * nat)) : str :=
  if has_group r then
    match g with
    | Some (a, b) => str_slice full a b
    | None => []
    end
  else str_slice full pos e.

(** The scan of [re.findall]: leftmost matches, not overlapping. [skip] counts
    the characters still covered by the last match. No pattern of the source
    matches the empty string, so nothing is tried at the end of the text. *)
Fixpoint findall_from (ic : bool) (r : regex) (full : str) (prev : option char)
    (s : str) (pos skip : nat) {struct s} : list str :=
  match s with
  | [] => []
  | c :: t =>
      match skip with
      | S k => findall_from ic r full (Some c) t (S pos) k
      | O =>
          match rmatch ic r prev s pos None (fun _ _ e g => Some (e, g)) with
          | Some (e, g) =>
              match_text r full pos e g :: findall_from ic r full (Some c) t (S pos) (e - pos - 1)
          | None => findall_from ic r full (Some c) t (S pos) 0
          end
      end
  end.

Definition re_findall (ic : bool) (r : regex) (text : str) : list str :=
  findall_from ic r text None text 0 0.

(** A literal text as a pattern. *)
Fixpoint rlit (cs : str) : regex :=
  match cs with
  | [] => REps
  | [c] => RLit c
  | c :: t => RSeq (RLit c) (rlit t)
  end.

(** ** 4.1 Tokenizer *)

Definition stopwords : list str :=
  map py ["de"; "la"; "el"; "en"; "y"; "a"; "que"; "del"; "las"; "los"; "con"; "por"; "para"]%string.

Definition str_mem (w : str) (l : list str) : bool := existsb (str_eqb w) l.

(** [_extract_keywords] on a [str] argument ([pd.isna] of a [str] is false). *)
Definition _extract_keywords (text : str) : list str :=
  let words := re_findall false (RPlus CWord) (str_lower text) in
  let keywords := filter (fun w => (3 <? length w) && negb (str_mem w stopwords)) words in
  set_iter_str keywords.

(** ** Tabular input: a DataFrame and its rows

    A frame is given by the cells its rows hand out, as objects: reading a
    cell of a row twice gives the same object. *)

Record dataframe := {
  columns : list string;
  rows : list (list pyval)
}.

(** A row as [iterrows] yields it: a Series labelled by the columns. *)
Definition series := dict string pyval.

Definition iterrows (df : dataframe) : list series :=
  map (fun r => combine (columns df) r) (rows df).

(** [df.empty]: no row or no column. *)
Definition df_empty (df : dataframe) : bool :=
  match columns df, rows df with
  | [], _ => true
  | _, [] => true
  | _, _ => false
  end.

(** [row[key]] *)
Definition getitem (row : dict string pyval) (key : string) : res pyval :=
  match dict_get String.eqb row key with
  | Some v => Ok v
  | None => Raise (KeyError key)
  end.

(** [row.get(key, default)] *)
Definition get_default (row : dict string pyval) (key : string) (default : pyval) : pyval :=
  match dict_get String.eqb row key with
  | Some v => v
  | None => default
  end.

(** [d.get(key)] *)
Definition get (d : dict string pyval) (key : string) : pyval := get_default d key PyNone.

(** ** 4.2 Record memory builder *)

Definition indent : str := py "        ".

Local Open Scope res_scope.

Definition _build_case_memory (case : series) : res str :=
  nombre_caso <- getitem case "nombre_caso" ;;
  area_derecho <- getitem case "area_derecho" ;;
  fecha_inicio <- getitem case "fecha_inicio" ;;
  fecha_fin <- getitem case "fecha_fin" ;;
  tipo_seleccion <- getitem case "tipo_seleccion" ;;
  origen <- getitem case "origen" ;;
  exito <- getitem case "exito" ;;
  presion_ambiental <- getitem case "presion_ambiental" ;;
  actores_principales <- getitem case "actores_principales" ;;
  normativa_primaria <- getitem case "normativa_primaria" ;;
  fallos_relevantes <- getitem case "fallos_relevantes" ;;
  supervivencia_anos <- getitem case "supervivencia_anos" ;;
  mutaciones_identificadas <- getitem case "mutaciones_identificadas" ;;
  difusion_otras_jurisdicciones <- getitem case "difusion_otras_jurisdicciones" ;;
  let notas := get_default case "notas" (PyStr []) in
  Ok (nl ++ indent ++ py "Legal Evolution Case: " ++ py_str nombre_caso
   ++ nl ++ indent ++ py "Legal Area: " ++ py_str area_derecho
   ++ nl ++ indent ++ py "Period: " ++ py_str fecha_inicio ++ py " to " ++ py_str fecha_fin
   ++ nl ++ indent ++ py "Evolution Type: " ++ py_str tipo_seleccion
   ++ nl ++ indent ++ py "Origin: " ++ py_str origen
   ++ nl ++ indent ++ py "Success Level: " ++ py_str exito
   ++ nl ++ indent ++ py "Environmental Pressure: " ++ py_str presion_ambiental
   ++ nl ++ indent ++ py "Key Actors: " ++ py_str actores_principales
   ++ nl ++ indent ++ py "Primary Legislation: " ++ py_str normativa_primaria
   ++ nl ++ indent ++ py "Relevant Rulings: " ++ py_str fallos_relevantes
   ++ nl ++ indent ++ py "Survival Years: " ++ py_str supervivencia_anos
   ++ nl ++ indent ++ py "Mutations: " ++ py_str mutaciones_identificadas
   ++ nl ++ indent ++ py "International Diffusion: " ++ py_str difusion_otras_jurisdicciones
   ++ nl ++ indent ++ py "Notes: " ++ py_str notas
   ++ nl ++ indent).

Definition _build_crisis_memory (crisis : series) : res str :=
  crisis_name <- getitem crisis "crisis_name" ;;
  start_date <- getitem crisis "start_date" ;;
  end_date <- getitem crisis "end_date" ;;
  crisis_type <- getitem crisis "crisis_type" ;;
  severity_level <- getitem crisis "severity_level" ;;
  legal_changes_count <- getitem crisis "legal_changes_count" ;;
  emergency_decrees <- getitem crisis "emergency_decrees" ;;
  new_laws <- getitem crisis "new_laws" ;;
  acceleration_factor <- getitem crisis "acceleration_factor" ;;
  economic_indicators <- getitem crisis "economic_indicators" ;;
  recovery_timeline_months <- getitem crisis "recovery_timeline_months" ;;
  long_term_institutional_impact <- getitem crisis "long_term_institutional_impact" ;;
  Ok (nl ++ indent ++ py "Crisis Period: " ++ py_str crisis_name
   ++ nl ++ indent ++ py "Duration: " ++ py_str start_date ++ py " to " ++ py_str end_date
   ++ nl ++ indent ++ py "Type: " ++ py_str crisis_type
   ++ nl ++ indent ++ py "Severity: " ++ py_str severity_level
   ++ nl ++ indent ++ py "Legal Changes: " ++ py_str legal_changes_count
   ++ nl ++ indent ++ py "Emergency Decrees: " ++ py_str emergency_decrees
   ++ nl ++ indent ++ py "New Laws: " ++ py_str new_laws
   ++ nl ++ indent ++ py "Acceleration Factor: " ++ py_str acceleration_factor
   ++ nl ++ indent ++ py "Economic Indicators: " ++ py_str economic_indicators
   ++ nl ++ indent ++ py "Recovery Timeline: " ++ py_str recovery_timeline_months ++ py " months"
   ++ nl ++ indent ++ py "Long-term Impact: " ++ py_str long_term_institutional_impact
   ++ nl ++ indent).

(** ** 4.3 Index builder *)

Record entry := {
  content : str;
  metadata : dict string pyval
}.

Record memory_index := {
  mi_evolution_cases : dict pyval entry;
  mi_crisis_periods : dict pyval entry;
  mi_transplant_cases : dict pyval entry;
  mi_keywords : dict str (list pyval);
  mi_temporal : dict str (list pyval);
  mi_legal_areas : dict pyval (list pyval)
}.

Definition empty_index : memory_index :=
  {| mi_evolution_cases := []; mi_crisis_periods := []; mi_transplant_cases := [];
     mi_keywords := []; mi_temporal := []; mi_legal_areas := [] |}.

(** [left + " " + right] where [right] is a [str]. *)
Definition concat_name (left : pyval) (right : str) : res str :=
  match left with
  | PyStr s => Ok (s ++ py " " ++ right)
  | _ => Raise (TypeError_concat left)
  end.

(** The body of the loop over the evolution cases. *)
Definition index_case (idx : memory_index) (case : series) : res memory_index :=
  case_id <- getitem case "case_id" ;;
  case_memory <- _build_case_memory case ;;
  area_derecho <- getitem case "area_derecho" ;;
  fecha_inicio <- getitem case "fecha_inicio" ;;
  exito <- getitem case "exito" ;;
  let e := {| content := case_memory;
              metadata := [("legal_area", area_derecho); ("start_date", fecha_inicio);
                           ("success", exito); ("type", PyStr (py "evolution_case"))]%string |} in
  let evolution_cases := dict_set pyval_eqb (mi_evolution_cases idx) case_id e in
  (* Build keyword index *)
  nombre_caso <- getitem case "nombre_caso" ;;
  text <- concat_name nombre_caso (py_str (get_default case "notas" (PyStr []))) ;;
  let keywords :=
    fold_left (fun kw keyword => dd_append str_eqb kw (str_lower keyword) case_id)
              (_extract_keywords text) (mi_keywords idx) in
  (* Build temporal index *)
  fecha_inicio' <- getitem case "fecha_inicio" ;;
  let year := str_take 4 (py_str fecha_inicio') in
  let temporal := dd_append str_eqb (mi_temporal idx) year case_id in
  (* Build legal area index *)
  area_derecho' <- getitem case "area_derecho" ;;
  let legal_areas := dd_append pyval_eqb (mi_legal_areas idx) area_derecho' case_id in
  Ok {| mi_evolution_cases := evolution_cases;
        mi_crisis_periods := mi_crisis_periods idx;
        mi_transplant_cases := mi_transplant_cases idx;
        mi_keywords := keywords;
        mi_temporal := temporal;
        mi_legal_areas := legal_areas |}.

(** The body of the loop over the crisis periods. *)
Definition index_crisis (idx : memory_index) (crisis : series) : res memory_index :=
  crisis_id <- getitem crisis "crisis_id" ;;
  crisis_memory <- _build_crisis_memory crisis ;;
  crisis_type <- getitem crisis "crisis_type" ;;
  severity_level <- getitem crisis "severity_level" ;;
  start_date <- getitem crisis "start_date" ;;
  let e := {| content := crisis_memory;
              metadata := [("crisis_type", crisis_type); ("severity", severity_level);
                           ("start_date", start_date); ("type", PyStr (py "crisis_period"))]%string |} in
  Ok {| mi_evolution_cases := mi_evolution_cases idx;
        mi_crisis_periods := dict_set pyval_eqb (mi_crisis_periods idx) crisis_id e;
        mi_transplant_cases := mi_transplant_cases idx;
        mi_keywords := mi_keywords idx;
        mi_temporal := mi_temporal idx;
        mi_legal_areas := mi_legal_areas idx |}.

(** A [for] loop whose body may raise: the first exception ends it. *)
Fixpoint for_each {A S : Type} (body : S -> A -> res S) (l : list A) (s : S) : res S :=
  match l with
  | [] => Ok s
  | x :: t => s' <- body s x ;; for_each body t s'
  end.

Definition _build_memory_index (evolution_cases crisis_periods : dataframe) : res memory_index :=
  idx1 <- (if df_empty evolution_cases then Ok empty_index
           else for_each index_case (iterrows evolution_cases) empty_index) ;;
  if df_empty crisis_periods then Ok idx1
  else for_each index_crisis (iterrows crisis_periods) idx1.

(** ** 4.5 Retriever *)

Record config := {
  retrieval_top_k : Z;
  legal_domains : list str
}.

Definition default_config : config :=
  {| retrieval_top_k := 20;
     legal_domains := map py ["constitucional"; "civil"; "comercial"; "financiero";
                              "administrativo"; "procesal"; "criminal"; "laboral";
                              "tributario"; "cambiario"; "bancario"; "ambiental"]%string |}.

Record scored_case := {
  sc_id : pyval;
  sc_type : string;
  sc_score : Q;
  sc_content : str;
  sc_metadata : dict string pyval
}.

(** [score > 0] *)
Definition Qpos_bool (q : Q) : bool := negb (Qle_bool q 0).

(** One partition's loop: the entries in insertion order, those scoring above
    zero appended to the candidates. *)
Definition scan_partition (type : string) (keywords : list str)
    (partition : dict pyval entry) : list scored_case :=
  flat_map (fun kv : pyval * entry =>
              let (case_id, case_data) := kv in
              let score := _calculate_relevance_score (content case_data) keywords in
              if Qpos_bool score then
                [{| sc_id := case_id; sc_type := type; sc_score := score;
                    sc_content := content case_data; sc_metadata := metadata case_data |}]
              else [])
           partition.

(** [not context_type or context_type == name] *)
Definition context_selects (context_type : option str) (name : string) : bool :=
  match context_type with
  | None => true
  | Some [] => true
  | Some t => str_eqb t (py name)
  end.

(** The candidates in scan order, before sorting. *)
Definition scan_memory (idx : memory_index) (keywords : list str)
    (context_type : option str) : list scored_case :=
  (if context_selects context_type "evolution_cases"
   then scan_partition "evolution_case" keywords (mi_evolution_cases idx) else [])
  ++
  (if context_selects context_type "crisis_periods"
   then scan_partition "crisis_period" keywords (mi_crisis_periods idx) else []).

(** [list.sort(key=lambda x: x['score'], reverse=True)]: the stable sort by
    decreasing score, as an insertion sort from the right. *)
Fixpoint insert_desc (x : scored_case) (l : list scored_case) : list scored_case :=
  match l with
  | [] => [x]
  | y :: t =>
      if Qle_bool (sc_score y) (sc_score x) then x :: y :: t
      else y :: insert_desc x t
  end.

Definition sort_desc (l : list scored_case) : list scored_case :=
  fold_right insert_desc [] l.

(** [l[:k]] for an integer [k]: a negative [k] counts from the end. *)
Definition slice_to {A : Type} (k : Z) (l : list A) : list A :=
  if (0 <=? k)%Z then firstn (Z.to_nat k) l
  else firstn (length l - Z.to_nat (- k)) l.

Definition _search_memory (cfg : config) (idx : memory_index) (keywords : list str)
    (context_type : option str) : list scored_case :=
  let scored_cases := scan_memory idx keywords context_type in
  slice_to (retrieval_top_k cfg) (sort_desc scored_cases).

(** ** 4.6 Response and insight synthesizer *)

(** [max(items, key=key)] and [min(items)] on a non-empty iterable: the first
    extremal element in iteration order. *)
Fixpoint max_by {A : Type} (key : A -> nat) (best : A) (rest : list A) : A :=
  match rest with
  | [] => best
  | x :: t => if key best <? key x then max_by key x t else max_by key best t
  end.

Fixpoint str_min (best : str) (rest : list str) : str :=
  match rest with
  | [] => best
  | x :: t => if str_ltb x best then str_min x t else str_min best t
  end.

Fixpoint str_max (best : str) (rest : list str) : str :=
  match rest with
  | [] => best
  | x :: t => if str_ltb best x then str_max x t else str_max best t
  end.

(** [l.count(x)] *)
Definition count (l : list pyval) (x : pyval) : nat :=
  length (filter (pyval_eqb x) l).

(** ["\n".join(l)] *)
Fixpoint join_lines (l : list str) : str :=
  match l with
  | [] => []
  | [x] => x
  | x :: t => x ++ nl ++ join_lines t
  end.

(** [[c['metadata'].get(key) for c in cases if c['metadata'].get(key)]] *)
Definition truthy_field (key : string) (cases : list scored_case) : list pyval :=
  filter py_truthy (map (fun c => get (sc_metadata c) key) cases).

(** The dominant category: [max(set(areas), key=areas.count)]. *)
Definition most_common_area (areas : list pyval) : option pyval :=
  match set_iter_val areas with
  | [] => None
  | a :: rest => Some (max_by (count areas) a rest)
  end.

(** [[d[:4] for d in dates if d and len(d) >= 4]]: [len] of a cell that is
    not a [str] raises. *)
Fixpoint year_prefixes (dates : list pyval) : res (list str) :=
  match dates with
  | [] => Ok []
  | d :: t =>
      if py_truthy d then
        match d with
        | PyStr s =>
            years <- year_prefixes t ;;
            Ok (if 4 <=? length s then str_take 4 s :: years else years)
        | _ => Raise (TypeError_len d)
        end
      else year_prefixes t
  end.

Definition _generate_insights (cases : list scored_case) : res str :=
  match cases with
  | [] => Ok (py "No se generaron insights suficientes." ++ nl)
  | _ :: _ =>
      (* Legal area analysis *)
      let areas := truthy_field "legal_area" cases in
      let insights1 :=
        match areas with
        | [] => []
        | _ :: _ =>
            match most_common_area areas with
            | Some most_common_area =>
                [py "- Área legal más relevante: " ++ py_str most_common_area]
            | None => []
            end
        end in
      (* Success pattern analysis *)
      let successes := truthy_field "success" cases in
      let insights2 :=
        match successes with
        | [] => insights1
        | _ :: _ =>
            let success_rate :=
              (inject_Z (Z.of_nat (count successes (PyStr (py "Exitoso"))))
               / inject_Z (Z.of_nat (length successes)) * 100)%Q in
            insights1 ++ [py "- Tasa de éxito en casos relevantes: " ++ format_1f success_rate ++ py "%"]
        end in
      (* Temporal pattern analysis *)
      let dates := truthy_field "start_date" cases in
      insights3 <-
        match dates with
        | [] => Ok insights2
        | _ :: _ =>
            years <- year_prefixes dates ;;
            match years with
            | [] => Ok insights2
            | y :: ys =>
                let earliest := str_min y ys in
                let latest := str_max y ys in
                Ok (insights2 ++ [py "- Período temporal: " ++ earliest ++ py "-" ++ latest])
            end
        end ;;
      Ok (join_lines insights3 ++ nl)
  end.

(** [str(i)] for a loop counter. *)
Definition nat_str (i : nat) : str := py (NilZero.string_of_uint (Nat.to_uint i)).

(** The numbered lines of one section: [enumerate(cases, 1)] with a line per case. *)
Fixpoint numbered_lines (line : nat -> scored_case -> res str) (i : nat)
    (cases : list scored_case) : res str :=
  match cases with
  | [] => Ok []
  | c :: t =>
      l <- line i c ;;
      rest <- numbered_lines line (S i) t ;;
      Ok (l ++ rest)
  end.

Definition evolution_line (i : nat) (case : scored_case) : res str :=
  let metadata := sc_metadata case in
  legal_area <- getitem metadata "legal_area" ;;
  start_date <- getitem metadata "start_date" ;;
  success <- getitem metadata "success" ;;
  Ok (nat_str i ++ py ". Área: " ++ py_str legal_area ++ py ", "
      ++ py "Inicio: " ++ py_str start_date ++ py ", "
      ++ py "Éxito: " ++ py_str success ++ py " "
      ++ py "(Score: " ++ format_2f (sc_score case) ++ py ")" ++ nl).

Definition crisis_line (i : nat) (case : scored_case) : res str :=
  let metadata := sc_metadata case in
  crisis_type <- getitem metadata "crisis_type" ;;
  severity <- getitem metadata "severity" ;;
  start_date <- getitem metadata "start_date" ;;
  Ok (nat_str i ++ py ". Tipo: " ++ py_str crisis_type ++ py ", "
      ++ py "Severidad: " ++ py_str severity ++ py ", "
      ++ py "Inicio: " ++ py_str start_date ++ py " "
      ++ py "(Score: " ++ format_2f (sc_score case) ++ py ")" ++ nl).

Definition no_cases_message : str :=
  py "No se encontraron casos relevantes para la consulta.".

Definition _generate_response (query : str) (relevant_cases : list scored_case) : res str :=
  match relevant_cases with
  | [] => Ok no_cases_message
  | _ :: _ =>
      let response0 :=
        py "Análisis de evolución legal para: '" ++ query ++ py "'" ++ nl ++ nl
        ++ py "Basado en el análisis del dataset Legal Evolution Dataset con Reality Filter:"
        ++ nl ++ nl in
      (* Categorize cases by type *)
      let evolution_cases := filter (fun c => String.eqb (sc_type c) "evolution_case") relevant_cases in
      let crisis_cases := filter (fun c => String.eqb (sc_type c) "crisis_period") relevant_cases in
      response1 <-
        match evolution_cases with
        | [] => Ok response0
        | _ :: _ =>
            ls <- numbered_lines evolution_line 1 (firstn 5 evolution_cases) ;;
            Ok (response0 ++ py "📊 CASOS DE EVOLUCIÓN LEGAL RELEVANTES:" ++ nl ++ ls ++ nl)
        end ;;
      response2 <-
        match crisis_cases with
        | [] => Ok response1
        | _ :: _ =>
            ls <- numbered_lines crisis_line 1 (firstn 3 crisis_cases) ;;
            Ok (response1 ++ py "⚡ PERÍODOS DE CRISIS RELEVANTES:" ++ nl ++ ls ++ nl)
        end ;;
      (* Add analysis insights *)
      insights <- _generate_insights relevant_cases ;;
      Ok (response2 ++ py "🎯 INSIGHTS PRINCIPALES:" ++ nl ++ insights)
  end.

Record analysis := {
  legal_areas_mentioned : list str;
  temporal_patterns : list str;
  evolution_mechanisms : list str;
  success_indicators : list str;
  crisis_indicators : list str
}.

Definition digit_0 : char := 48%N.
Definition digit_1 : char := 49%N.
Definition digit_2 : char := 50%N.
Definition digit_9 : char := 57%N.

(** The pattern [\b(19|20)\d{2}\b]. *)
Definition years_pattern : regex :=
  RSeq RBound
    (RSeq (RGroup (RAlt (RSeq (RLit digit_1) (RLit digit_9))
                        (RSeq (RLit digit_2) (RLit digit_0))))
       (RSeq (RClass CDigit) (RSeq (RClass CDigit) RBound))).

Definition _analyze_response (cfg : config) (response query : str) : analysis :=
  let response_lower := str_lower response in
  (* Detect legal areas *)
  let areas := filter (fun area => str_in area response_lower) (legal_domains cfg) in
  (* Detect evolution mechanisms *)
  let mechanisms :=
    map py ["acumulativa"; "artificial"; "mixta"; "transplante"; "endogeno"; "hibrido"]%string in
  (* Detect success indicators *)
  let success_terms := map py ["exitoso"; "parcial"; "fracaso"; "en_desarrollo"]%string in
  (* Extract years *)
  let years := re_findall false years_pattern response in
  {| legal_areas_mentioned := areas;
     temporal_patterns := set_iter_str years;
     evolution_mechanisms := filter (fun mechanism => str_in mechanism response_lower) mechanisms;
     success_indicators := filter (fun term => str_in term response_lower) success_terms;
     crisis_indicators := [] |}.

(** ** 4.7 Confidence estimator *)

(** [min(a, b)] on two floats: [b] only when it is smaller. *)
Definition py_min (a b : Q) : Q := if Qle_bool a b then a else b.

(** [sum(case['score'] for case in cases)] *)
Definition sum_scores (cases : list scored_case) : Q :=
  fold_left (fun acc case => acc + sc_score case)%Q cases 0%Q.

(** The confidence in exact arithmetic: a decimal literal is the fraction it
    denotes and no step rounds. [Binary64._calculate_confidence] is the same
    function on doubles, as the interpreter computes it. *)
Definition _calculate_confidence (cases : list scored_case) (keywords : list str) : Q :=
  match cases with
  | [] => 0
  | _ :: _ =>
      let base_confidence := 0.6 in
      (* Boost confidence based on number of relevant cases *)
      let case_boost := py_min (inject_Z (Z.of_nat (length cases)) * 0.05) 0.3 in
      let base_confidence := base_confidence + case_boost in
      (* Boost confidence based on average relevance score *)
      let avg_score := sum_scores cases / inject_Z (Z.of_nat (length cases)) in
      let score_boost := avg_score * 0.2 in
      let base_confidence := base_confidence + score_boost in
      (* Boost confidence for Reality Filter verified sources *)
      let verified_boost := 0.1 in
      let base_confidence := base_confidence + verified_boost in
      py_min base_confidence 1.0
  end%Q.

(** ** Sources *)

Definition ch (a : ascii) : char := N_of_ascii a.

(** [Ley \d+\.\d+], [Decreto \d+/\d+], [Fallos \d+:\d+] and the five names. *)
Definition source_patterns : list regex :=
  [ RSeq (rlit (py "Ley ")) (RSeq (RPlus CDigit) (RSeq (RLit (ch ".")) (RPlus CDigit)));
    RSeq (rlit (py "Decreto ")) (RSeq (RPlus CDigit) (RSeq (RLit (ch "/")) (RPlus CDigit)));
    RSeq (rlit (py "Fallos ")) (RSeq (RPlus CDigit) (RSeq (RLit (ch ":")) (RPlus CDigit)));
    rlit (py "InfoLeg"); rlit (py "SAIJ"); rlit (py "CSJN"); rlit (py "BCRA"); rlit (py "CNV") ].

Definition _extract_sources (response : str) : list str :=
  set_iter_str (flat_map (fun pattern => re_findall true pattern response) source_patterns).

(** ** The query boundary *)

Record query_success := {
  r_query : str;
  r_response : str;
  r_analysis : analysis;
  r_relevant_cases : list pyval;
  r_confidence : Q;
  r_sources : list str;
  r_timestamp : str
}.

(** The dictionary a query returns: the full result, or the one the
    [except Exception] handler builds. *)
Inductive query_result :=
| QueryResult (r : query_success)
| QueryError (query : str) (error : str) (timestamp : str).

Definition result_keys (r : query_result) : list string :=
  match r with
  | QueryResult _ =>
      ["query"; "response"; "analysis"; "relevant_cases"; "confidence"; "sources"; "timestamp"]%string
  | QueryError _ _ _ => ["query"; "error"; "timestamp"]%string
  end.

(** The body of the [try]; [now] is what [datetime.now().isoformat()] reads. *)
Definition query_pipeline (cfg : config) (idx : memory_index) (now : str)
    (query : str) (context_type : option str) : res query_success :=
  (* Extract query keywords *)
  let query_keywords := _extract_keywords query in
  (* Search memory index *)
  let relevant_cases := _search_memory cfg idx query_keywords context_type in
  (* Generate response *)
  response <- _generate_response query relevant_cases ;;
  (* Analyze response *)
  let analysis := _analyze_response cfg response query in
  Ok {| r_query := query;
        r_response := response;
        r_analysis := analysis;
        r_relevant_cases := map sc_id relevant_cases;
        r_confidence := _calculate_confidence relevant_cases query_keywords;
        r_sources := _extract_sources response;
        r_timestamp := now |}.

Definition query_legal_evolution (cfg : config) (idx : memory_index) (now : str)
    (query : str) (context_type : option str) : query_result :=
  match query_pipeline cfg idx now query context_type with
  | Ok result => QueryResult result
  | Raise e => QueryError query (exn_str e) now
  end.

End Core.

(** ** A concrete runtime: text of code points below 256

    On such text [str.lower], [\w], [\d] and case-insensitive equality are the
    ones below; a set is iterated in the order [nodup] leaves. *)

Definition lower_char (c : char) : char :=
  if ((65 <=? c) && (c <=? 90))%N then (c + 32)%N
  else if ((192 <=? c) && (c <=? 222) && negb (c =? 215))%N then (c + 32)%N
  else c.

Definition latin1_is_digit (c : char) : bool := ((48 <=? c) && (c <=? 57))%N.

Definition latin1_is_word (c : char) : bool :=
  (latin1_is_digit c
   || ((65 <=? c) && (c <=? 90)) || ((97 <=? c) && (c <=? 122)) || (c =? 95)
   || (c =? 170) || (c =? 178) || (c =? 179) || (c =? 181) || (c =? 185) || (c =? 186)
   || ((188 <=? c) && (c <=? 190))
   || ((192 <=? c) && (c <=? 214)) || ((216 <=? c) && (c <=? 246))
   || ((248 <=? c) && (c <=? 255)))%N.

Definition str_eq_dec : forall a b : str, {a = b} + {a <> b} := list_eq_dec N.eq_dec.

Definition pyval_eq_dec : forall a b : pyval, {a = b} + {a <> b}.
Proof. decide equality; [apply N.eq_dec | apply Z.eq_dec | apply str_eq_dec]. Defined.

(** Fixed-point rendering of a non-negative rational, rounding half to even. *)
Definition round_half_even (q : Q) : Z :=
  let n := Qnum q in
  let d := Zpos (Qden q) in
  let f := (n / d)%Z in
  let r := (2 * (n mod d))%Z in
  if (r <? d)%Z then f
  else if (d <? r)%Z then (f + 1)%Z
  else if Z.even f then f else (f + 1)%Z.

Definition z_str (z : Z) : str := py (NilZero.string_of_int (Z.to_int z)).

Definition fixed_2f (q : Q) : str :=
  let n := round_half_even (q * 100) in
  let frac := (n mod 100)%Z in
  z_str (n / 100) ++ py "." ++ (if (frac <? 10)%Z then py "0" else []) ++ z_str frac.

Definition fixed_1f (q : Q) : str :=
  let n := round_half_even (q * 10) in
  z_str (n / 10) ++ py "." ++ z_str (n mod 10).

Definition message (e : exn) : str :=
  match e with
  | KeyError k => py "'" ++ py k ++ py "'"
  | TypeError_concat _ => py "unsupported operand type(s) for +"
  | TypeError_len _ => py "object has no len()"
  end.

Definition latin1_runtime : PyRuntime := {|
  str_lower := map lower_char;
  is_word := latin1_is_word;
  is_digit := latin1_is_digit;
  ci_eq := fun a b => char_eqb (lower_char a) (lower_char b);
  set_iter_str := nodup str_eq_dec;
  set_iter_val := nodup pyval_eq_dec;
  format_2f := fixed_2f;
  format_1f := fixed_1f;
  exn_str := message;
  set_iter_str_in := fun l x => nodup_In str_eq_dec l x;
  set_iter_val_in := fun l x => nodup_In pyval_eq_dec l x;
  set_iter_val_nodup := fun l => NoDup_nodup pyval_eq_dec l
|}.

(** The same runtime with the hash table of a set laid out the other way
    round. The order in which a set of [str] is iterated follows the hashes,
    which the interpreter salts anew in every process. *)
Definition reversed_sets_runtime : PyRuntime := {|
  str_lower := map lower_char;
  is_word := latin1_is_word;
  is_digit := latin1_is_digit;
  ci_eq := fun a b => char_eqb (lower_char a) (lower_char b);
  set_iter_str := fun l => rev (nodup str_eq_dec l);
  set_iter_val := fun l => rev (nodup pyval_eq_dec l);
  format_2f := fixed_2f;
  format_1f := fixed_1f;
  exn_str := message;
  set_iter_str_in := fun l x =>
    iff_trans (iff_sym (in_rev (nodup str_eq_dec l) x)) (nodup_In str_eq_dec l x);
  set_iter_val_in := fun l x =>
    iff_trans (iff_sym (in_rev (nodup pyval_eq_dec l) x)) (nodup_In pyval_eq_dec l x);
  set_iter_val_nodup := fun l => NoDup_rev (NoDup_nodup pyval_eq_dec l)
|}.

(** ** Sample data: the corpus of the specification's scenario *)

Definition case_columns : list string :=
  ["case_id"; "nombre_caso"; "area_derecho"; "fecha_inicio"; "fecha_fin"; "tipo_seleccion";
   "origen"; "exito"; "presion_ambiental"; "actores_principales"; "normativa_primaria";
   "fallos_relevantes"; "supervivencia_anos"; "mutaciones_identificadas";
   "difusion_otras_jurisdicciones"; "notas"]%string.

Definition txt (x : string) : pyval := PyStr (py x).

(** One evolution case with the given id and start-date cells. *)
Definition case_row (case_id fecha_inicio : pyval) : list pyval :=
  [case_id; txt "fideicomiso financiero"; txt "civil"; fecha_inicio; txt "2001-12-31";
   txt "acumulativa"; txt "endogeno"; txt "Exitoso"; txt "alta"; txt "BCRA"; txt "Ley 24.441";
   txt "Fallos 320:1"; PyInt 29; PyInt 3; txt "Uruguay"; PyNaN 0].

Definition one_case (case_id fecha_inicio : pyval) : dataframe :=
  {| columns := case_columns; rows := [case_row case_id fecha_inicio] |}.

Definition no_rows : dataframe := {| columns := []; rows := [] |}.

(** ** The confidence in binary64

    [_calculate_confidence] once more, in the arithmetic of the interpreter:
    every number is an IEEE double and every operation rounds to the nearest
    one. The scores are those of the matches, in their order. *)

Module Binary64.
Import PrimFloat.

(** [float(n)] for the length of a list. *)
Definition float_of_nat (n : nat) : float := of_uint63 (Uint63.of_Z (Z.of_nat n)).

(** [min(a, b)] on two floats: [b] only when it is smaller. *)
Definition float_min (a b : float) : float := if ltb b a then b else a.

(** [sum(case['score'] for case in cases)], from the integer 0 on. *)
Definition sum_scores (scores : list float) : float := fold_left add scores zero.

#[local] Set Warnings "-inexact-float".
Definition _calculate_confidence (scores : list float) : float :=
  match scores with
  | [] => 0.0
  | _ :: _ =>
      let base_confidence := 0.6 in
      (* Boost confidence based on number of relevant cases *)
      let case_boost := float_min (float_of_nat (length scores) * 0.05) 0.3 in
      let base_confidence := base_confidence + case_boost in
      (* Boost confidence based on average relevance score *)
      let avg_score := sum_scores scores / float_of_nat (length scores) in
      let score_boost := avg_score * 0.2 in
      let base_confidence := base_confidence + score_boost in
      (* Boost confidence for Reality Filter verified sources *)
      let verified_boost := 0.1 in
      let base_confidence := base_confidence + verified_boost in
      float_min base_confidence 1.0
  end%float.





End Binary64.

(** * Vocabulary of the properties *)

(** ** Scoring *)

(** [needle] occurs in [hay] as a substring. *)
Definition occurs_in (needle hay : str) : Prop :=
  exists before after, hay = before ++ needle ++ after.

(** [m] of the keywords of the list occur in [hay]; a keyword counts once
    however often it occurs. *)
Inductive keywords_found (hay : str) : list str -> nat -> Prop :=
| found_nil : keywords_found hay [] 0
| found_hit k ks m :
    occurs_in k hay -> keywords_found hay ks m -> keywords_found hay (k :: ks) (S m)
| found_miss k ks m :
    ~ occurs_in k hay -> keywords_found hay ks m -> keywords_found hay (k :: ks) m.

(** ** Ranking *)

(** The match scores above zero. *)
Definition positive (c : scored_case) : Prop := 0 < sc_score c.

(** [a] may stand before [b] in a ranking. *)
Definition ranks_before (a b : scored_case) : Prop := sc_score b <= sc_score a.

(** The candidates whose score equals [q]. *)
Definition with_score (q : Q) (l : list scored_case) : list scored_case :=
  filter (fun c => Qeq_bool (sc_score c) q) l.

(** The ids of a partition's entries that score above zero, in insertion order. *)
Definition ids_above_zero {RT : PyRuntime} (keywords : list str)
    (partition : dict pyval entry) : list pyval :=
  map fst (filter (fun kv => Qpos_bool (_calculate_relevance_score (content (snd kv)) keywords))
                  partition).

(** ** Confidence *)

(** The average score across the matches, as the specification words it. *)
Definition average_score (cases : list scored_case) : Q :=
  fold_right Qplus 0 (map sc_score cases) / inject_Z (Z.of_nat (length cases)).

(** ** The index *)

(** [x] is listed somewhere in a multi-valued index. *)
Definition listed {K : Type} (d : dict K (list pyval)) (x : pyval) : Prop :=
  exists k l, In (k, l) d /\ In x l.

(** [x] is listed under the key [k]. *)
Definition listed_under {K : Type} (eqb : K -> K -> bool) (d : dict K (list pyval))
    (k : K) (x : pyval) : Prop :=
  exists l, dict_get eqb d k = Some l /\ In x l.

(** The rows a loop of the build runs over: none when the frame is empty. *)
Definition processed_rows (df : dataframe) : list series :=
  if df_empty df then [] else iterrows df.

(** The cells of a column, row by row. *)
Definition column (key : string) (rows : list series) : list pyval :=
  flat_map (fun row => match dict_get String.eqb row key with
                       | Some v => [v]
                       | None => []
                       end) rows.

(** Every id listed in the keyword, temporal or legal-area index is a key of
    the store of evolution cases. *)
Definition referential_integrity (idx : memory_index) : Prop :=
  forall case_id,
    listed (mi_keywords idx) case_id \/
    listed (mi_temporal idx) case_id \/
    listed (mi_legal_areas idx) case_id ->
    In case_id (dict_keys (mi_evolution_cases idx)).

(** The columns the build reads from a frame of evolution cases ([notas] is
    optional) and from a frame of crisis periods. *)
Definition required_case_columns : list string :=
  ["case_id"; "nombre_caso"; "area_derecho"; "fecha_inicio"; "fecha_fin"; "tipo_seleccion";
   "origen"; "exito"; "presion_ambiental"; "actores_principales"; "normativa_primaria";
   "fallos_relevantes"; "supervivencia_anos"; "mutaciones_identificadas";
   "difusion_otras_jurisdicciones"]%string.

Definition required_crisis_columns : list string :=
  ["crisis_id"; "crisis_name"; "start_date"; "end_date"; "crisis_type"; "severity_level";
   "legal_changes_count"; "emergency_decrees"; "new_laws"; "acceleration_factor";
   "economic_indicators"; "recovery_timeline_months"; "long_term_institutional_impact"]%string.

(** The frame has the columns the build reads and every row has a cell for
    each column. *)
Definition well_formed (required : list string) (df : dataframe) : Prop :=
  incl required (columns df) /\
  Forall (fun r => length (columns df) <= length r)%nat (rows df).

(** The name of every case is a string, so that it can be concatenated. *)
Definition names_are_text (df : dataframe) : Prop :=
  forall row, In row (iterrows df) -> exists s, getitem row "nombre_caso" = Ok (PyStr s).

(** The row has been indexed: its id is a key of the by-id store and is
    listed under the row's year key and under its legal area. *)
Definition indexed_case (row : series) (idx : memory_index) : Prop :=
  exists case_id fecha area,
    getitem row "case_id" = Ok case_id /\
    getitem row "fecha_inicio" = Ok fecha /\
    getitem row "area_derecho" = Ok area /\
    In case_id (dict_keys (mi_evolution_cases idx)) /\
    listed_under str_eqb (mi_temporal idx) (str_take 4 (py_str fecha)) case_id /\
    listed_under pyval_eqb (mi_legal_areas idx) area case_id.

(** The crisis row has been indexed: its id is a key of the crisis store. *)
Definition indexed_crisis (row : series) (idx : memory_index) : Prop :=
  exists crisis_id,
    getitem row "crisis_id" = Ok crisis_id /\
    In crisis_id (dict_keys (mi_crisis_periods idx)).

(** The keys of the by-id store are the ids of the rows, each once. *)
Definition keys_are_ids (rows : list series) (idx : memory_index) : Prop :=
  NoDup (dict_keys (mi_evolution_cases idx)) /\
  forall case_id, In case_id (dict_keys (mi_evolution_cases idx)) ->
    exists row, In row rows /\ getitem row "case_id" = Ok case_id.

(** ** Analysis and insights *)

(** [y] is one of the two prefixes the years pattern captures. *)
Definition century_prefix (y : str) : Prop := y = py "19" \/ y = py "20".

(** The dominant category as the specification words it: the highest count,
    ties going to the category met first in the list of matches. *)
Definition first_encountered_dominant (areas : list pyval) : option pyval :=
  match areas with
  | [] => None
  | a :: rest => Some (max_by (count areas) a rest)
  end.

(** ** The build as the specification describes it *)

(** A row lacks an id when the cell is absent or holds a missing-value marker. *)
Definition missing_id (row : series) : bool :=
  match dict_get String.eqb row "case_id"%string with
  | None | Some PyNone | Some (PyNaN _) => true
  | Some _ => false
  end.

(** The specification's account of a row without id: the build returns, the
    row's id is in no index, and the by-id store counts the other rows only. *)
Definition skips_records_without_id {RT : PyRuntime}
    (evolution_cases crisis_periods : dataframe) : Prop :=
  exists idx,
    _build_memory_index evolution_cases crisis_periods = Ok idx /\
    (forall row case_id,
       In row (processed_rows evolution_cases) -> missing_id row = true ->
       getitem row "case_id" = Ok case_id ->
       ~ In case_id (dict_keys (mi_evolution_cases idx)) /\
       ~ listed (mi_keywords idx) case_id /\
       ~ listed (mi_temporal idx) case_id /\
       ~ listed (mi_legal_areas idx) case_id) /\
    length (mi_evolution_cases idx)
    = length (filter (fun row => negb (missing_id row)) (processed_rows evolution_cases)).

(** A start date is missing or its string form has fewer than 4 characters. *)
Definition start_date_too_short (fecha : pyval) : bool :=
  match fecha with
  | PyNone | PyNaN _ => true
  | _ => length (py_str fecha) <? 4
  end.

(** The specification's account of the year index: a row with a usable start
    date is listed under its 4-character prefix, any other row is listed
    nowhere in the year index, and the build returns. *)
Definition skips_short_start_dates {RT : PyRuntime}
    (evolution_cases crisis_periods : dataframe) : Prop :=
  exists idx,
    _build_memory_index evolution_cases crisis_periods = Ok idx /\
    forall row case_id fecha,
      In row (processed_rows evolution_cases) ->
      getitem row "case_id" = Ok case_id ->
      getitem row "fecha_inicio" = Ok fecha ->
      if start_date_too_short fecha
      then ~ listed (mi_temporal idx) case_id
      else listed_under str_eqb (mi_temporal idx) (str_take 4 (py_str fecha)) case_id.

(** ** More sample data *)

(** The index of the scenario: one case "fideicomiso financiero" of 1995. *)
Definition sample_index : memory_index :=
  Eval vm_compute in
    match _build_memory_index (RT := latin1_runtime)
            (one_case (txt "C1") (txt "1995-01-01")) no_rows with
    | Ok idx => idx
    | Raise _ => empty_index
    end.

(** Two evolution cases of a frame whose id column holds no value at all:
    each row hands out a NaN object of its own. *)
Definition two_without_id : dataframe :=
  {| columns := case_columns;
     rows := [case_row (PyNaN 1) (txt "1995-01-01"); case_row (PyNaN 2) (txt "2001-12-20")] |}.

(** A frame whose rows have no id column. *)
Definition no_id_column : dataframe :=
  {| columns := tl case_columns; rows := [tl (case_row (PyNaN 1) (txt "1995-01-01"))] |}.

(** A retrieved match of the given id and legal area. *)
Definition match_in_area (case_id area : string) : scored_case :=
  {| sc_id := txt case_id;
     sc_type := "evolution_case";
     sc_score := 1;
     sc_content := py "fideicomiso";
     sc_metadata := [("legal_area", txt area); ("start_date", txt "1995-01-01");
                     ("success", txt "Exitoso"); ("type", txt "evolution_case")]%string |}.

(** * Vocabulary of the further properties *)

(** ** Tokens *)

(** The number of leading characters of [s] that are in the class. *)
Fixpoint run_length {RT : PyRuntime} (k : cclass) (s : str) : nat :=
  match s with
  | c :: t => if in_class k c then S (run_length k t) else 0
  | [] => 0
  end.

(** [w] is made of word characters only. *)
Definition word_chars {RT : PyRuntime} (w : str) : Prop :=
  Forall (fun c => is_word c = true) w.

(** ** Retrieval *)

(** The match [c] was made from an entry of the partition: it carries the
    entry's id, content and metadata, the partition's type tag and the score
    of the content. *)
Definition retrieved_from {RT : PyRuntime} (type : string) (keywords : list str)
    (partition : dict pyval entry) (c : scored_case) : Prop :=
  sc_type c = type /\
  sc_score c = _calculate_relevance_score (sc_content c) keywords /\
  exists e, In (sc_id c, e) partition /\ content e = sc_content c /\ metadata e = sc_metadata c.

(** ** The build as reading and storing

    One pass of a loop of the build first reads what it needs from the row,
    which may raise, and then updates the index, which may not. *)

(** What the loop over the evolution cases takes from a row. *)
Record case_reading := {
  cr_id : pyval;            (* case['case_id'] *)
  cr_entry : entry;         (* the entry stored under the id *)
  cr_keys : list str;       (* keyword.lower() for each keyword of name and notes *)
  cr_year : str;            (* str(case['fecha_inicio'])[:4] *)
  cr_area : pyval           (* case['area_derecho'] *)
}.

Local Open Scope res_scope.

Definition read_case {RT : PyRuntime} (case : series) : res case_reading :=
  case_id <- getitem case "case_id" ;;
  case_memory <- _build_case_memory case ;;
  area_derecho <- getitem case "area_derecho" ;;
  fecha_inicio <- getitem case "fecha_inicio" ;;
  exito <- getitem case "exito" ;;
  nombre_caso <- getitem case "nombre_caso" ;;
  text <- concat_name nombre_caso (py_str (get_default case "notas" (PyStr []))) ;;
  Ok {| cr_id := case_id;
        cr_entry :=
          {| content := case_memory;
             metadata := [("legal_area", area_derecho); ("start_date", fecha_inicio);
                          ("success", exito); ("type", PyStr (py "evolution_case"))]%string |};
        cr_keys := map str_lower (_extract_keywords text);
        cr_year := str_take 4 (py_str fecha_inicio);
        cr_area := area_derecho |}.

Definition store_case (idx : memory_index) (r : case_reading) : memory_index :=
  {| mi_evolution_cases := dict_set pyval_eqb (mi_evolution_cases idx) (cr_id r) (cr_entry r);
     mi_crisis_periods := mi_crisis_periods idx;
     mi_transplant_cases := mi_transplant_cases idx;
     mi_keywords :=
       fold_left (fun kw key => dd_append str_eqb kw key (cr_id r)) (cr_keys r) (mi_keywords idx);
     mi_temporal := dd_append str_eqb (mi_temporal idx) (cr_year r) (cr_id r);
     mi_legal_areas := dd_append pyval_eqb (mi_legal_areas idx) (cr_area r) (cr_id r) |}.

(** What the loop over the crisis periods takes from a row: the id and the
    entry stored under it. *)
Definition read_crisis (crisis : series) : res (pyval * entry) :=
  crisis_id <- getitem crisis "crisis_id" ;;
  crisis_memory <- _build_crisis_memory crisis ;;
  crisis_type <- getitem crisis "crisis_type" ;;
  severity_level <- getitem crisis "severity_level" ;;
  start_date <- getitem crisis "start_date" ;;
  Ok (crisis_id,
      {| content := crisis_memory;
         metadata := [("crisis_type", crisis_type); ("severity", severity_level);
                      ("start_date", start_date); ("type", PyStr (py "crisis_period"))]%string |}).

Definition store_crisis (idx : memory_index) (r : pyval * entry) : memory_index :=
  {| mi_evolution_cases := mi_evolution_cases idx;
     mi_crisis_periods := dict_set pyval_eqb (mi_crisis_periods idx) (fst r) (snd r);
     mi_transplant_cases := mi_transplant_cases idx;
     mi_keywords := mi_keywords idx;
     mi_temporal := mi_temporal idx;
     mi_legal_areas := mi_legal_areas idx |}.

(** Reading the rows in order: the first row that raises ends it. *)
Fixpoint read_all {A B : Type} (read : A -> res B) (l : list A) : res (list B) :=
  match l with
  | [] => Ok []
  | x :: t => r <- read x ;; rs <- read_all read t ;; Ok (r :: rs)
  end.

(** The ids listed under [key] by a sequence of appends, in their order. *)
Definition appended {K : Type} (eqb : K -> K -> bool) (key : K)
    (appends : list (K * pyval)) : list pyval :=
  map snd (filter (fun p => eqb (fst p) key) appends).

(** The appends the evolution loop makes to the keyword index. *)
Definition keyword_appends (readings : list case_reading) : list (str * pyval) :=
  flat_map (fun r => map (fun key => (key, cr_id r)) (cr_keys r)) readings.

(** A list without its repetitions, each element where it first stands. *)
Fixpoint first_occurrences (ids : list pyval) : list pyval :=
  match ids with
  | [] => []
  | x :: t => x :: filter (fun y => negb (pyval_eqb y x)) (first_occurrences t)
  end.

(** The contents of a [defaultdict(list)] key: absent when nothing was listed. *)
Definition listing (l : list pyval) : option (list pyval) :=
  match l with
  | [] => None
  | _ :: _ => Some l
  end.

(** A row the evolution loop can read: the fifteen cells are there and the
    name is a string. *)
Definition case_readable (row : series) : Prop :=
  (forall key, In key required_case_columns -> exists v, getitem row key = Ok v) /\
  exists s, getitem row "nombre_caso" = Ok (PyStr s).

(** A row the crisis loop can read: the thirteen cells are there. *)
Definition crisis_readable (row : series) : Prop :=
  forall key, In key required_crisis_columns -> exists v, getitem row key = Ok v.

(** ** Dates the insights can use *)

(** A start date the temporal insight cannot take: it counts as true and is
    not a string, so that [len] of it raises. *)
Definition unusable_date (d : pyval) : bool :=
  py_truthy d && match d with PyStr _ => false | _ => true end.

(** The start dates of the matches, as the insights read them. *)
Definition start_dates (cases : list scored_case) : list pyval :=
  map (fun c => get (sc_metadata c) "start_date") cases.





(** ** A second sample: three case rows, two of one id, and one crisis *)

Definition crisis_columns : list string :=
  ["crisis_id"; "crisis_name"; "start_date"; "end_date"; "crisis_type"; "severity_level";
   "legal_changes_count"; "emergency_decrees"; "new_laws"; "acceleration_factor";
   "economic_indicators"; "recovery_timeline_months"; "long_term_institutional_impact"]%string.

Definition crisis_row (crisis_id start_date : pyval) : list pyval :=
  [crisis_id; txt "Crisis financiera"; start_date; txt "2002-12-31"; txt "economica";
   txt "alta"; PyInt 40; PyInt 12; PyInt 9; PyInt 3; txt "default"; PyInt 24;
   txt "pesificacion"].

Definition three_cases : dataframe :=
  {| columns := case_columns;
     rows := [case_row (txt "C1") (txt "1995-01-01");
              case_row (txt "C2") (txt "2001-12-20");
              case_row (txt "C1") (txt "1995-06-30")] |}.

Definition one_crisis : dataframe :=
  {| columns := crisis_columns; rows := [crisis_row (txt "K1") (txt "2001-12-01")] |}.

Definition sample_archive : memory_index :=
  Eval vm_compute in
    match _build_memory_index (RT := latin1_runtime) three_cases one_crisis with
    | Ok idx => idx
    | Raise _ => empty_index
    end.

Definition cases_only : memory_index :=
  Eval vm_compute in
    match _build_memory_index (RT := latin1_runtime) three_cases no_rows with
    | Ok idx => idx
    | Raise _ => empty_index
    end.

(** * The instance and its other operations *)

(** ** Construction: [__init__] and [_load_legal_datasets]

    The frames of an instance are kept by attribute name, as [setattr] stores
    them. What [_load_config] returned is taken as given. *)

Definition attributes := dict string dataframe.

(** [pd.DataFrame()] *)
Definition empty_frame : dataframe := {| columns := []; rows := [] |}.

Definition dataset_paths : list (string * string) :=
  [("evolution_cases", "./evolution_cases.csv");
   ("velocity_metrics", "./velocity_metrics.csv");
   ("transplants_tracking", "./transplants_tracking.csv");
   ("crisis_periods", "./crisis_periods.csv");
   ("innovations_exported", "./innovations_exported.csv")]%string.

(** The attributes [__init__] assigns before it loads anything. *)
Definition initial_attributes : attributes :=
  [("evolution_cases", empty_frame); ("velocity_metrics", empty_frame);
   ("crisis_periods", empty_frame); ("transplant_cases", empty_frame);
   ("innovations_exported", empty_frame)]%string.

(** What [pd.read_csv] makes of a file that exists. *)
Inductive csv_reading :=
| CsvFrame (df : dataframe)
| CsvRaises (message : str).

(** The files: [None] where [os.path.exists] is false. *)
Definition filesystem := string -> option csv_reading.

(** What may come out of the constructor instead of an instance. *)
Inductive init_exn :=
| CsvError (path : string) (message : str)   (* re-raised by [_load_legal_datasets] *)
| BuildError (e : exn).                       (* raised by [_build_memory_index] *)

Inductive constructed (A : Type) :=
| Constructed (a : A)
| Fails (e : init_exn).
Arguments Constructed {A} a.
Arguments Fails {A} e.

(** The loop of [_load_legal_datasets]: [setattr(self, dataset_name, df)] for
    a file that exists, an empty frame for one that does not; an exception of
    the reader is re-raised. *)
Fixpoint load_each (fs : filesystem) (paths : list (string * string)) (attrs : attributes)
    : constructed attributes :=
  match paths with
  | [] => Constructed attrs
  | (dataset_name, path) :: rest =>
      match fs path with
      | Some (CsvFrame df) => load_each fs rest (dict_set String.eqb attrs dataset_name df)
      | Some (CsvRaises message) => Fails (CsvError path message)
      | None => load_each fs rest (dict_set String.eqb attrs dataset_name empty_frame)
      end
  end.

Definition _load_legal_datasets (fs : filesystem) (attrs : attributes) : constructed attributes :=
  load_each fs dataset_paths attrs.

(** [self.name] for a frame attribute (each one read below has been assigned). *)
Definition attribute (attrs : attributes) (name : string) : dataframe :=
  match dict_get String.eqb attrs name with
  | Some df => df
  | None => empty_frame
  end.

Record instance := {
  self_config : config;
  self_attributes : attributes;
  self_memory_index : memory_index
}.

Definition __init__ {RT : PyRuntime} (loaded_config : config) (fs : filesystem)
    : constructed instance :=
  match _load_legal_datasets fs initial_attributes with
  | Fails e => Fails e
  | Constructed attrs =>
      match _build_memory_index (attribute attrs "evolution_cases")
                                (attribute attrs "crisis_periods") with
      | Ok idx =>
          Constructed {| self_config := loaded_config;
                         self_attributes := attrs;
                         self_memory_index := idx |}
      | Raise e => Fails (BuildError e)
      end
  end.

(** A query put to an instance. *)
Definition instance_query {RT : PyRuntime} (self : instance) (now query : str)
    (context_type : option str) : query_result :=
  query_legal_evolution (self_config self) (self_memory_index self) now query context_type.

(** The frame the loop assigns for a path. *)
Definition loaded_frame (fs : filesystem) (path : string) : dataframe :=
  match fs path with
  | Some (CsvFrame df) => df
  | _ => empty_frame
  end.

(** The file at the path exists and the reader raises on it. *)
Definition unreadable (fs : filesystem) (path : string) : Prop :=
  exists message, fs path = Some (CsvRaises message).

(** No file at all, and one where only the transplants file exists. *)
Definition no_files : filesystem := fun _ => None.

Definition transplants_columns : list string :=
  ["transplant_id"; "origin_country"; "success_level"]%string.

Definition transplants_frame : dataframe :=
  {| columns := transplants_columns;
     rows := [[PyStr (py "T1"); PyStr (py "Francia"); PyStr (py "High")];
              [PyStr (py "T2"); PyStr (py "Italia"); PyStr (py "Low")]] |}.

Definition transplants_only : filesystem :=
  fun path => if String.eqb path "./transplants_tracking.csv"
              then Some (CsvFrame transplants_frame) else None.

(** The instances the constructor returns over them. *)
Definition no_files_instance : instance :=
  {| self_config := default_config;
     self_attributes :=
       [("evolution_cases", empty_frame); ("velocity_metrics", empty_frame);
        ("crisis_periods", empty_frame); ("transplant_cases", empty_frame);
        ("innovations_exported", empty_frame); ("transplants_tracking", empty_frame)]%string;
     self_memory_index := empty_index |}.

Definition transplants_instance : instance :=
  {| self_config := default_config;
     self_attributes :=
       [("evolution_cases", empty_frame); ("velocity_metrics", empty_frame);
        ("crisis_periods", empty_frame); ("transplant_cases", empty_frame);
        ("innovations_exported", empty_frame); ("transplants_tracking", transplants_frame)]%string;
     self_memory_index := empty_index |}.

(** ** Names of sources in a text *)

(** The five names [_extract_sources] looks for. *)
Definition source_names : list str :=
  map py ["InfoLeg"; "SAIJ"; "CSJN"; "BCRA"; "CNV"]%string.

(** [w] spells [name] up to case, as a literal under [re.IGNORECASE] takes it. *)
Definition spells {RT : PyRuntime} (name w : str) : Prop :=
  Forall2 (fun c x => ci_eq c x = true) name w.

(** * Properties *)

(** ** Strings *)

Lemma char_eqb_eq (a b : char) : char_eqb a b = true <-> a = b.
Proof. apply N.eqb_eq. Qed.

Lemma str_eqb_eq (a b : str) : str_eqb a b = true <-> a = b.
Proof.
  revert b; induction a as [|x a IH]; intros [|y b]; simpl; split; intro H;
    try reflexivity; try discriminate.
  - apply andb_true_iff in H as [Hx Ha].
    apply char_eqb_eq in Hx. apply IH in Ha. now subst.
  - injection H as -> ->. apply andb_true_iff; split.
    + now apply char_eqb_eq.
    + now apply IH.
Qed.

Lemma str_eqb_refl (a : str) : str_eqb a a = true.
Proof. now apply str_eqb_eq. Qed.

Lemma pyval_eqb_eq (a b : pyval) : pyval_eqb a b = true <-> a = b.
Proof.
  destruct a, b; simpl; split; intro H; try reflexivity; try discriminate.
  - apply N.eqb_eq in H. now subst.
  - injection H as ->. apply N.eqb_refl.
  - apply Z.eqb_eq in H. now subst.
  - injection H as ->. apply Z.eqb_refl.
  - apply str_eqb_eq in H. now subst.
  - injection H as ->. apply str_eqb_refl.
Qed.

Lemma pyval_eqb_refl (a : pyval) : pyval_eqb a a = true.
Proof. now apply pyval_eqb_eq. Qed.

Lemma str_prefix_spec (p s : str) :
  str_prefix p s = true <-> exists after, s = p ++ after.
Proof.
  revert s; induction p as [|x p IH]; intros s; simpl.
  - split; [intros _; now exists s | reflexivity].
  - destruct s as [|y s]; simpl.
    + split; [discriminate | intros [a Ha]; discriminate].
    + rewrite andb_true_iff, char_eqb_eq, IH. split.
      * intros [-> [a ->]]. now exists a.
      * intros [a Ha]. injection Ha as -> ->. split; [reflexivity | now exists a].
Qed.

Lemma str_in_spec (needle hay : str) :
  str_in needle hay = true <-> occurs_in needle hay.
Proof.
  induction hay as [|c hay IH].
  - simpl. rewrite orb_false_r, str_prefix_spec. split.
    + intros [a Ha]. now exists [], a.
    + intros [b [a Ha]]. destruct b; [now exists a | discriminate].
  - cbn [str_in]. rewrite orb_true_iff, str_prefix_spec, IH. split.
    + intros [[a Ha] | [b [a Ha]]].
      * now exists [], a.
      * exists (c :: b), a. simpl. now rewrite Ha.
    + intros [b [a Ha]]. destruct b as [|c' b].
      * left. now exists a.
      * right. injection Ha as _ Ha. now exists b, a.
Qed.

Lemma keywords_found_filter (hay : str) (ks : list str) :
  keywords_found hay ks (length (filter (fun k => str_in k hay) ks)).
Proof.
  induction ks as [|k ks IH]; simpl.
  - constructor.
  - destruct (str_in k hay) eqn:E; simpl.
    + apply found_hit; [now apply str_in_spec | exact IH].
    + apply found_miss; [|exact IH].
      intro H. apply str_in_spec in H. congruence.
Qed.

(** ** Rationals *)

Lemma ratio_bounds (m n : nat) :
  (m <= n)%nat -> (0 < n)%nat ->
  0 <= inject_Z (Z.of_nat m) / inject_Z (Z.of_nat n) <= 1.
Proof.
  intros Hmn Hn.
  assert (Hpos : 0 < inject_Z (Z.of_nat n)).
  { change 0 with (inject_Z 0). rewrite <- Zlt_Qlt. lia. }
  split.
  - apply Qle_shift_div_l; [exact Hpos|].
    rewrite Qmult_0_l. change 0 with (inject_Z 0). rewrite <- Zle_Qle. lia.
  - apply Qle_shift_div_r; [exact Hpos|].
    rewrite Qmult_1_l. rewrite <- Zle_Qle. lia.
Qed.

Section Scorer.
Context {RT : PyRuntime}.

(** C1. The relevance score lies in [0, 1]; it is 0 for an empty keyword list
    and otherwise the number of keywords that occur as a substring of the
    lowercased content, each counted once, over the number of keywords. *)
Theorem relevance_score_is_containment_ratio :
  forall (content : str) (keywords : list str),
    0 <= _calculate_relevance_score content keywords <= 1 /\
    (keywords = [] -> _calculate_relevance_score content keywords = 0) /\
    (keywords <> [] ->
     exists m : nat,
       keywords_found (str_lower content) keywords m /\
       _calculate_relevance_score content keywords
       == inject_Z (Z.of_nat m) / inject_Z (Z.of_nat (length keywords))).
Proof.
  intros content keywords. unfold _calculate_relevance_score.
  destruct keywords as [|k ks].
  - repeat split; try discriminate. intros H. now contradiction H.
  - set (kws := k :: ks).
    split; [|split].
    + apply ratio_bounds.
      * apply filter_length_le.
      * simpl. lia.
    + discriminate.
    + intros _. exists (length (filter (fun kw => str_in kw (str_lower content)) kws)).
      split; [apply keywords_found_filter | reflexivity].
Qed.

End Scorer.

Lemma keywords_found_unique (hay : str) (ks : list str) (m : nat) :
  keywords_found hay ks m -> m = length (filter (fun k => str_in k hay) ks).
Proof.
  induction 1 as [|k ks m Hk _ IH|k ks m Hk _ IH]; simpl.
  - reflexivity.
  - apply str_in_spec in Hk. rewrite Hk. simpl. now f_equal.
  - destruct (str_in k hay) eqn:E; [|exact IH].
    apply str_in_spec in E. contradiction.
Qed.

(** ** Ranking *)

Lemma Qpos_bool_spec (q : Q) : Qpos_bool q = true <-> 0 < q.
Proof.
  unfold Qpos_bool. rewrite negb_true_iff. split.
  - intro H. apply Qnot_le_lt. intro Hle. apply Qle_bool_iff in Hle. congruence.
  - intro H. destruct (Qle_bool q 0) eqn:E; [|reflexivity].
    apply Qle_bool_iff in E. exfalso. exact (Qlt_not_le _ _ H E).
Qed.

Lemma insert_desc_perm (x : scored_case) (l : list scored_case) :
  Permutation (x :: l) (insert_desc x l).
Proof.
  induction l as [|y t IH]; simpl.
  - apply Permutation_refl.
  - destruct (Qle_bool (sc_score y) (sc_score x)).
    + apply Permutation_refl.
    + eapply perm_trans; [apply perm_swap|]. now apply perm_skip.
Qed.

Lemma sort_desc_perm (l : list scored_case) : Permutation l (sort_desc l).
Proof.
  induction l as [|x l IH]; simpl.
  - apply perm_nil.
  - eapply perm_trans; [apply perm_skip, IH | apply insert_desc_perm].
Qed.

Lemma insert_desc_sorted (x : scored_case) (l : list scored_case) :
  StronglySorted ranks_before l -> StronglySorted ranks_before (insert_desc x l).
Proof.
  induction 1 as [|y t Ht IH Hy]; simpl.
  - repeat constructor.
  - destruct (Qle_bool (sc_score y) (sc_score x)) eqn:E.
    + apply Qle_bool_iff in E. constructor.
      * now constructor.
      * constructor; [exact E|].
        eapply Forall_impl; [|exact Hy].
        intros z Hz. unfold ranks_before in *. eapply Qle_trans; eassumption.
    + constructor; [exact IH|].
      eapply Permutation_Forall; [apply insert_desc_perm|].
      constructor; [|exact Hy].
      unfold ranks_before. apply Qlt_le_weak, Qnot_le_lt.
      intro Hle. apply Qle_bool_iff in Hle. congruence.
Qed.

Lemma sort_desc_sorted (l : list scored_case) : StronglySorted ranks_before (sort_desc l).
Proof.
  induction l as [|x l IH]; simpl; [constructor | now apply insert_desc_sorted].
Qed.

Lemma firstn_In {A : Type} (n : nat) (l : list A) (x : A) :
  In x (firstn n l) -> In x l.
Proof.
  intro H. rewrite <- (firstn_skipn n l). apply in_or_app. now left.
Qed.

Lemma firstn_sorted (n : nat) (l : list scored_case) :
  StronglySorted ranks_before l -> StronglySorted ranks_before (firstn n l).
Proof.
  intro H. revert n. induction H as [|y t Ht IH Hy]; intros [|n]; simpl;
    try constructor.
  - apply IH.
  - apply Forall_forall. intros z Hz. apply firstn_In in Hz.
    revert z Hz. now apply Forall_forall.
Qed.

(** The sort is stable: among the candidates of one score nothing moves. *)
Lemma with_score_insert_desc (q : Q) (x : scored_case) (l : list scored_case) :
  with_score q (insert_desc x l) = with_score q (x :: l).
Proof.
  induction l as [|y t IH]; [reflexivity|].
  cbn [insert_desc]. destruct (Qle_bool (sc_score y) (sc_score x)) eqn:E; [reflexivity|].
  unfold with_score in *. cbn [filter] in *. rewrite IH.
  destruct (Qeq_bool (sc_score y) q) eqn:Ey, (Qeq_bool (sc_score x) q) eqn:Ex; try reflexivity.
  exfalso. apply Qeq_bool_iff in Ey, Ex.
  assert (Hle : sc_score y <= sc_score x) by (rewrite Ey, Ex; apply Qle_refl).
  apply Qle_bool_iff in Hle. congruence.
Qed.

Lemma with_score_sort_desc (q : Q) (l : list scored_case) :
  with_score q (sort_desc l) = with_score q l.
Proof.
  induction l as [|x l IH]; [reflexivity|].
  cbn [sort_desc fold_right]. fold (sort_desc l).
  rewrite with_score_insert_desc. unfold with_score in *. cbn [filter]. now rewrite IH.
Qed.

Lemma slice_to_firstn {A : Type} (k : Z) (l : list A) :
  exists n, slice_to k l = firstn n l /\ ((0 <= k)%Z -> n = Z.to_nat k).
Proof.
  unfold slice_to. destruct (0 <=? k)%Z eqn:E.
  - exists (Z.to_nat k). now split.
  - exists (length l - Z.to_nat (- k))%nat. split; [reflexivity|].
    intro H. apply Z.leb_gt in E. lia.
Qed.

Section Retrieval.
Context {RT : PyRuntime}.

Lemma scan_partition_positive (type : string) (keywords : list str) (partition : dict pyval entry) :
  Forall positive (scan_partition type keywords partition).
Proof.
  unfold scan_partition. apply Forall_forall. intros c Hc.
  apply in_flat_map in Hc as [[case_id case_data] [_ Hc]].
  destruct (Qpos_bool _) eqn:E; [|contradiction].
  destruct Hc as [<-|[]]. now apply Qpos_bool_spec.
Qed.

Lemma scan_partition_ids (type : string) (keywords : list str) (partition : dict pyval entry) :
  map sc_id (scan_partition type keywords partition) = ids_above_zero keywords partition.
Proof.
  unfold scan_partition, ids_above_zero.
  induction partition as [|[case_id case_data] t IH]; [reflexivity|].
  cbn [flat_map filter snd]. rewrite map_app, IH.
  now destruct (Qpos_bool _).
Qed.

Lemma scan_partition_none (type : string) (keywords : list str) (partition : dict pyval entry) :
  (forall case_id case_data, In (case_id, case_data) partition ->
     ~ 0 < _calculate_relevance_score (content case_data) keywords) ->
  scan_partition type keywords partition = [].
Proof.
  intro H. unfold scan_partition.
  induction partition as [|[case_id case_data] t IH]; [reflexivity|].
  cbn [flat_map]. rewrite IH by (intros i d Hin; apply (H i d); now right).
  destruct (Qpos_bool _) eqn:E; [|reflexivity].
  apply Qpos_bool_spec in E. exfalso. exact (H case_id case_data (or_introl eq_refl) E).
Qed.

Lemma scan_memory_positive (idx : memory_index) (keywords : list str) (context_type : option str) :
  Forall positive (scan_memory idx keywords context_type).
Proof.
  unfold scan_memory. apply Forall_app. split.
  - destruct (context_selects _ _); [apply scan_partition_positive | constructor].
  - destruct (context_selects _ _); [apply scan_partition_positive | constructor].
Qed.

(** C2. Retrieval returns at most [retrieval_top_k] entries, each scoring
    above zero, in order of non-increasing score; entries of equal score stay
    in scan order, which is the insertion order of the partitions with the
    evolution cases before the crisis periods; and when nothing scores above
    zero the result is the empty list. *)
Theorem search_memory_ranked :
  forall (cfg : config) (idx : memory_index) (keywords : list str) (context_type : option str),
    (0 <= retrieval_top_k cfg)%Z ->
    let result := _search_memory cfg idx keywords context_type in
    let candidates := scan_memory idx keywords context_type in
    (Z.of_nat (length result) <= retrieval_top_k cfg)%Z /\
    Forall positive result /\
    StronglySorted ranks_before result /\
    (exists dropped, Permutation (result ++ dropped) candidates) /\
    (forall q, exists later, with_score q candidates = with_score q result ++ later) /\
    map sc_id candidates =
      (if context_selects context_type "evolution_cases"
       then ids_above_zero keywords (mi_evolution_cases idx) else [])
      ++ (if context_selects context_type "crisis_periods"
          then ids_above_zero keywords (mi_crisis_periods idx) else []) /\
    ((forall case_id case_data,
        In (case_id, case_data) (mi_evolution_cases idx ++ mi_crisis_periods idx) ->
        ~ 0 < _calculate_relevance_score (content case_data) keywords) ->
     result = []).
Proof.
  intros cfg idx keywords context_type Hk result candidates.
  subst result. unfold _search_memory. fold candidates.
  destruct (slice_to_firstn (retrieval_top_k cfg) (sort_desc candidates)) as [n [-> Hn]].
  specialize (Hn Hk). subst n.
  repeat apply conj.
  - pose proof (firstn_le_length (Z.to_nat (retrieval_top_k cfg)) (sort_desc candidates)). lia.
  - apply Forall_forall. intros c Hc. apply firstn_In in Hc.
    pose proof (scan_memory_positive idx keywords context_type) as Hp.
    rewrite Forall_forall in Hp. apply Hp.
    eapply Permutation_in; [apply Permutation_sym, sort_desc_perm | exact Hc].
  - apply firstn_sorted, sort_desc_sorted.
  - exists (skipn (Z.to_nat (retrieval_top_k cfg)) (sort_desc candidates)).
    rewrite firstn_skipn. apply Permutation_sym, sort_desc_perm.
  - intro q. exists (with_score q (skipn (Z.to_nat (retrieval_top_k cfg)) (sort_desc candidates))).
    unfold with_score. rewrite <- filter_app, firstn_skipn.
    symmetry. apply with_score_sort_desc.
  - subst candidates. unfold scan_memory. rewrite map_app.
    f_equal; destruct (context_selects _ _); try reflexivity; apply scan_partition_ids.
  - intro Hnone.
    assert (Hc : candidates = []).
    { subst candidates. unfold scan_memory.
      rewrite !scan_partition_none.
      - now destruct (context_selects _ _), (context_selects _ _).
      - intros i d Hin. apply (Hnone i d). apply in_or_app. now right.
      - intros i d Hin. apply (Hnone i d). apply in_or_app. now left. }
    rewrite Hc. simpl. apply firstn_nil.
Qed.

End Retrieval.

(** ** Confidence *)

Lemma py_min_Qmin (a b : Q) : py_min a b == Qmin a b.
Proof.
  unfold py_min. destruct (Qle_bool a b) eqn:E.
  - apply Qle_bool_iff in E. symmetry. now apply Q.min_l.
  - symmetry. apply Q.min_r. apply Qlt_le_weak, Qnot_le_lt.
    intro H. apply Qle_bool_iff in H. congruence.
Qed.

Lemma fold_left_scores (cases : list scored_case) (acc : Q) :
  fold_left (fun a case => a + sc_score case) cases acc
  == acc + fold_right Qplus 0 (map sc_score cases).
Proof.
  revert acc. induction cases as [|c cs IH]; intro acc; simpl.
  - lra.
  - rewrite IH. lra.
Qed.

Lemma sum_scores_fold_right (cases : list scored_case) :
  sum_scores cases == fold_right Qplus 0 (map sc_score cases).
Proof. unfold sum_scores. rewrite fold_left_scores. lra. Qed.

Lemma sum_scores_nonneg (cases : list scored_case) :
  Forall (fun c => 0 <= sc_score c) cases -> 0 <= fold_right Qplus 0 (map sc_score cases).
Proof.
  induction 1 as [|c cs Hc _ IH]; simpl; lra.
Qed.


Lemma confidence_formula (cases : list scored_case) (keywords : list str) :
  cases <> [] ->
  _calculate_confidence cases keywords
  == Qmin (0.6 + Qmin (inject_Z (Z.of_nat (length cases)) * 0.05) 0.3
           + average_score cases * 0.2 + 0.1) 1.
Proof.
  intro Hne. destruct cases as [|c cs]; [contradiction|].
  unfold _calculate_confidence. set (l := c :: cs).
  rewrite py_min_Qmin.
  assert (H1 : 1.0 == 1) by reflexivity. rewrite H1.
  apply Q.min_compat; [|reflexivity].
  rewrite py_min_Qmin. unfold average_score.
  rewrite (sum_scores_fold_right l). reflexivity.
Qed.





(** ** Dictionaries *)

Section DictFacts.
Variables (K V : Type) (eqb : K -> K -> bool).
Hypothesis eqb_spec : forall a b, eqb a b = true <-> a = b.

Lemma dict_get_set (d : dict K V) (k k0 : K) (v : V) :
  dict_get eqb (dict_set eqb d k v) k0 = if eqb k k0 then Some v else dict_get eqb d k0.
Proof.
  induction d as [|[k' v'] t IH]; simpl.
  - reflexivity.
  - destruct (eqb k' k) eqn:E; simpl.
    + apply eqb_spec in E. subst k'. now destruct (eqb k k0).
    + rewrite IH. destruct (eqb k' k0) eqn:E0; [|reflexivity].
      apply eqb_spec in E0. subst k0.
      destruct (eqb k k') eqn:E1; [|reflexivity].
      apply eqb_spec in E1. subst k'.
      assert (eqb k k = true) by now apply eqb_spec. congruence.
Qed.

Lemma dict_keys_set (d : dict K V) (k : K) (v : V) (x : K) :
  In x (dict_keys (dict_set eqb d k v)) <-> x = k \/ In x (dict_keys d).
Proof.
  unfold dict_keys. induction d as [|[k' v'] t IH]; simpl.
  - intuition.
  - destruct (eqb k' k) eqn:E; simpl.
    + apply eqb_spec in E. subst k'. intuition.
    + rewrite IH. intuition.
Qed.

Lemma dict_keys_set_nodup (d : dict K V) (k : K) (v : V) :
  NoDup (dict_keys d) -> NoDup (dict_keys (dict_set eqb d k v)).
Proof.
  unfold dict_keys. induction d as [|[k' v'] t IH]; simpl; intro H.
  - constructor; [intros [] | constructor].
  - inversion H as [|? ? Hnotin Ht]; subst.
    destruct (eqb k' k) eqn:E; simpl.
    + now constructor.
    + constructor; [|now apply IH].
      intro Hin. apply (dict_keys_set t k v k') in Hin as [->|Hin].
      * assert (eqb k k = true) by now apply eqb_spec. congruence.
      * contradiction.
Qed.

Lemma in_dict_set (d : dict K V) (k a : K) (v b : V) :
  In (a, b) (dict_set eqb d k v) -> b = v \/ In (a, b) d.
Proof.
  induction d as [|[k' v'] t IH]; simpl.
  - intros [H|[]]. left. congruence.
  - destruct (eqb k' k); simpl.
    + intros [H|H]; [left; congruence | now right; right].
    + intros [H|H]; [now right; left |].
      destruct (IH H); [now left | now right; right].
Qed.

Lemma dict_get_in (d : dict K V) (k : K) (v : V) :
  dict_get eqb d k = Some v -> In (k, v) d.
Proof.
  induction d as [|[k' v'] t IH]; simpl; [discriminate|].
  destruct (eqb k' k) eqn:E.
  - apply eqb_spec in E. subst k'. intros [= ->]. now left.
  - intro H. right. now apply IH.
Qed.

End DictFacts.

Section AppendFacts.
Variables (K : Type) (eqb : K -> K -> bool).
Hypothesis eqb_spec : forall a b, eqb a b = true <-> a = b.

Lemma listed_dd_append (d : dict K (list pyval)) (k : K) (x y : pyval) :
  listed (dd_append eqb d k x) y -> y = x \/ listed d y.
Proof.
  intros [k' [l [Hin Hy]]]. unfold dd_append in Hin.
  destruct (dict_get eqb d k) as [l0|] eqn:E.
  - apply in_dict_set in Hin as [->|Hin].
    + apply in_app_or in Hy as [Hy|[Hy|[]]]; [|now left].
      right. exists k, l0. split; [|exact Hy]. eapply dict_get_in; eassumption.
    + right. now exists k', l.
  - apply in_dict_set in Hin as [->|Hin].
    + destruct Hy as [Hy|[]]. now left.
    + right. now exists k', l.
Qed.

Lemma listed_under_dd_append_new (d : dict K (list pyval)) (k : K) (x : pyval) :
  listed_under eqb (dd_append eqb d k x) k x.
Proof.
  assert (Hk : eqb k k = true) by now apply eqb_spec.
  unfold listed_under, dd_append.
  destruct (dict_get eqb d k) as [l0|]; rewrite (@dict_get_set _ _ eqb eqb_spec), Hk.
  - exists (l0 ++ [x]). split; [reflexivity|]. apply in_or_app. right. now left.
  - exists [x]. split; [reflexivity | now left].
Qed.

Lemma listed_under_dd_append_old (d : dict K (list pyval)) (k k0 : K) (x y : pyval) :
  listed_under eqb d k0 y -> listed_under eqb (dd_append eqb d k x) k0 y.
Proof.
  intros [l [Hget Hy]]. unfold listed_under, dd_append.
  destruct (dict_get eqb d k) as [l0|] eqn:E; rewrite (@dict_get_set _ _ eqb eqb_spec);
    destruct (eqb k k0) eqn:Ek; try (exists l; now split).
  - apply eqb_spec in Ek. subst k0. rewrite E in Hget. injection Hget as ->.
    exists (l ++ [x]). split; [reflexivity|]. apply in_or_app. now left.
  - apply eqb_spec in Ek. subst k0. congruence.
Qed.

End AppendFacts.

(** ** The loop of the index build *)

Lemma bind_ok {A B : Type} (m : res A) (f : A -> res B) (b : B) :
  bind m f = Ok b -> exists a, m = Ok a /\ f a = Ok b.
Proof. destruct m as [a|e]; simpl; [now exists a | discriminate]. Qed.

Lemma for_each_invariant {A S : Type} (body : S -> A -> res S) (P : S -> Prop) (l : list A) :
  (forall s x s', In x l -> body s x = Ok s' -> P s -> P s') ->
  forall s s', for_each body l s = Ok s' -> P s -> P s'.
Proof.
  induction l as [|x t IH]; simpl; intros Hstep s s' H Hs.
  - now injection H as <-.
  - apply bind_ok in H as [s1 [H1 H2]].
    apply (IH (fun s0 y s0' Hy => Hstep s0 y s0' (or_intror Hy)) s1 s' H2).
    exact (Hstep s x s1 (or_introl eq_refl) H1 Hs).
Qed.

Lemma for_each_every {A S : Type} (body : S -> A -> res S) (Q : A -> S -> Prop) :
  (forall s x s', body s x = Ok s' -> Q x s') ->
  (forall s x s' y, body s x = Ok s' -> Q y s -> Q y s') ->
  forall l s s', for_each body l s = Ok s' -> forall x, In x l -> Q x s'.
Proof.
  intros Hnew Hold l. induction l as [|x t IH]; simpl; intros s s' H y Hy; [contradiction|].
  apply bind_ok in H as [s1 [H1 H2]]. destruct Hy as [<-|Hy].
  - assert (Hq : Q x s1) by (eapply Hnew; eassumption).
    revert Hq. apply (for_each_invariant body (Q x) t); [|exact H2].
    intros s0 z s0' _ Hb. eapply Hold; eassumption.
  - eapply IH; eassumption.
Qed.

Ltac bind_inv H :=
  let v := fresh "v" in
  let E := fresh "E" in
  apply bind_ok in H as [v [E H]]; cbv beta zeta in H.

Section Build.
Context {RT : PyRuntime}.

Lemma index_case_inv (idx idx' : memory_index) (case : series) :
  index_case idx case = Ok idx' ->
  exists case_id fecha area e kws,
    getitem case "case_id" = Ok case_id /\
    getitem case "fecha_inicio" = Ok fecha /\
    getitem case "area_derecho" = Ok area /\
    mi_evolution_cases idx' = dict_set pyval_eqb (mi_evolution_cases idx) case_id e /\
    mi_keywords idx'
      = fold_left (fun kw keyword => dd_append str_eqb kw (str_lower keyword) case_id)
                  kws (mi_keywords idx) /\
    mi_temporal idx' = dd_append str_eqb (mi_temporal idx) (str_take 4 (py_str fecha)) case_id /\
    mi_legal_areas idx' = dd_append pyval_eqb (mi_legal_areas idx) area case_id /\
    mi_crisis_periods idx' = mi_crisis_periods idx.
Proof.
  unfold index_case. intro H.
  bind_inv H. bind_inv H. bind_inv H. bind_inv H. bind_inv H.
  bind_inv H. bind_inv H. bind_inv H. bind_inv H.
  injection H as <-. cbn.
  match goal with
  | Ea : getitem case "area_derecho" = Ok ?a, Ea' : getitem case "area_derecho" = Ok ?a',
    Ef : getitem case "fecha_inicio" = Ok ?f, Ef' : getitem case "fecha_inicio" = Ok ?f' |- _ =>
      assert (a' = a) by congruence; assert (f' = f) by congruence; subst a' f'
  end.
  repeat eexists; eassumption.
Qed.

Lemma index_crisis_inv (idx idx' : memory_index) (crisis : series) :
  index_crisis idx crisis = Ok idx' ->
  exists crisis_id e,
    getitem crisis "crisis_id" = Ok crisis_id /\
    mi_crisis_periods idx' = dict_set pyval_eqb (mi_crisis_periods idx) crisis_id e /\
    mi_evolution_cases idx' = mi_evolution_cases idx /\
    mi_keywords idx' = mi_keywords idx /\
    mi_temporal idx' = mi_temporal idx /\
    mi_legal_areas idx' = mi_legal_areas idx.
Proof.
  unfold index_crisis. intro H.
  bind_inv H. bind_inv H. bind_inv H. bind_inv H. bind_inv H.
  injection H as <-. cbn. repeat eexists; eassumption.
Qed.

Lemma build_inv (evolution_cases crisis_periods : dataframe) (idx : memory_index) :
  _build_memory_index evolution_cases crisis_periods = Ok idx ->
  exists idx1,
    for_each index_case (processed_rows evolution_cases) empty_index = Ok idx1 /\
    for_each index_crisis (processed_rows crisis_periods) idx1 = Ok idx.
Proof.
  unfold _build_memory_index, processed_rows. intro H.
  apply bind_ok in H as [idx1 [H1 H2]]. exists idx1. split.
  - destruct (df_empty evolution_cases); exact H1.
  - destruct (df_empty crisis_periods); exact H2.
Qed.

Lemma listed_fold_append (f : str -> str) (x y : pyval) (kws : list str)
    (d : dict str (list pyval)) :
  listed (fold_left (fun kw keyword => dd_append str_eqb kw (f keyword) x) kws d) y ->
  y = x \/ listed d y.
Proof.
  revert d. induction kws as [|k kws IH]; simpl; intros d H; [now right|].
  apply IH in H as [H|H]; [now left|].
  now apply (listed_dd_append _ str_eqb_eq) in H.
Qed.

Lemma index_case_integrity (idx idx' : memory_index) (case : series) :
  index_case idx case = Ok idx' -> referential_integrity idx -> referential_integrity idx'.
Proof.
  intros H Hinv.
  apply index_case_inv in H
    as (case_id & fecha & area & e & kws & _ & _ & _ & Hev & Hkw & Htm & Har & _).
  intros y Hy. rewrite Hev. apply (dict_keys_set _ pyval_eqb_eq).
  assert (Hcase : y = case_id \/
                  (listed (mi_keywords idx) y \/ listed (mi_temporal idx) y
                   \/ listed (mi_legal_areas idx) y)).
  { destruct Hy as [Hy|[Hy|Hy]].
    - rewrite Hkw in Hy. apply listed_fold_append in Hy. tauto.
    - rewrite Htm in Hy. apply (listed_dd_append _ str_eqb_eq) in Hy. tauto.
    - rewrite Har in Hy. apply (listed_dd_append _ pyval_eqb_eq) in Hy. tauto. }
  destruct Hcase as [->|Hold]; [now left | right; now apply Hinv].
Qed.

Lemma index_crisis_integrity (idx idx' : memory_index) (crisis : series) :
  index_crisis idx crisis = Ok idx' -> referential_integrity idx -> referential_integrity idx'.
Proof.
  intros H Hinv.
  apply index_crisis_inv in H as (crisis_id & e & _ & _ & Hev & Hkw & Htm & Har).
  unfold referential_integrity. rewrite Hev, Hkw, Htm, Har. exact Hinv.
Qed.

Lemma empty_index_integrity : referential_integrity empty_index.
Proof.
  intros y [H|[H|H]]; destruct H as [k [l [[] _]]].
Qed.

(** C6. After the index is built, every id in the keyword index, the temporal
    index or the legal-area index is a key of the by-id store. *)
Theorem secondary_indexes_refer_to_stored_cases :
  forall (evolution_cases crisis_periods : dataframe) (idx : memory_index),
    _build_memory_index evolution_cases crisis_periods = Ok idx ->
    referential_integrity idx.
Proof.
  intros ev cr idx H.
  apply build_inv in H as [idx1 [H1 H2]].
  eapply (for_each_invariant index_crisis referential_integrity); [|exact H2|].
  { intros s x s' _ Hb. exact (index_crisis_integrity _ Hb). }
  eapply (for_each_invariant index_case referential_integrity); [|exact H1|].
  { intros s x s' _ Hb. exact (index_case_integrity _ Hb). }
  exact empty_index_integrity.
Qed.

(** *** The build returns on well-formed frames *)

Lemma getitem_combine (cols : list string) (r : list pyval) (key : string) :
  In key cols -> (length cols <= length r)%nat ->
  exists v, getitem (combine cols r) key = Ok v.
Proof.
  unfold getitem. revert r. induction cols as [|c cols IH]; intros r Hin Hlen; [contradiction|].
  destruct r as [|v r]; [simpl in Hlen; lia|]. simpl.
  destruct (String.eqb c key) eqn:E; [now exists v|].
  destruct Hin as [->|Hin]; [rewrite String.eqb_refl in E; discriminate|].
  apply IH; [exact Hin | simpl in Hlen; lia].
Qed.

Lemma well_formed_rows (required : list string) (df : dataframe) (row : series) (key : string) :
  well_formed required df -> In row (iterrows df) -> In key required ->
  exists v, getitem row key = Ok v.
Proof.
  intros [Hcols Hrows] Hrow Hkey. unfold iterrows in Hrow.
  apply in_map_iff in Hrow as [r [<- Hr]].
  rewrite Forall_forall in Hrows.
  apply getitem_combine; [now apply Hcols | now apply Hrows].
Qed.

Ltac read_cell Hget :=
  match goal with
  | |- context [getitem ?row ?key] =>
      let v := fresh "v" in
      let E := fresh "E" in
      destruct (Hget key) as [v E]; [simpl; tauto | rewrite E; cbn [bind]]
  end.

Lemma index_case_returns (idx : memory_index) (row : series) :
  (forall key, In key required_case_columns -> exists v, getitem row key = Ok v) ->
  (exists s, getitem row "nombre_caso" = Ok (PyStr s)) ->
  exists idx', index_case idx row = Ok idx'.
Proof.
  intros Hget [s Hname]. unfold index_case, _build_case_memory.
  rewrite !Hname. cbn [bind concat_name].
  repeat read_cell Hget. eexists. reflexivity.
Qed.

Lemma index_crisis_returns (idx : memory_index) (row : series) :
  (forall key, In key required_crisis_columns -> exists v, getitem row key = Ok v) ->
  exists idx', index_crisis idx row = Ok idx'.
Proof.
  intros Hget. unfold index_crisis, _build_crisis_memory.
  repeat read_cell Hget. eexists. reflexivity.
Qed.

Lemma for_each_returns {A S : Type} (body : S -> A -> res S) (l : list A) :
  (forall s x, In x l -> exists s', body s x = Ok s') ->
  forall s, exists s', for_each body l s = Ok s'.
Proof.
  induction l as [|x t IH]; intros Hbody s; simpl; [now exists s|].
  destruct (Hbody s x (or_introl eq_refl)) as [s1 ->]. simpl.
  apply IH. intros s0 y Hy. apply Hbody. now right.
Qed.

Lemma processed_rows_in (df : dataframe) (row : series) :
  In row (processed_rows df) -> In row (iterrows df).
Proof. unfold processed_rows. now destruct (df_empty df). Qed.

(** On well-formed frames the build returns an index. *)
Lemma build_returns (evolution_cases crisis_periods : dataframe) :
  well_formed required_case_columns evolution_cases ->
  names_are_text evolution_cases ->
  well_formed required_crisis_columns crisis_periods ->
  exists idx, _build_memory_index evolution_cases crisis_periods = Ok idx.
Proof.
  intros Hev Hnames Hcr.
  assert (H1 : exists idx1,
             for_each index_case (processed_rows evolution_cases) empty_index = Ok idx1).
  { apply for_each_returns. intros s row Hrow. apply processed_rows_in in Hrow.
    apply index_case_returns; [|now apply Hnames].
    intros key Hkey. exact (@well_formed_rows _ _ row key Hev Hrow Hkey). }
  destruct H1 as [idx1 H1].
  assert (H2 : exists idx,
             for_each index_crisis (processed_rows crisis_periods) idx1 = Ok idx).
  { apply for_each_returns. intros s row Hrow. apply processed_rows_in in Hrow.
    apply index_crisis_returns. intros key Hkey.
    exact (@well_formed_rows _ _ row key Hcr Hrow Hkey). }
  destruct H2 as [idx H2]. exists idx.
  unfold _build_memory_index, processed_rows in *.
  destruct (df_empty evolution_cases).
  - simpl in H1. injection H1 as <-. simpl.
    destruct (df_empty crisis_periods); exact H2.
  - rewrite H1. simpl. destruct (df_empty crisis_periods); exact H2.
Qed.

(** *** Nothing is skipped *)

Lemma index_case_new (idx idx' : memory_index) (row : series) :
  index_case idx row = Ok idx' -> indexed_case row idx'.
Proof.
  intro H. apply index_case_inv in H
    as (case_id & fecha & area & e & kws & Hid & Hf & Ha & Hev & _ & Htm & Har & _).
  exists case_id, fecha, area. rewrite Hev, Htm, Har. repeat split; try assumption.
  - apply (dict_keys_set _ pyval_eqb_eq). now left.
  - apply (listed_under_dd_append_new _ str_eqb_eq).
  - apply (listed_under_dd_append_new _ pyval_eqb_eq).
Qed.

Lemma index_case_old (idx idx' : memory_index) (row other : series) :
  index_case idx row = Ok idx' -> indexed_case other idx -> indexed_case other idx'.
Proof.
  intros H (i & f & a & Hi & Hf & Ha & Hkey & Hyear & Harea).
  apply index_case_inv in H
    as (case_id & fecha & area & e & kws & _ & _ & _ & Hev & _ & Htm & Har & _).
  exists i, f, a. rewrite Hev, Htm, Har. repeat split; try assumption.
  - apply (dict_keys_set _ pyval_eqb_eq). now right.
  - now apply (listed_under_dd_append_old str_eqb_eq).
  - now apply (listed_under_dd_append_old pyval_eqb_eq).
Qed.

Lemma index_crisis_keeps_case (idx idx' : memory_index) (crisis other : series) :
  index_crisis idx crisis = Ok idx' -> indexed_case other idx -> indexed_case other idx'.
Proof.
  intros H Hother.
  apply index_crisis_inv in H as (crisis_id & e & _ & _ & Hev & _ & Htm & Har).
  unfold indexed_case. rewrite Hev, Htm, Har. exact Hother.
Qed.

Lemma index_crisis_new (idx idx' : memory_index) (row : series) :
  index_crisis idx row = Ok idx' -> indexed_crisis row idx'.
Proof.
  intro H. apply index_crisis_inv in H as (crisis_id & e & Hid & Hcr & _).
  exists crisis_id. rewrite Hcr. split; [assumption|].
  apply (dict_keys_set _ pyval_eqb_eq). now left.
Qed.

Lemma index_crisis_old (idx idx' : memory_index) (row other : series) :
  index_crisis idx row = Ok idx' -> indexed_crisis other idx -> indexed_crisis other idx'.
Proof.
  intros H (i & Hi & Hkey).
  apply index_crisis_inv in H as (crisis_id & e & _ & Hcr & _).
  exists i. rewrite Hcr. split; [assumption|].
  apply (dict_keys_set _ pyval_eqb_eq). now right.
Qed.

Lemma build_indexes_cases (evolution_cases crisis_periods : dataframe) (idx : memory_index) :
  _build_memory_index evolution_cases crisis_periods = Ok idx ->
  forall row, In row (processed_rows evolution_cases) -> indexed_case row idx.
Proof.
  intros H row Hrow. apply build_inv in H as [idx1 [H1 H2]].
  eapply (for_each_invariant index_crisis (indexed_case row)); [|exact H2|].
  { intros s x s' _ Hb. exact (index_crisis_keeps_case _ Hb). }
  exact (for_each_every index_case indexed_case
           (fun s x s' => @index_case_new s s' x)
           (fun s x s' y => @index_case_old s s' x y) _ _ H1 row Hrow).
Qed.

Lemma build_indexes_crises (evolution_cases crisis_periods : dataframe) (idx : memory_index) :
  _build_memory_index evolution_cases crisis_periods = Ok idx ->
  forall row, In row (processed_rows crisis_periods) -> indexed_crisis row idx.
Proof.
  intros H row Hrow. apply build_inv in H as [idx1 [H1 H2]].
  exact (for_each_every index_crisis indexed_crisis
           (fun s x s' => @index_crisis_new s s' x)
           (fun s x s' y => @index_crisis_old s s' x y) _ _ H2 row Hrow).
Qed.

Lemma build_keys_are_ids (evolution_cases crisis_periods : dataframe) (idx : memory_index) :
  _build_memory_index evolution_cases crisis_periods = Ok idx ->
  keys_are_ids (processed_rows evolution_cases) idx.
Proof.
  intro H. apply build_inv in H as [idx1 [H1 H2]].
  eapply (for_each_invariant index_crisis (keys_are_ids (processed_rows evolution_cases)));
    [|exact H2|].
  { intros s x s' _ Hb Hs.
    apply index_crisis_inv in Hb as (crisis_id & e & _ & _ & Hev & _).
    unfold keys_are_ids. rewrite Hev. exact Hs. }
  eapply (for_each_invariant index_case (keys_are_ids (processed_rows evolution_cases)));
    [|exact H1|].
  - intros s x s' Hx Hb [Hnodup Hkeys].
    apply index_case_inv in Hb as (case_id & fecha & area & e & kws & Hid & _ & _ & Hev & _).
    unfold keys_are_ids. rewrite Hev. split.
    + now apply (dict_keys_set_nodup _ pyval_eqb_eq).
    + intros v Hv. apply (dict_keys_set _ pyval_eqb_eq) in Hv as [->|Hv].
      * now exists x.
      * now apply Hkeys.
  - split; [constructor | intros v []].
Qed.

Lemma dict_get_combine_absent (cols : list string) (r : list pyval) (key : string) :
  ~ In key cols -> dict_get String.eqb (combine cols r) key = None.
Proof.
  revert r. induction cols as [|c cols IH]; intros r Hnot; [reflexivity|].
  destruct r as [|v r]; [reflexivity|]. simpl.
  destruct (String.eqb c key) eqn:E.
  - apply String.eqb_eq in E. exfalso. apply Hnot. now left.
  - apply IH. intro Hin. apply Hnot. now right.
Qed.

(** The build has no skip: every row of a frame is indexed, a missing-value
    marker in the id cell being a key like any other; and a frame without the
    id column makes the build raise [KeyError] instead of returning an index. *)
Lemma every_row_is_indexed :
  forall (evolution_cases crisis_periods : dataframe),
    (forall idx,
       _build_memory_index evolution_cases crisis_periods = Ok idx ->
       (forall row, In row (processed_rows evolution_cases) -> indexed_case row idx) /\
       (forall row, In row (processed_rows crisis_periods) -> indexed_crisis row idx) /\
       keys_are_ids (processed_rows evolution_cases) idx) /\
    (df_empty evolution_cases = false -> ~ In "case_id"%string (columns evolution_cases) ->
     _build_memory_index evolution_cases crisis_periods = Raise (KeyError "case_id")).
Proof.
  intros ev cr. split.
  - intros idx H. repeat split.
    + now apply (build_indexes_cases _ _ H).
    + now apply (build_indexes_crises _ _ H).
    + apply (build_keys_are_ids _ _ H).
    + apply (build_keys_are_ids _ _ H).
  - intros Hne Hcol. unfold _build_memory_index. rewrite Hne.
    unfold df_empty in Hne. unfold iterrows.
    destruct (columns ev) as [|c cols] eqn:Ec; [discriminate|].
    destruct (rows ev) as [|r rs]; [discriminate|].
    cbn [map for_each]. unfold index_case at 1. unfold getitem at 1.
    now rewrite (@dict_get_combine_absent _ r _ Hcol).
Qed.

Lemma getitem_cases (row : series) (key : string) :
  (exists v, getitem row key = Ok v) \/ getitem row key = Raise (KeyError key).
Proof.
  unfold getitem. destruct (dict_get String.eqb row key) as [v|]; [left; now exists v | now right].
Qed.

Lemma index_case_without_start_date (idx : memory_index) (row : series) :
  getitem row "fecha_inicio" = Raise (KeyError "fecha_inicio") ->
  exists key, index_case idx row = Raise (KeyError key).
Proof.
  intro Hf. unfold index_case, _build_case_memory.
  destruct (getitem_cases row "case_id") as [[v1 ->]| ->]; [|now eexists].
  destruct (getitem_cases row "nombre_caso") as [[v2 ->]| ->]; [|now eexists].
  destruct (getitem_cases row "area_derecho") as [[v3 ->]| ->]; [|now eexists].
  rewrite Hf. now eexists.
Qed.

(** The year key of an evolution row is the first four characters of the
    string form of its start-date cell, or all of them when there are fewer,
    and the row's id is always listed under it. A frame without the start-date
    column makes the build raise [KeyError]. *)
Lemma every_start_date_is_listed :
  forall (evolution_cases crisis_periods : dataframe),
    (forall idx,
       _build_memory_index evolution_cases crisis_periods = Ok idx ->
       forall row, In row (processed_rows evolution_cases) ->
         exists case_id fecha,
           getitem row "case_id" = Ok case_id /\
           getitem row "fecha_inicio" = Ok fecha /\
           listed_under str_eqb (mi_temporal idx) (str_take 4 (py_str fecha)) case_id /\
           length (str_take 4 (py_str fecha)) = Nat.min 4 (length (py_str fecha))) /\
    (df_empty evolution_cases = false -> ~ In "fecha_inicio"%string (columns evolution_cases) ->
     exists key, _build_memory_index evolution_cases crisis_periods = Raise (KeyError key)).
Proof.
  intros ev cr. split.
  - intros idx H row Hrow.
    destruct (build_indexes_cases _ _ H row Hrow)
      as (case_id & fecha & area & Hid & Hf & _ & _ & Hyear & _).
    exists case_id, fecha. repeat split; try assumption.
    unfold str_take. apply length_firstn.
  - intros Hne Hcol. unfold _build_memory_index. rewrite Hne.
    unfold df_empty in Hne. unfold iterrows.
    destruct (columns ev) as [|c cols] eqn:Ec; [discriminate|].
    destruct (rows ev) as [|r rs]; [discriminate|].
    cbn [map for_each].
    destruct (@index_case_without_start_date empty_index (combine (c :: cols) r))
      as [key Hkey].
    + unfold getitem. now rewrite (@dict_get_combine_absent _ r _ Hcol).
    + exists key. now rewrite Hkey.
Qed.

End Build.

(** ** Years in the response *)

Section Analysis.
Context {RT : PyRuntime}.

(** A match of the years pattern reports its group, which spans the two
    characters "19" or "20" at the start of the match. *)
Lemma years_pattern_match (prev : option char) (s : str) (pos e : nat) (g : option (nat * nat)) :
  rmatch false years_pattern prev s pos None (fun _ _ e' g' => Some (e', g')) = Some (e, g) ->
  g = Some (pos, S (S pos)) /\ century_prefix (firstn 2 s).
Proof.
  unfold years_pattern. cbn [rmatch].
  destruct (at_boundary prev s); [|discriminate].
  destruct s as [|x [|y rest]]; cbn [rmatch]; try discriminate.
  - unfold lit_eq. destruct (char_eqb digit_1 x), (char_eqb digit_2 x); discriminate.
  - unfold lit_eq.
    destruct (char_eqb digit_1 x) eqn:E1.
    + apply char_eqb_eq in E1. subst x.
      destruct (char_eqb digit_9 y) eqn:E9.
      * apply char_eqb_eq in E9. subst y.
        destruct rest as [|d1 [|d2 rest]]; cbn; try discriminate.
        { destruct (is_digit d1); discriminate. }
        destruct (is_digit d1); [|discriminate].
        destruct (is_digit d2); [|discriminate].
        destruct (at_boundary (Some d2) rest); [|discriminate].
        intros [= <- <-]. split; [reflexivity | now left].
      * discriminate.
    + destruct (char_eqb digit_2 x) eqn:E2; [|discriminate].
      apply char_eqb_eq in E2. subst x.
      destruct (char_eqb digit_0 y) eqn:E0; [|discriminate].
      apply char_eqb_eq in E0. subst y.
      destruct rest as [|d1 [|d2 rest]]; cbn; try discriminate.
      { destruct (is_digit d1); discriminate. }
      destruct (is_digit d1); [|discriminate].
      destruct (is_digit d2); [|discriminate].
      destruct (at_boundary (Some d2) rest); [|discriminate].
      intros [= <- <-]. split; [reflexivity | now right].
Qed.

Lemma skipn_cons_tail {A : Type} (full : list A) (pos : nat) (c : A) (t : list A) :
  c :: t = skipn pos full -> t = skipn (S pos) full.
Proof.
  revert full. induction pos as [|pos IH]; intros full H.
  - simpl in H. now subst full.
  - destruct full as [|a full]; [discriminate|]. simpl in H. simpl. now apply IH.
Qed.

Lemma findall_years_from (full : str) (s : str) :
  forall (prev : option char) (pos skip : nat),
    s = skipn pos full ->
    Forall century_prefix (findall_from false years_pattern full prev s pos skip).
Proof.
  induction s as [|c t IH]; intros prev pos skip Hs; cbn [findall_from]; [constructor|].
  pose proof (skipn_cons_tail _ _ Hs) as Ht.
  destruct skip as [|k]; [|now apply IH].
  destruct (rmatch false years_pattern prev (c :: t) pos None _) as [[e g]|] eqn:E;
    [|now apply IH].
  constructor; [|now apply IH].
  apply years_pattern_match in E as [-> Hprefix].
  unfold match_text. cbn [has_group years_pattern orb]. unfold str_slice.
  replace (S (S pos) - pos)%nat with 2%nat by lia.
  now rewrite <- Hs.
Qed.

Lemma findall_years (response : str) :
  Forall century_prefix (re_findall false years_pattern response).
Proof. unfold re_findall. now apply findall_years_from. Qed.

Lemma temporal_patterns_century_prefixes (cfg : config) (response query : str) :
  Forall century_prefix (temporal_patterns (_analyze_response cfg response query)).
Proof.
  unfold _analyze_response. cbn [temporal_patterns].
  apply Forall_forall. intros y Hy. apply (proj1 (set_iter_str_in _ _)) in Hy.
  pose proof (findall_years response) as H. rewrite Forall_forall in H. now apply H.
Qed.

End Analysis.

(** ** The dominant category *)

(** [max_by] returns the first element of the iteration whose key is maximal. *)
Lemma max_by_first {A : Type} (key : A -> nat) (rest : list A) :
  forall best,
  exists earlier later,
    best :: rest = earlier ++ max_by key best rest :: later /\
    Forall (fun x => key x < key (max_by key best rest))%nat earlier /\
    Forall (fun x => key x <= key (max_by key best rest))%nat later.
Proof.
  induction rest as [|x t IH]; intro best; cbn [max_by].
  - exists [], []. repeat split; constructor.
  - destruct (key best <? key x)%nat eqn:E.
    + apply Nat.ltb_lt in E.
      destruct (IH x) as (pre & post & Heq & Hpre & Hpost).
      exists (best :: pre), post. repeat split; [now rewrite Heq | | exact Hpost].
      constructor; [|exact Hpre].
      destruct pre as [|p pre].
      * injection Heq as Hx _. rewrite <- Hx. exact E.
      * injection Heq as Hx _. subst p. inversion Hpre; subst. lia.
    + apply Nat.ltb_ge in E.
      destruct (IH best) as (pre & post & Heq & Hpre & Hpost).
      destruct pre as [|p pre].
      * injection Heq as Hb Ht.
        exists [], (x :: post). repeat split.
        -- simpl. f_equal; [exact Hb | f_equal; exact Ht].
        -- constructor.
        -- constructor; [rewrite <- Hb; exact E | exact Hpost].
      * injection Heq as Hb Ht. subst p.
        exists (best :: x :: pre), post. repeat split.
        -- simpl. do 2 f_equal. exact Ht.
        -- inversion Hpre; subst. constructor; [assumption|]. constructor; [lia | assumption].
        -- exact Hpost.
Qed.

Section Insights.
Context {RT : PyRuntime}.

Lemma set_iter_val_single (a : pyval) : set_iter_val [a; a] = [a].
Proof.
  pose proof (set_iter_val_nodup [a; a]) as Hnd.
  pose proof (set_iter_val_in [a; a]) as Hin.
  destruct (set_iter_val [a; a]) as [|x l].
  - exfalso. apply (Hin a). now left.
  - assert (x = a).
    { destruct (proj1 (Hin x) (or_introl eq_refl)) as [H|[H|[]]]; now symmetry. }
    subst x. destruct l as [|y l]; [reflexivity|].
    assert (y = a).
    { destruct (proj1 (Hin y) (or_intror (or_introl eq_refl))) as [H|[H|[]]]; now symmetry. }
    subst y. inversion Hnd as [|? ? Hnot _]; subst. exfalso. apply Hnot. now left.
Qed.

(** C8, as the code has it. When some match carries a category that counts as
    true, the dominant category is one with the highest count among the
    matches; among several of the highest count it is the one the iteration of
    the set of categories meets first, which need not be the first in the list
    of matches. Two matches of one category give that category. *)
Theorem dominant_category_has_highest_count :
  forall (cases : list scored_case),
    truthy_field "legal_area" cases <> [] ->
    let areas := truthy_field "legal_area" cases in
    (exists dominant earlier later,
       most_common_area areas = Some dominant /\
       In dominant areas /\
       (forall a, In a areas -> (count areas a <= count areas dominant)%nat) /\
       set_iter_val areas = earlier ++ dominant :: later /\
       (forall a, In a earlier -> (count areas a < count areas dominant)%nat)) /\
    (forall c1 c2 a,
       cases = [c1; c2] ->
       get (sc_metadata c1) "legal_area" = a -> get (sc_metadata c2) "legal_area" = a ->
       most_common_area areas = Some a).
Proof.
  intros cases Hne areas. split.
  - change (areas <> []) in Hne. clearbody areas. unfold most_common_area.
    destruct (set_iter_val areas) as [|a rest] eqn:Eset.
    + exfalso. destruct areas as [|x l]; [now apply Hne|].
      assert (Hx : In x (set_iter_val (x :: l))) by (apply set_iter_val_in; now left).
      rewrite Eset in Hx. contradiction.
    + destruct (max_by_first (count areas) rest a) as (pre & post & Heq & Hpre & Hpost).
      set (m := max_by (count areas) a rest) in *.
      assert (Hm : In m (a :: rest)) by (rewrite Heq; apply in_or_app; right; now left).
      exists m, pre, post. repeat split.
      * apply set_iter_val_in. now rewrite Eset.
      * intros b Hb. apply set_iter_val_in in Hb. rewrite Eset, Heq in Hb.
        rewrite Forall_forall in Hpre, Hpost.
        apply in_app_or in Hb as [Hb|[<-|Hb]];
          [apply Nat.lt_le_incl; now apply Hpre | apply Nat.le_refl | now apply Hpost].
      * exact Heq.
      * rewrite Forall_forall in Hpre. exact Hpre.
  - intros c1 c2 a -> H1 H2. subst areas.
    unfold truthy_field in *. cbn [map filter] in *. rewrite H1, H2 in *.
    destruct (py_truthy a); [|now contradiction Hne].
    unfold most_common_area. now rewrite set_iter_val_single.
Qed.

End Insights.

(** ** The query boundary *)

Section Query.
Context {RT : PyRuntime}.



(** The pipeline raises exactly when composing the response does. *)
Lemma query_pipeline_raises (cfg : config) (idx : memory_index) (now query : str)
    (context_type : option str) (e : exn) :
  query_pipeline cfg idx now query context_type = Raise e <->
  _generate_response query
    (_search_memory cfg idx (_extract_keywords query) context_type) = Raise e.
Proof.
  unfold query_pipeline. destruct (_generate_response _ _); simpl; split; congruence.
Qed.

(** C4. A query never raises: whatever exception the body of the [try]
    raises, the caller gets a dictionary with the keys [query], [error] and
    [timestamp], carrying the same query and the message of the exception;
    when nothing is raised the caller gets the full result. *)
Theorem query_never_raises :
  forall (cfg : config) (idx : memory_index) (now query : str) (context_type : option str),
    let outcome := query_legal_evolution cfg idx now query context_type in
    (forall e,
       query_pipeline cfg idx now query context_type = Raise e ->
       outcome = QueryError query (exn_str e) now /\
       result_keys outcome = ["query"; "error"; "timestamp"]%string) /\
    (forall r,
       query_pipeline cfg idx now query context_type = Ok r ->
       outcome = QueryResult r /\ r_query r = query /\ r_timestamp r = now) /\
    ((exists r, outcome = QueryResult r) \/
     (exists error, outcome = QueryError query error now)).
Proof.
  intros cfg idx now query context_type outcome. subst outcome.
  unfold query_legal_evolution.
  destruct (query_pipeline cfg idx now query context_type) as [r|e] eqn:E.
  - repeat split; try discriminate.
    + now injection H as <-.
    + injection H as <-. unfold query_pipeline in E.
      destruct (_generate_response _ _); [|discriminate]. now injection E as <-.
    + injection H as <-. unfold query_pipeline in E.
      destruct (_generate_response _ _); [|discriminate]. now injection E as <-.
    + left. now exists r.
  - repeat split; try discriminate.
    + now injection H as <-.
    + right. now exists (exn_str e).
Qed.


End Query.

(** * Concrete runs *)

Lemma sample_index_built :
  _build_memory_index (RT := latin1_runtime) (one_case (txt "C1") (txt "1995-01-01")) no_rows
  = Ok sample_index.
Proof. vm_compute. reflexivity. Qed.

(** The scenario of the specification: the query "fideicomiso" retrieves the
    case; its confidence is 0.95 in exact arithmetic. *)
Example scenario_fideicomiso :
  exists r,
    query_legal_evolution (RT := latin1_runtime) default_config sample_index
      (py "2024-09-01T12:00:00") (py "fideicomiso") None = QueryResult r /\
    r_relevant_cases r = [txt "C1"] /\
    r_confidence r == 0.95.
Proof. eexists. split; [vm_compute; reflexivity|]. split; reflexivity. Qed.

(** A start date that is not a string reaches [len] in the insights and the
    query answers with the error dictionary. *)
Example query_error_on_missing_start_date :
  forall idx,
    _build_memory_index (RT := latin1_runtime) (one_case (txt "C1") (PyNaN 1)) no_rows = Ok idx ->
    query_legal_evolution (RT := latin1_runtime) default_config idx
      (py "2024-09-01T12:00:00") (py "fideicomiso") None
    = QueryError (py "fideicomiso") (message (TypeError_len (PyNaN 1))) (py "2024-09-01T12:00:00").
Proof. intros idx H. vm_compute in H. injection H as <-. vm_compute. reflexivity. Qed.

(** ** Where the code departs from the specification *)

(** C5, counterexample. Two rows whose id cell holds the missing-value marker
    are both indexed, each under its own marker: the by-id store counts 2,
    the raw count, where skipping them would leave 0, and both ids are listed
    in the year index. A frame without the id column makes the build raise.
    In neither case is a row skipped. *)
Lemma build_keeps_record_without_id :
  ~ skips_records_without_id (RT := latin1_runtime) two_without_id no_rows /\
  (exists idx,
     _build_memory_index (RT := latin1_runtime) two_without_id no_rows = Ok idx /\
     dict_keys (mi_evolution_cases idx) = [PyNaN 1; PyNaN 2] /\
     length (mi_evolution_cases idx) = length (processed_rows two_without_id) /\
     dict_get str_eqb (mi_temporal idx) (py "1995") = Some [PyNaN 1] /\
     dict_get str_eqb (mi_temporal idx) (py "2001") = Some [PyNaN 2]) /\
  ~ skips_records_without_id (RT := latin1_runtime) no_id_column no_rows.
Proof.
  split; [|split].
  - intros (idx & Hb & _ & Hcount). vm_compute in Hb. injection Hb as <-.
    vm_compute in Hcount. discriminate.
  - eexists. split; [vm_compute; reflexivity|]. repeat split.
  - intros (idx & Hb & _). vm_compute in Hb. discriminate.
Qed.

(** C9, counterexample. A missing start date is listed under the key "nan"
    and a two-character one under those two characters. *)
Lemma temporal_index_keeps_short_start_dates :
  ~ skips_short_start_dates (RT := latin1_runtime) (one_case (txt "C1") (PyNaN 1)) no_rows /\
  ~ skips_short_start_dates (RT := latin1_runtime) (one_case (txt "C1") (txt "95")) no_rows.
Proof.
  split.
  - intros (idx & Hb & H). vm_compute in Hb. injection Hb as <-.
    specialize (H (combine case_columns (case_row (txt "C1") (PyNaN 1))) (txt "C1") (PyNaN 1)).
    apply H; try reflexivity.
    + now left.
    + exists (py "nan"), [txt "C1"]. split; now left.
  - intros (idx & Hb & H). vm_compute in Hb. injection Hb as <-.
    specialize (H (combine case_columns (case_row (txt "C1") (txt "95"))) (txt "C1") (txt "95")).
    apply H; try reflexivity.
    + now left.
    + exists (py "95"), [txt "C1"]. split; now left.
Qed.

(** C8, counterexample. With one match in "civil" followed by one in "penal"
    the counts tie; the list meets "civil" first, yet where the set is
    iterated "penal" first the dominant category is "penal". *)
Lemma dominant_category_follows_set_order :
  let areas := truthy_field "legal_area" [match_in_area "C1" "civil"; match_in_area "C2" "penal"] in
  first_encountered_dominant areas = Some (txt "civil") /\
  most_common_area (RT := reversed_sets_runtime) areas = Some (txt "penal") /\
  most_common_area (RT := reversed_sets_runtime) areas <> first_encountered_dominant areas.
Proof.
  repeat split; try (vm_compute; reflexivity). vm_compute. discriminate.
Qed.

Example insights_follow_set_order :
  _generate_insights (RT := reversed_sets_runtime)
    [match_in_area "C1" "civil"; match_in_area "C2" "penal"]
  = Ok (py "- Área legal más relevante: penal" ++ nl
        ++ py "- Tasa de éxito en casos relevantes: 100.0%" ++ nl
        ++ py "- Período temporal: 1995-1995" ++ nl).
Proof. vm_compute. reflexivity. Qed.

(** C7. The temporal patterns never hold a year: the pattern's group makes
    [re.findall] return the two-character prefix of each match, so every
    element is "19" or "20". On the scenario the response names 1995 and the
    temporal patterns are ["19"]. *)
Theorem temporal_patterns_hold_century_prefixes :
  (forall (RT : PyRuntime) (cfg : config) (response query : str),
     Forall century_prefix (temporal_patterns (_analyze_response cfg response query))) /\
  (exists r,
     query_legal_evolution (RT := latin1_runtime) default_config sample_index
       (py "2024-09-01T12:00:00") (py "fideicomiso") None = QueryResult r /\
     str_in (py "Inicio: 1995-01-01") (r_response r) = true /\
     temporal_patterns (r_analysis r) = [py "19"]).
Proof.
  split.
  - intros RT cfg response query. apply temporal_patterns_century_prefixes.
  - eexists. split; [vm_compute; reflexivity|]. split; vm_compute; reflexivity.
Qed.

(** ** The theorems at concrete inputs *)

Lemma search_memory_ranked_witness :
  (0 <= retrieval_top_k default_config)%Z /\
  let result :=
    _search_memory (RT := latin1_runtime) default_config sample_index [py "fideicomiso"] None in
  (Z.of_nat (length result) <= retrieval_top_k default_config)%Z /\
  Forall positive result /\
  StronglySorted ranks_before result.
Proof.
  assert (H : (0 <= retrieval_top_k default_config)%Z) by (cbn; lia).
  split; [exact H|].
  destruct (search_memory_ranked (RT := latin1_runtime) default_config sample_index
              [py "fideicomiso"] None H) as (H1 & H2 & H3 & _).
  exact (conj H1 (conj H2 H3)).
Defined.


Lemma secondary_indexes_refer_to_stored_cases_witness :
  _build_memory_index (RT := latin1_runtime) (one_case (txt "C1") (txt "1995-01-01")) no_rows
  = Ok sample_index /\
  referential_integrity sample_index.
Proof.
  split; [exact sample_index_built|].
  exact (secondary_indexes_refer_to_stored_cases (RT := latin1_runtime) _ _ sample_index_built).
Defined.

Lemma dominant_category_has_highest_count_witness :
  truthy_field "legal_area" [match_in_area "C1" "civil"; match_in_area "C2" "civil"] <> [] /\
  most_common_area (RT := latin1_runtime)
    (truthy_field "legal_area" [match_in_area "C1" "civil"; match_in_area "C2" "civil"])
  = Some (txt "civil").
Proof.
  assert (H : truthy_field "legal_area" [match_in_area "C1" "civil"; match_in_area "C2" "civil"]
              <> []) by discriminate.
  split; [exact H|].
  destruct (@dominant_category_has_highest_count latin1_runtime _ H) as [_ Hsame].
  exact (Hsame _ _ (txt "civil") eq_refl eq_refl eq_refl).
Defined.


(** * Further properties of the code *)

(** ** The tokenizer and the scorer *)

Section Tokens.
Context {RT : PyRuntime}.

Lemma str_slice_occurs (full : str) (a b : nat) : occurs_in (str_slice full a b) full.
Proof.
  unfold str_slice, occurs_in.
  exists (firstn a full), (skipn (b - a) (skipn a full)).
  now rewrite firstn_skipn, firstn_skipn.
Qed.

Lemma match_text_occurs (r : regex) (full : str) (pos e : nat) (g : option (nat * nat)) :
  occurs_in (match_text r full pos e g) full.
Proof.
  unfold match_text. destruct (has_group r); [|apply str_slice_occurs].
  destruct g as [[a b]|]; [apply str_slice_occurs|].
  exists [], full. reflexivity.
Qed.

(** Whatever the pattern, [re.findall] reports pieces of the text. *)
Lemma findall_from_occurs (ic : bool) (r : regex) (full : str) (s : str) :
  forall (prev : option char) (pos skip : nat),
    Forall (fun m => occurs_in m full) (findall_from ic r full prev s pos skip).
Proof.
  induction s as [|c t IH]; intros prev pos skip; cbn [findall_from]; [constructor|].
  destruct skip as [|k]; [|apply IH].
  destruct (rmatch ic r prev (c :: t) pos None _) as [[e g]|]; [|apply IH].
  constructor; [apply match_text_occurs | apply IH].
Qed.

Lemma re_findall_occurs (ic : bool) (r : regex) (text : str) :
  Forall (fun m => occurs_in m text) (re_findall ic r text).
Proof. apply findall_from_occurs. Qed.

Lemma rstar_final (k : cclass) (s : str) :
  forall (prev : option char) (pos : nat) (g : option (nat * nat)),
    rstar k prev s pos g (fun _ _ e g' => Some (e, g')) = Some (pos + run_length k s, g)%nat.
Proof.
  induction s as [|c t IH]; intros prev pos g; cbn [rstar run_length].
  - now rewrite Nat.add_0_r.
  - destruct (in_class k c).
    + rewrite IH. now rewrite Nat.add_succ_r.
    + now rewrite Nat.add_0_r.
Qed.

Lemma run_length_word (s : str) : word_chars (firstn (run_length CWord s) s).
Proof.
  unfold word_chars. induction s as [|c t IH]; cbn [run_length]; [constructor|].
  destruct (in_class CWord c) eqn:E; [|constructor].
  cbn [firstn]. constructor; [exact E | exact IH].
Qed.

(** The tokens of [\w+] are non-empty runs of word characters. *)
Lemma findall_words_from (full : str) (s : str) :
  forall (prev : option char) (pos skip : nat),
    s = skipn pos full ->
    Forall (fun w => w <> [] /\ word_chars w)
           (findall_from false (RPlus CWord) full prev s pos skip).
Proof.
  induction s as [|c t IH]; intros prev pos skip Hs; cbn [findall_from]; [constructor|].
  pose proof (skipn_cons_tail _ _ Hs) as Ht.
  destruct skip as [|k]; [|now apply IH].
  cbn [rmatch]. destruct (in_class CWord c) eqn:E; [|now apply IH].
  rewrite rstar_final. constructor; [|now apply IH].
  unfold match_text. cbn [has_group]. unfold str_slice. rewrite <- Hs.
  replace (S pos + run_length CWord t - pos)%nat with (S (run_length CWord t)) by lia.
  cbn [firstn]. split; [discriminate|].
  constructor; [exact E | apply run_length_word].
Qed.

Lemma str_mem_spec (w : str) (l : list str) : str_mem w l = true <-> In w l.
Proof.
  unfold str_mem. rewrite existsb_exists. split.
  - intros [x [Hx Heq]]. apply str_eqb_eq in Heq. now subst.
  - intro H. exists w. split; [exact H | apply str_eqb_refl].
Qed.

Lemma extract_keywords_facts (text : str) :
  Forall (fun keyword =>
            (3 < length keyword)%nat /\
            word_chars keyword /\
            ~ In keyword stopwords /\
            occurs_in keyword (str_lower text))
         (_extract_keywords text).
Proof.
  unfold _extract_keywords. apply Forall_forall. intros w Hw.
  apply (proj1 (set_iter_str_in _ _)) in Hw.
  apply filter_In in Hw as [Hw Hkeep].
  apply andb_true_iff in Hkeep as [Hlen Hstop].
  apply Nat.ltb_lt in Hlen. apply negb_true_iff in Hstop.
  pose proof (@findall_words_from (str_lower text) (str_lower text) None 0 0 eq_refl) as Hruns.
  pose proof (re_findall_occurs false (RPlus CWord) (str_lower text)) as Hocc.
  rewrite Forall_forall in Hruns, Hocc.
  repeat split.
  - exact Hlen.
  - now apply Hruns.
  - intro Hin. apply str_mem_spec in Hin. congruence.
  - now apply Hocc.
Qed.

(** X1. Every keyword extracted from a text is a run of word characters, has
    more than three characters, is no stop word, and occurs in the lowercased
    text. *)
Theorem keywords_are_long_words_of_the_text :
  forall (text : str),
    Forall (fun keyword =>
              (3 < length keyword)%nat /\
              word_chars keyword /\
              ~ In keyword stopwords /\
              occurs_in keyword (str_lower text))
           (_extract_keywords text).
Proof. exact extract_keywords_facts. Qed.

Lemma ratio_one (n : nat) :
  (0 < n)%nat -> inject_Z (Z.of_nat n) / inject_Z (Z.of_nat n) == 1.
Proof.
  intro Hn. apply Qmult_inv_r. intro H.
  assert (Hz : inject_Z (Z.of_nat n) == inject_Z 0) by exact H.
  apply (proj1 (inject_Z_injective _ _)) in Hz. lia.
Qed.

Lemma ratio_zero_iff (m n : nat) :
  (0 < n)%nat -> (inject_Z (Z.of_nat m) / inject_Z (Z.of_nat n) == 0 <-> m = 0%nat).
Proof.
  intro Hn.
  assert (Hpos : 0 < inject_Z (Z.of_nat n)).
  { change 0 with (inject_Z 0). rewrite <- Zlt_Qlt. lia. }
  split.
  - intro H. destruct m as [|m]; [reflexivity|]. exfalso.
    assert (Hm : 0 < inject_Z (Z.of_nat (S m)) / inject_Z (Z.of_nat n)).
    { apply Qlt_shift_div_l; [exact Hpos|]. rewrite Qmult_0_l.
      change 0 with (inject_Z 0). rewrite <- Zlt_Qlt. lia. }
    rewrite H in Hm. now apply Qlt_irrefl in Hm.
  - intros ->. unfold Qdiv. now rewrite Qmult_0_l.
Qed.

Lemma ratio_one_iff (m n : nat) :
  (0 < n)%nat -> (m <= n)%nat ->
  (inject_Z (Z.of_nat m) / inject_Z (Z.of_nat n) == 1 <-> m = n).
Proof.
  intros Hn Hmn.
  assert (Hne : ~ inject_Z (Z.of_nat n) == 0).
  { intro H. assert (Hz : inject_Z (Z.of_nat n) == inject_Z 0) by exact H.
    apply (proj1 (inject_Z_injective _ _)) in Hz. lia. }
  split.
  - intro H.
    assert (Heq : inject_Z (Z.of_nat m) == inject_Z (Z.of_nat n)).
    { rewrite <- (Qmult_1_l (inject_Z (Z.of_nat n))), <- H.
      unfold Qdiv. rewrite <- Qmult_assoc, (Qmult_comm (/ _)), Qmult_inv_r by exact Hne.
      now rewrite Qmult_1_r. }
    apply (proj1 (inject_Z_injective _ _)) in Heq. lia.
  - intros ->. now apply ratio_one.
Qed.

Lemma filter_none {A : Type} (f : A -> bool) (l : list A) :
  length (filter f l) = 0%nat <-> Forall (fun x => f x = false) l.
Proof.
  induction l as [|x l IH]; simpl.
  - split; [constructor | reflexivity].
  - destruct (f x) eqn:E; simpl.
    + split; [discriminate | intro H; inversion H; congruence].
    + rewrite IH. split; [now constructor | intro H; now inversion H].
Qed.

Lemma filter_all {A : Type} (f : A -> bool) (l : list A) :
  length (filter f l) = length l <-> Forall (fun x => f x = true) l.
Proof.
  induction l as [|x l IH]; simpl.
  - split; [constructor | reflexivity].
  - pose proof (filter_length_le f l) as Hle.
    destruct (f x) eqn:E; simpl.
    + split.
      * intro H. constructor; [exact E | apply IH; lia].
      * intro H. inversion H; subst. f_equal. now apply IH.
    + split; [lia | intro H; inversion H; congruence].
Qed.

Lemma score_zero_or_one (content : str) (keyword : str) (keywords : list str) :
  let all := keyword :: keywords in
  (_calculate_relevance_score content all == 0 <->
   Forall (fun k => ~ occurs_in k (str_lower content)) all) /\
  (_calculate_relevance_score content all == 1 <->
   Forall (fun k => occurs_in k (str_lower content)) all).
Proof.
  intros all. subst all.
  unfold _calculate_relevance_score. cbv beta iota zeta.
  set (all := keyword :: keywords).
  assert (Hn : (0 < length all)%nat) by (simpl; lia).
  split.
  - rewrite (ratio_zero_iff _ Hn), filter_none.
    split; intro H; eapply Forall_impl; try exact H; intros k Hk; cbv beta in *.
    + intro Hocc. apply str_in_spec in Hocc. congruence.
    + destruct (str_in k (str_lower content)) eqn:E; [|reflexivity].
      apply str_in_spec in E. contradiction.
  - rewrite (ratio_one_iff Hn (filter_length_le _ all)), filter_all.
    split; intro H; eapply Forall_impl; try exact H; intros k Hk; cbv beta in *;
      now apply str_in_spec.
Qed.

(** X2. For a non-empty keyword list the score is 0 exactly when no keyword
    occurs in the lowercased content and 1 exactly when every keyword does. *)
Theorem relevance_score_extremes :
  forall (content : str) (keyword : str) (keywords : list str),
    let all := keyword :: keywords in
    (_calculate_relevance_score content all == 0 <->
     Forall (fun k => ~ occurs_in k (str_lower content)) all) /\
    (_calculate_relevance_score content all == 1 <->
     Forall (fun k => occurs_in k (str_lower content)) all).
Proof. exact score_zero_or_one. Qed.

(** X3. A text scores 1 against the keywords extracted from it, unless it has
    none. *)
Theorem text_matches_its_own_keywords :
  forall (text : str),
    _extract_keywords text = [] \/
    _calculate_relevance_score text (_extract_keywords text) == 1.
Proof.
  intro text.
  pose proof (extract_keywords_facts text) as Hk.
  destruct (_extract_keywords text) as [|k ks] eqn:E; [now left | right].
  apply (score_zero_or_one text k ks).
  eapply Forall_impl; [|exact Hk]. intros w Hw. apply Hw.
Qed.

End Tokens.

(** ** Retrieval *)

Section MoreRetrieval.
Context {RT : PyRuntime}.

Lemma scan_partition_from (type : string) (keywords : list str) (partition : dict pyval entry) :
  Forall (retrieved_from type keywords partition) (scan_partition type keywords partition).
Proof.
  unfold scan_partition. apply Forall_forall. intros c Hc.
  apply in_flat_map in Hc as [[case_id case_data] [Hin Hc]].
  destruct (Qpos_bool _); [|contradiction].
  destruct Hc as [<-|[]]. unfold retrieved_from. cbn.
  repeat split. exists case_data. now repeat split.
Qed.

Lemma search_memory_incl (cfg : config) (idx : memory_index) (keywords : list str)
    (context_type : option str) (c : scored_case) :
  In c (_search_memory cfg idx keywords context_type) ->
  In c (scan_memory idx keywords context_type).
Proof.
  unfold _search_memory. intro H.
  destruct (slice_to_firstn (retrieval_top_k cfg)
              (sort_desc (scan_memory idx keywords context_type))) as [n [Hn _]].
  rewrite Hn in H. apply firstn_In in H.
  eapply Permutation_in; [apply Permutation_sym, sort_desc_perm | exact H].
Qed.

(** X4. Every retrieved match is made from an entry of a partition the type
    filter selects: it has that entry's id, content and metadata, the type tag
    of the partition, and as score the relevance of the content. *)
Theorem retrieved_matches_come_from_the_store :
  forall (cfg : config) (idx : memory_index) (keywords : list str) (context_type : option str),
    Forall (fun c =>
              (context_selects context_type "evolution_cases" = true /\
               retrieved_from "evolution_case" keywords (mi_evolution_cases idx) c) \/
              (context_selects context_type "crisis_periods" = true /\
               retrieved_from "crisis_period" keywords (mi_crisis_periods idx) c))
           (_search_memory cfg idx keywords context_type).
Proof.
  intros cfg idx keywords context_type. apply Forall_forall. intros c Hc.
  apply search_memory_incl in Hc. unfold scan_memory in Hc.
  apply in_app_or in Hc as [Hc|Hc].
  - left. destruct (context_selects context_type "evolution_cases"); [|contradiction].
    split; [reflexivity|].
    pose proof (scan_partition_from "evolution_case" keywords (mi_evolution_cases idx)) as H.
    rewrite Forall_forall in H. now apply H.
  - right. destruct (context_selects context_type "crisis_periods"); [|contradiction].
    split; [reflexivity|].
    pose proof (scan_partition_from "crisis_period" keywords (mi_crisis_periods idx)) as H.
    rewrite Forall_forall in H. now apply H.
Qed.

(** X5. The number of results is the number of candidates cut by the slice:
    for a top_k that is not negative the smaller of the two, for a negative
    top_k the candidates less the last |top_k| of the ranking; and when the
    candidates do not exceed top_k the result is the whole ranking. *)
Theorem search_result_count :
  forall (cfg : config) (idx : memory_index) (keywords : list str) (context_type : option str),
    let candidates := scan_memory idx keywords context_type in
    let result := _search_memory cfg idx keywords context_type in
    let top_k := retrieval_top_k cfg in
    length result
    = (if (0 <=? top_k)%Z then Nat.min (Z.to_nat top_k) (length candidates)
       else length candidates - Z.to_nat (- top_k))%nat /\
    ((Z.of_nat (length candidates) <= top_k)%Z ->
     result = sort_desc candidates /\ Permutation result candidates).
Proof.
  intros cfg idx keywords context_type candidates result top_k.
  subst result. unfold _search_memory. fold candidates. fold top_k.
  assert (Hlen : length (sort_desc candidates) = length candidates).
  { apply Permutation_length, Permutation_sym, sort_desc_perm. }
  split.
  - unfold slice_to. destruct (0 <=? top_k)%Z.
    + now rewrite length_firstn, Hlen.
    + rewrite length_firstn, Hlen. lia.
  - intro Hk. unfold slice_to.
    assert (H0 : (0 <=? top_k)%Z = true) by (apply Z.leb_le; lia).
    rewrite H0. rewrite firstn_all2 by (rewrite Hlen; lia).
    split; [reflexivity | apply Permutation_sym, sort_desc_perm].
Qed.



End MoreRetrieval.


(** ** The build as reading and storing *)

Section Readings.
Context {RT : PyRuntime}.

Lemma fold_left_map_keys {A B S : Type} (f : S -> B -> S) (g : A -> B) (l : list A) (s : S) :
  fold_left f (map g l) s = fold_left (fun acc x => f acc (g x)) l s.
Proof. revert s. induction l as [|x l IH]; intro s; simpl; [reflexivity | apply IH]. Qed.

Lemma index_case_reads (idx : memory_index) (case : series) :
  index_case idx case = bind (read_case case) (fun r => Ok (store_case idx r)).
Proof.
  unfold index_case, read_case.
  destruct (getitem case "case_id") as [case_id|e]; [|reflexivity]. cbn [bind].
  destruct (_build_case_memory case) as [case_memory|e]; [|reflexivity]. cbn [bind].
  destruct (getitem case "area_derecho") as [area|e]; [|reflexivity]. cbn [bind].
  destruct (getitem case "fecha_inicio") as [fecha|e]; [|reflexivity]. cbn [bind].
  destruct (getitem case "exito") as [exito|e]; [|reflexivity]. cbn [bind].
  destruct (getitem case "nombre_caso") as [nombre|e]; [|reflexivity]. cbn [bind].
  destruct (concat_name nombre _) as [text|e]; [|reflexivity]. cbn [bind].
  unfold store_case. cbn. now rewrite fold_left_map_keys.
Qed.

Lemma index_crisis_reads (idx : memory_index) (crisis : series) :
  index_crisis idx crisis = bind (read_crisis crisis) (fun r => Ok (store_crisis idx r)).
Proof.
  unfold index_crisis, read_crisis.
  destruct (getitem crisis "crisis_id") as [crisis_id|e]; [|reflexivity]. cbn [bind].
  destruct (_build_crisis_memory crisis) as [crisis_memory|e]; [|reflexivity]. cbn [bind].
  destruct (getitem crisis "crisis_type") as [crisis_type|e]; [|reflexivity]. cbn [bind].
  destruct (getitem crisis "severity_level") as [severity|e]; [|reflexivity]. cbn [bind].
  destruct (getitem crisis "start_date") as [start_date|e]; reflexivity.
Qed.

Lemma for_each_reads {A B S : Type} (body : S -> A -> res S) (read : A -> res B)
    (store : S -> B -> S) :
  (forall s x, body s x = bind (read x) (fun r => Ok (store s r))) ->
  forall l s,
    for_each body l s = bind (read_all read l) (fun rs => Ok (fold_left store rs s)).
Proof.
  intros Hbody l. induction l as [|x t IH]; intro s; [reflexivity|].
  cbn [for_each read_all]. rewrite Hbody.
  destruct (read x) as [r|e]; [|reflexivity]. cbn [bind]. rewrite IH.
  destruct (read_all read t) as [rs|e]; reflexivity.
Qed.

(** The build reads the evolution rows, then the crisis rows, and stores what
    it read; the first row that cannot be read decides the exception. *)
Lemma build_reads_then_stores (evolution_cases crisis_periods : dataframe) :
  _build_memory_index evolution_cases crisis_periods
  = bind (read_all read_case (processed_rows evolution_cases)) (fun cases =>
    bind (read_all read_crisis (processed_rows crisis_periods)) (fun crises =>
    Ok (fold_left store_crisis crises (fold_left store_case cases empty_index)))).
Proof.
  unfold _build_memory_index, processed_rows.
  assert (H1 : (if df_empty evolution_cases then Ok empty_index
                else for_each index_case (iterrows evolution_cases) empty_index)
               = for_each index_case (if df_empty evolution_cases then []
                                      else iterrows evolution_cases) empty_index).
  { now destruct (df_empty evolution_cases). }
  rewrite H1. rewrite (for_each_reads index_case read_case store_case index_case_reads).
  destruct (read_all read_case _) as [cases|e]; [|reflexivity]. cbn [bind].
  set (idx1 := fold_left store_case cases empty_index).
  assert (H2 : (if df_empty crisis_periods then Ok idx1
                else for_each index_crisis (iterrows crisis_periods) idx1)
               = for_each index_crisis (if df_empty crisis_periods then []
                                        else iterrows crisis_periods) idx1).
  { now destruct (df_empty crisis_periods). }
  rewrite H2. now rewrite (for_each_reads index_crisis read_crisis store_crisis index_crisis_reads).
Qed.

Lemma read_all_ok {A B : Type} (read : A -> res B) (l : list A) (rs : list B) :
  read_all read l = Ok rs <-> Forall2 (fun x r => read x = Ok r) l rs.
Proof.
  revert rs. induction l as [|x t IH]; intro rs; cbn [read_all].
  - split.
    + intros [= <-]. constructor.
    + intro H. now inversion H.
  - split.
    + intro H. apply bind_ok in H as [r [Hr H]]. apply bind_ok in H as [rs' [Hrs H]].
      injection H as <-. constructor; [exact Hr | now apply IH].
    + intro H. inversion H as [|? r ? rs' Hr Hrs]; subst.
      rewrite Hr. cbn [bind]. apply IH in Hrs. now rewrite Hrs.
Qed.

Lemma read_all_returns {A B : Type} (read : A -> res B) (l : list A) :
  (exists rs, read_all read l = Ok rs) <-> Forall (fun x => exists r, read x = Ok r) l.
Proof.
  induction l as [|x t IH]; cbn [read_all].
  - split; [constructor | now exists []].
  - split.
    + intros [rs H]. apply bind_ok in H as [r [Hr H]]. apply bind_ok in H as [rs' [Hrs _]].
      constructor; [now exists r | apply IH; now exists rs'].
    + intro H. inversion H as [|? ? [r Hr] Ht]; subst.
      apply IH in Ht as [rs Hrs]. exists (r :: rs). now rewrite Hr, Hrs.
Qed.

End Readings.

(** ** When the build returns *)

Ltac known_cell Hget :=
  match goal with
  | |- context [getitem ?row ?key] =>
      let v := fresh "v" in
      let E := fresh "E" in
      destruct (Hget key) as [v E]; [simpl; tauto | rewrite E; cbn [bind]]
  end.

Ltac cell_read H :=
  match type of H with
  | bind (getitem ?row ?key) _ = Ok _ =>
      let v := fresh "v" in
      let E := fresh "E" in
      apply bind_ok in H as [v [E H]]; cbv beta in H
  end.

Section Readable.
Context {RT : PyRuntime}.

Lemma build_case_memory_cells (row : series) (text : str) :
  _build_case_memory row = Ok text ->
  forall key,
    In key ["nombre_caso"; "area_derecho"; "fecha_inicio"; "fecha_fin"; "tipo_seleccion";
            "origen"; "exito"; "presion_ambiental"; "actores_principales"; "normativa_primaria";
            "fallos_relevantes"; "supervivencia_anos"; "mutaciones_identificadas";
            "difusion_otras_jurisdicciones"]%string ->
    exists v, getitem row key = Ok v.
Proof.
  unfold _build_case_memory. intro H. repeat cell_read H.
  intros key Hkey. simpl in Hkey.
  repeat (destruct Hkey as [<-|Hkey]; [eexists; eassumption|]). contradiction.
Qed.

Lemma build_crisis_memory_cells (row : series) (text : str) :
  _build_crisis_memory row = Ok text ->
  forall key,
    In key ["crisis_name"; "start_date"; "end_date"; "crisis_type"; "severity_level";
            "legal_changes_count"; "emergency_decrees"; "new_laws"; "acceleration_factor";
            "economic_indicators"; "recovery_timeline_months";
            "long_term_institutional_impact"]%string ->
    exists v, getitem row key = Ok v.
Proof.
  unfold _build_crisis_memory. intro H. repeat cell_read H.
  intros key Hkey. simpl in Hkey.
  repeat (destruct Hkey as [<-|Hkey]; [eexists; eassumption|]). contradiction.
Qed.

Lemma read_case_returns (row : series) :
  (exists r, read_case row = Ok r) <-> case_readable row.
Proof.
  split.
  - intros [r H]. unfold read_case in H.
    apply bind_ok in H as [case_id [Hid H]].
    apply bind_ok in H as [text [Hmem H]].
    apply bind_ok in H as [area [_ H]].
    apply bind_ok in H as [fecha [_ H]].
    apply bind_ok in H as [exito [_ H]].
    apply bind_ok in H as [nombre [Hname H]].
    apply bind_ok in H as [joined [Hjoin _]].
    split.
    + intros key Hkey. destruct Hkey as [<-|Hkey]; [now exists case_id|].
      now apply (build_case_memory_cells _ Hmem).
    + destruct nombre as [| | |s]; try discriminate. now exists s.
  - intros [Hget [s Hname]]. unfold read_case, _build_case_memory.
    rewrite !Hname. cbn [bind concat_name].
    repeat known_cell Hget. eexists. reflexivity.
Qed.

Lemma read_crisis_returns (row : series) :
  (exists r, read_crisis row = Ok r) <-> crisis_readable row.
Proof.
  split.
  - intros [r H]. unfold read_crisis in H.
    apply bind_ok in H as [crisis_id [Hid H]].
    apply bind_ok in H as [text [Hmem _]].
    intros key Hkey. destruct Hkey as [<-|Hkey]; [now exists crisis_id|].
    now apply (build_crisis_memory_cells _ Hmem).
  - intros Hget. unfold read_crisis, _build_crisis_memory.
    repeat known_cell Hget. eexists. reflexivity.
Qed.

(** The build returns exactly when its rows can be read. *)
Lemma build_returns_iff_readable :
  forall (evolution_cases crisis_periods : dataframe),
    (exists idx, _build_memory_index evolution_cases crisis_periods = Ok idx) <->
    (forall row, In row (processed_rows evolution_cases) -> case_readable row) /\
    (forall row, In row (processed_rows crisis_periods) -> crisis_readable row).
Proof.
  intros ev cr. rewrite build_reads_then_stores, <- !Forall_forall.
  assert (Hc : Forall case_readable (processed_rows ev)
               <-> exists rs, read_all read_case (processed_rows ev) = Ok rs).
  { rewrite read_all_returns. split; apply Forall_impl; intro row; apply read_case_returns. }
  assert (Hk : Forall crisis_readable (processed_rows cr)
               <-> exists rs, read_all read_crisis (processed_rows cr) = Ok rs).
  { rewrite read_all_returns. split; apply Forall_impl; intro row; apply read_crisis_returns. }
  rewrite Hc, Hk. split.
  - intros [idx H]. apply bind_ok in H as [cs [Hcs H]]. apply bind_ok in H as [ks [Hks _]].
    split; eexists; eassumption.
  - intros [[cs Hcs] [ks Hks]]. rewrite Hcs, Hks. eexists. reflexivity.
Qed.

(** X7. The build returns an index exactly when every row it processes can be
    read: an evolution row needs its fifteen cells ([notas] is optional) with
    a string as name, a crisis row its thirteen cells; otherwise it raises. *)
Theorem build_returns_exactly_when_rows_are_readable :
  forall (evolution_cases crisis_periods : dataframe),
    (exists idx, _build_memory_index evolution_cases crisis_periods = Ok idx) <->
    (forall row, In row (processed_rows evolution_cases) -> case_readable row) /\
    (forall row, In row (processed_rows crisis_periods) -> crisis_readable row).
Proof. exact build_returns_iff_readable. Qed.

End Readable.

(** ** What the built index holds *)

Lemma find_in_app {A : Type} (f : A -> bool) (l1 l2 : list A) :
  find f (l1 ++ l2) = match find f l1 with Some y => Some y | None => find f l2 end.
Proof.
  induction l1 as [|x l1 IH]; [reflexivity|]. cbn [app find]. now destruct (f x).
Qed.

Section FoldFacts.
Variables (K V : Type) (eqb : K -> K -> bool).
Hypothesis eqb_spec : forall a b, eqb a b = true <-> a = b.

(** After a run of assignments a key holds the value assigned last. *)
Lemma dict_get_assignments (ps : list (K * V)) :
  forall (d : dict K V) (k : K),
    dict_get eqb (fold_left (fun d p => dict_set eqb d (fst p) (snd p)) ps d) k
    = match find (fun p => eqb (fst p) k) (rev ps) with
      | Some p => Some (snd p)
      | None => dict_get eqb d k
      end.
Proof.
  induction ps as [|[k1 v1] ps IH]; intros d k; [reflexivity|].
  cbn [fold_left rev fst snd]. rewrite IH, find_in_app.
  destruct (find (fun p => eqb (fst p) k) (rev ps)); [reflexivity|].
  cbn [find fst snd]. rewrite (@dict_get_set _ _ eqb eqb_spec).
  now destruct (eqb k1 k).
Qed.

End FoldFacts.

Section AppendContent.
Variables (K : Type) (eqb : K -> K -> bool).
Hypothesis eqb_spec : forall a b, eqb a b = true <-> a = b.

Lemma dict_get_dd_append (d : dict K (list pyval)) (k k0 : K) (x : pyval) :
  dict_get eqb (dd_append eqb d k x) k0
  = if eqb k k0
    then Some (match dict_get eqb d k0 with Some l => l ++ [x] | None => [x] end)
    else dict_get eqb d k0.
Proof.
  unfold dd_append.
  destruct (dict_get eqb d k) as [l|] eqn:E; rewrite (@dict_get_set _ _ eqb eqb_spec);
    destruct (eqb k k0) eqn:Ek; try reflexivity;
    apply eqb_spec in Ek; subst k0; now rewrite E.
Qed.

(** After a run of appends a key lists what it listed before and then the
    values appended under it, in order. *)
Lemma dict_get_appends (ps : list (K * pyval)) :
  forall (d : dict K (list pyval)) (k : K),
    dict_get eqb (fold_left (fun d p => dd_append eqb d (fst p) (snd p)) ps d) k
    = match dict_get eqb d k with
      | Some l => Some (l ++ appended eqb k ps)
      | None => listing (appended eqb k ps)
      end.
Proof.
  unfold appended.
  induction ps as [|[k1 x1] ps IH]; intros d k; cbn [fold_left filter map fst snd].
  - destruct (dict_get eqb d k); [now rewrite app_nil_r | reflexivity].
  - rewrite IH, dict_get_dd_append.
    destruct (eqb k1 k) eqn:E; cbn [map snd].
    + destruct (dict_get eqb d k) as [l|].
      * now rewrite <- app_assoc.
      * reflexivity.
    + reflexivity.
Qed.

End AppendContent.

Lemma filter_twice {A : Type} (f g : A -> bool) (l : list A) :
  filter f (filter g l) = filter (fun x => g x && f x) l.
Proof.
  induction l as [|x l IH]; [reflexivity|]. cbn [filter].
  destruct (g x); cbn [filter andb]; [destruct (f x)|]; now rewrite IH.
Qed.

Lemma dict_keys_assignments (ps : list (pyval * entry)) :
  forall (d : dict pyval entry),
    NoDup (dict_keys d) ->
    dict_keys (fold_left (fun d p => dict_set pyval_eqb d (fst p) (snd p)) ps d)
    = dict_keys d
      ++ filter (fun y => negb (existsb (pyval_eqb y) (dict_keys d)))
                (first_occurrences (map fst ps)).
Proof.
  induction ps as [|[k v] ps IH]; intros d Hd; cbn [fold_left map fst snd first_occurrences].
  - cbn. now rewrite app_nil_r.
  - rewrite IH by now apply (dict_keys_set_nodup _ pyval_eqb_eq).
    cbn [filter].
    assert (Hkeys : dict_keys (dict_set pyval_eqb d k v)
                    = if existsb (pyval_eqb k) (dict_keys d) then dict_keys d
                      else dict_keys d ++ [k]).
    { clear. unfold dict_keys. induction d as [|[k' v'] t IHd]; [reflexivity|].
      cbn [dict_set map fst existsb].
      destruct (pyval_eqb k' k) eqn:E.
      - apply pyval_eqb_eq in E. subst k'. now rewrite pyval_eqb_refl.
      - cbn [map fst]. rewrite IHd.
        destruct (pyval_eqb k k') eqn:E'.
        + apply pyval_eqb_eq in E'. subst k'. rewrite pyval_eqb_refl in E. discriminate.
        + cbn. now destruct (existsb (pyval_eqb k) (map fst t)). }
    rewrite Hkeys, filter_twice.
    destruct (existsb (pyval_eqb k) (dict_keys d)) eqn:Ek; cbn [negb].
    + f_equal. apply filter_ext. intro y.
      destruct (pyval_eqb y k) eqn:Eyk; [|reflexivity].
      apply pyval_eqb_eq in Eyk. subst y. now rewrite Ek.
    + rewrite <- app_assoc. cbn [app]. f_equal. f_equal.
      apply filter_ext. intro y.
      rewrite existsb_app. cbn [existsb]. rewrite orb_false_r, negb_orb.
      apply andb_comm.
Qed.

Lemma stored_cases (cases : list case_reading) :
  forall (idx : memory_index),
    let idx' := fold_left store_case cases idx in
    mi_evolution_cases idx'
    = fold_left (fun d p => dict_set pyval_eqb d (fst p) (snd p))
                (map (fun r => (cr_id r, cr_entry r)) cases) (mi_evolution_cases idx) /\
    mi_keywords idx'
    = fold_left (fun d p => dd_append str_eqb d (fst p) (snd p))
                (keyword_appends cases) (mi_keywords idx) /\
    mi_temporal idx'
    = fold_left (fun d p => dd_append str_eqb d (fst p) (snd p))
                (map (fun r => (cr_year r, cr_id r)) cases) (mi_temporal idx) /\
    mi_legal_areas idx'
    = fold_left (fun d p => dd_append pyval_eqb d (fst p) (snd p))
                (map (fun r => (cr_area r, cr_id r)) cases) (mi_legal_areas idx) /\
    mi_crisis_periods idx' = mi_crisis_periods idx /\
    mi_transplant_cases idx' = mi_transplant_cases idx.
Proof.
  induction cases as [|r cases IH]; intro idx; cbn zeta.
  - now repeat split.
  - cbn [fold_left]. destruct (IH (store_case idx r)) as (H1 & H2 & H3 & H4 & H5 & H6).
    rewrite H1, H2, H3, H4, H5, H6. cbn [store_case mi_evolution_cases mi_keywords mi_temporal
      mi_legal_areas mi_crisis_periods mi_transplant_cases map keyword_appends flat_map
      fold_left fst snd].
    repeat split. rewrite fold_left_app. f_equal.
    now rewrite fold_left_map_keys.
Qed.

Lemma stored_crises (crises : list (pyval * entry)) :
  forall (idx : memory_index),
    let idx' := fold_left store_crisis crises idx in
    mi_crisis_periods idx'
    = fold_left (fun d p => dict_set pyval_eqb d (fst p) (snd p)) crises (mi_crisis_periods idx) /\
    mi_evolution_cases idx' = mi_evolution_cases idx /\
    mi_keywords idx' = mi_keywords idx /\
    mi_temporal idx' = mi_temporal idx /\
    mi_legal_areas idx' = mi_legal_areas idx /\
    mi_transplant_cases idx' = mi_transplant_cases idx.
Proof.
  induction crises as [|r crises IH]; intro idx; cbn zeta.
  - now repeat split.
  - cbn [fold_left]. destruct (IH (store_crisis idx r)) as (H1 & H2 & H3 & H4 & H5 & H6).
    rewrite H1, H2, H3, H4, H5, H6. now repeat split.
Qed.

Lemma filter_everything {A : Type} (l : list A) : filter (fun _ => true) l = l.
Proof. induction l as [|x l IH]; [reflexivity|]. cbn. now rewrite IH. Qed.

Section BuiltIndex.
Context {RT : PyRuntime}.

(** The build, once it returns, as the readings of its rows and their fold. *)
Lemma build_ok_readings (evolution_cases crisis_periods : dataframe) (idx : memory_index) :
  _build_memory_index evolution_cases crisis_periods = Ok idx ->
  exists cases crises,
    Forall2 (fun row r => read_case row = Ok r) (processed_rows evolution_cases) cases /\
    Forall2 (fun row r => read_crisis row = Ok r) (processed_rows crisis_periods) crises /\
    idx = fold_left store_crisis crises (fold_left store_case cases empty_index).
Proof.
  rewrite build_reads_then_stores. intro H.
  apply bind_ok in H as [cases [Hc H]]. apply bind_ok in H as [crises [Hk H]].
  injection H as <-. exists cases, crises.
  repeat split; now apply read_all_ok.
Qed.

(** What the two stores hold after the build. *)
Lemma stores_content :
  forall (evolution_cases crisis_periods : dataframe) (idx : memory_index),
    _build_memory_index evolution_cases crisis_periods = Ok idx ->
    exists cases crises,
      Forall2 (fun row r => read_case row = Ok r) (processed_rows evolution_cases) cases /\
      Forall2 (fun row r => read_crisis row = Ok r) (processed_rows crisis_periods) crises /\
      dict_keys (mi_evolution_cases idx) = first_occurrences (map cr_id cases) /\
      dict_keys (mi_crisis_periods idx) = first_occurrences (map fst crises) /\
      (forall id,
         dict_get pyval_eqb (mi_evolution_cases idx) id
         = option_map cr_entry (find (fun r => pyval_eqb (cr_id r) id) (rev cases))) /\
      (forall id,
         dict_get pyval_eqb (mi_crisis_periods idx) id
         = option_map snd (find (fun r => pyval_eqb (fst r) id) (rev crises))).
Proof.
  intros ev cr idx H.
  apply build_ok_readings in H as (cases & crises & Hc & Hk & ->).
  exists cases, crises. split; [exact Hc|]. split; [exact Hk|].
  destruct (stored_crises crises (fold_left store_case cases empty_index))
    as (Kcr & Kev & _).
  destruct (stored_cases cases empty_index) as (Cev & _ & _ & _ & Ccr & _).
  cbn zeta in *. rewrite Kcr, Kev, Cev, Ccr. cbn [empty_index mi_evolution_cases mi_crisis_periods].
  repeat split.
  - rewrite dict_keys_assignments by constructor. cbn [dict_keys map app existsb negb].
    rewrite filter_everything. now rewrite map_map.
  - rewrite dict_keys_assignments by constructor. cbn [dict_keys map app existsb negb].
    now rewrite filter_everything.
  - intro id. rewrite (@dict_get_assignments _ _ pyval_eqb pyval_eqb_eq). cbn [dict_get].
    rewrite <- map_rev.
    induction (rev cases) as [|r l IH]; [reflexivity|].
    cbn [map find fst snd]. now destruct (pyval_eqb (cr_id r) id).
  - intro id. rewrite (@dict_get_assignments _ _ pyval_eqb pyval_eqb_eq). cbn [dict_get].
    now destruct (find _ (rev crises)).
Qed.

(** X8. In the built index each partition's keys are the ids of its rows in
    the order in which they first appear, and a lookup by id gives the entry
    made from the last row with that id: a later row replaces the entry of an
    earlier one but keeps its place. Ids are told apart as a dictionary tells
    its keys apart: two missing-value markers are one id only when they are
    the same object, and otherwise each keeps its own key and entry. *)
Theorem by_id_store_keeps_first_place_and_last_entry :
  forall (evolution_cases crisis_periods : dataframe) (idx : memory_index),
    _build_memory_index evolution_cases crisis_periods = Ok idx ->
    exists cases crises,
      Forall2 (fun row r => read_case row = Ok r) (processed_rows evolution_cases) cases /\
      Forall2 (fun row r => read_crisis row = Ok r) (processed_rows crisis_periods) crises /\
      dict_keys (mi_evolution_cases idx) = first_occurrences (map cr_id cases) /\
      dict_keys (mi_crisis_periods idx) = first_occurrences (map fst crises) /\
      (forall id,
         dict_get pyval_eqb (mi_evolution_cases idx) id
         = option_map cr_entry (find (fun r => pyval_eqb (cr_id r) id) (rev cases))) /\
      (forall id,
         dict_get pyval_eqb (mi_crisis_periods idx) id
         = option_map snd (find (fun r => pyval_eqb (fst r) id) (rev crises))).
Proof. exact stores_content. Qed.

(** What the keyword, year and legal-area indexes hold after the build. *)
Lemma secondary_indexes_content :
  forall (evolution_cases crisis_periods : dataframe) (idx : memory_index),
    _build_memory_index evolution_cases crisis_periods = Ok idx ->
    exists cases,
      Forall2 (fun row r => read_case row = Ok r) (processed_rows evolution_cases) cases /\
      (forall key,
         dict_get str_eqb (mi_keywords idx) key
         = listing (appended str_eqb key (keyword_appends cases))) /\
      (forall year,
         dict_get str_eqb (mi_temporal idx) year
         = listing (appended str_eqb year (map (fun r => (cr_year r, cr_id r)) cases))) /\
      (forall area,
         dict_get pyval_eqb (mi_legal_areas idx) area
         = listing (appended pyval_eqb area (map (fun r => (cr_area r, cr_id r)) cases))).
Proof.
  intros ev cr idx H.
  apply build_ok_readings in H as (cases & crises & Hc & _ & ->).
  exists cases. split; [exact Hc|].
  destruct (stored_crises crises (fold_left store_case cases empty_index))
    as (_ & _ & Kkw & Ktm & Kar & _).
  destruct (stored_cases cases empty_index) as (_ & Ckw & Ctm & Car & _).
  cbn zeta in *. rewrite Kkw, Ktm, Kar, Ckw, Ctm, Car.
  cbn [empty_index mi_keywords mi_temporal mi_legal_areas].
  repeat split; intro k.
  - now rewrite (@dict_get_appends _ str_eqb str_eqb_eq).
  - now rewrite (@dict_get_appends _ str_eqb str_eqb_eq).
  - now rewrite (@dict_get_appends _ pyval_eqb pyval_eqb_eq).
Qed.

(** X9. In the built index the keyword index lists under a key, in row order,
    the ids of the rows that have it among their lowercased keywords, the
    year index those of the rows with that year key and the legal-area index
    those of the rows of that area; a key nothing is listed under is absent.
    A row counts once for each time it occurs. Areas and ids are told apart
    as a dictionary tells its keys apart: two missing-value markers are one
    area, or one id, only when they are the same object. *)
Theorem secondary_indexes_list_the_rows_in_order :
  forall (evolution_cases crisis_periods : dataframe) (idx : memory_index),
    _build_memory_index evolution_cases crisis_periods = Ok idx ->
    exists cases,
      Forall2 (fun row r => read_case row = Ok r) (processed_rows evolution_cases) cases /\
      (forall key,
         dict_get str_eqb (mi_keywords idx) key
         = listing (appended str_eqb key (keyword_appends cases))) /\
      (forall year,
         dict_get str_eqb (mi_temporal idx) year
         = listing (appended str_eqb year (map (fun r => (cr_year r, cr_id r)) cases))) /\
      (forall area,
         dict_get pyval_eqb (mi_legal_areas idx) area
         = listing (appended pyval_eqb area (map (fun r => (cr_area r, cr_id r)) cases))).
Proof. exact secondary_indexes_content. Qed.

(** X10. The case store and the keyword, year and legal-area indexes depend
    on the evolution frame only, the crisis store on the crisis frame only,
    and the transplant partition stays empty: no crisis is ever listed in a
    secondary index and nothing fills the transplant partition. *)
Theorem partitions_are_independent :
  forall (evolution_cases crisis_periods evolution_cases' crisis_periods' : dataframe)
         (idx idx' : memory_index),
    _build_memory_index evolution_cases crisis_periods = Ok idx ->
    _build_memory_index evolution_cases' crisis_periods' = Ok idx' ->
    mi_transplant_cases idx = [] /\
    (evolution_cases = evolution_cases' ->
     mi_evolution_cases idx = mi_evolution_cases idx' /\
     mi_keywords idx = mi_keywords idx' /\
     mi_temporal idx = mi_temporal idx' /\
     mi_legal_areas idx = mi_legal_areas idx') /\
    (crisis_periods = crisis_periods' ->
     mi_crisis_periods idx = mi_crisis_periods idx').
Proof.
  intros ev cr ev' cr' idx idx' H H'.
  rewrite build_reads_then_stores in H, H'.
  apply bind_ok in H as [cases [Hc H]]. apply bind_ok in H as [crises [Hk H]].
  apply bind_ok in H' as [cases' [Hc' H']]. apply bind_ok in H' as [crises' [Hk' H']].
  injection H as <-. injection H' as <-.
  destruct (stored_crises crises (fold_left store_case cases empty_index))
    as (Kcr & Kev & Kkw & Ktm & Kar & Ktr).
  destruct (stored_crises crises' (fold_left store_case cases' empty_index))
    as (Kcr' & Kev' & Kkw' & Ktm' & Kar' & Ktr').
  destruct (stored_cases cases empty_index) as (Cev & Ckw & Ctm & Car & Ccr & Ctr).
  destruct (stored_cases cases' empty_index) as (Cev' & Ckw' & Ctm' & Car' & Ccr' & Ctr').
  cbn zeta in *. split; [|split].
  - now rewrite Ktr, Ctr.
  - intros <-. rewrite Hc in Hc'. injection Hc' as <-.
    rewrite Kev, Kev', Kkw, Kkw', Ktm, Ktm', Kar, Kar'. now repeat split.
  - intros <-. rewrite Hk in Hk'. injection Hk' as <-.
    now rewrite Kcr, Kcr', Ccr, Ccr'.
Qed.

End BuiltIndex.

(** ** The build, record by record *)

Lemma first_occurrences_distinct (ids : list pyval) :
  NoDup ids -> first_occurrences ids = ids.
Proof.
  induction 1 as [|x t Hx Ht IH]; [reflexivity|].
  cbn [first_occurrences]. rewrite IH. f_equal.
  clear IH Ht. induction t as [|y t IHt]; [reflexivity|].
  cbn [filter]. destruct (pyval_eqb y x) eqn:E.
  - apply pyval_eqb_eq in E. subst y. exfalso. apply Hx. now left.
  - cbn [negb]. f_equal. apply IHt. intro H. apply Hx. now right.
Qed.

Lemma first_occurrences_length (ids : list pyval) :
  (length (first_occurrences ids) <= length ids)%nat.
Proof.
  induction ids as [|x t IH]; [apply Nat.le_refl|].
  cbn [first_occurrences length].
  pose proof (filter_length_le (fun y => negb (pyval_eqb y x)) (first_occurrences t)). lia.
Qed.

Lemma Forall2_in_right {A B : Type} (R : A -> B -> Prop) (l : list A) (l' : list B) (y : B) :
  Forall2 R l l' -> In y l' -> exists x, In x l /\ R x y.
Proof.
  induction 1 as [|x y' l l' Hxy _ IH]; intro Hy; [contradiction|].
  destruct Hy as [<-|Hy].
  - exists x. split; [now left | exact Hxy].
  - destruct (IH Hy) as [x0 [Hx0 HR]]. exists x0. split; [now right | exact HR].
Qed.

Section Records.
Context {RT : PyRuntime}.

(** What a reading of an evolution row holds of the row's cells. *)
Lemma read_case_cells (row : series) (r : case_reading) :
  read_case row = Ok r ->
  getitem row "case_id" = Ok (cr_id r) /\
  getitem row "area_derecho" = Ok (cr_area r) /\
  exists fecha,
    getitem row "fecha_inicio" = Ok fecha /\ cr_year r = str_take 4 (py_str fecha).
Proof.
  unfold read_case. intro H.
  apply bind_ok in H as [case_id [Hid H]].
  apply bind_ok in H as [text [_ H]].
  apply bind_ok in H as [area [Ha H]].
  apply bind_ok in H as [fecha [Hf H]].
  apply bind_ok in H as [exito [_ H]].
  apply bind_ok in H as [nombre [_ H]].
  apply bind_ok in H as [full [_ H]].
  injection H as <-. cbn. repeat split; try assumption. now exists fecha.
Qed.

Lemma read_crisis_cells (row : series) (r : pyval * entry) :
  read_crisis row = Ok r -> getitem row "crisis_id" = Ok (fst r).
Proof.
  unfold read_crisis. intro H.
  apply bind_ok in H as [crisis_id [Hid H]].
  apply bind_ok in H as [text [_ H]].
  apply bind_ok in H as [crisis_type [_ H]].
  apply bind_ok in H as [severity [_ H]].
  apply bind_ok in H as [start_date [_ H]].
  injection H as <-. exact Hid.
Qed.

(** The ids of the readings are the cells of the id column. *)
Lemma readings_ids {R : Type} (read : series -> res R) (id : R -> pyval) (key : string)
    (rows : list series) (readings : list R) :
  (forall row r, read row = Ok r -> getitem row key = Ok (id r)) ->
  Forall2 (fun row r => read row = Ok r) rows readings ->
  map id readings = column key rows.
Proof.
  intros Hcell H. induction H as [|row r rows readings Hr _ IH]; [reflexivity|].
  cbn [map column flat_map]. fold (column key rows). rewrite IH.
  apply Hcell in Hr. unfold getitem in Hr.
  destruct (dict_get String.eqb row key) as [v|]; [|discriminate].
  now injection Hr as ->.
Qed.

Lemma column_length (key : string) (rows : list series) :
  (forall row, In row rows -> exists v, getitem row key = Ok v) ->
  length (column key rows) = length rows.
Proof.
  induction rows as [|row rows IH]; intro H; [reflexivity|].
  cbn [column flat_map]. fold (column key rows). rewrite length_app, IH.
  - destruct (H row (or_introl eq_refl)) as [v Hv]. unfold getitem in Hv.
    now destruct (dict_get String.eqb row key).
  - intros r Hr. apply H. now right.
Qed.

(** C5, as the code has it. The build has no skip and records no warning.
    Every evolution record is stored in the by-id store under its id cell and
    listed in the year and legal-area indexes, every crisis record is stored
    in the crisis store, whatever the id cell holds: a missing-value marker is
    a key like any other. A store holds one key for each distinct id, two
    ids being one key when they are equal or the same object, so its count is
    the raw count less the repetitions of an id; it is the raw count when the
    ids are pairwise distinct, missing ones included. Without the id column
    the build raises [KeyError] instead of returning. *)
Theorem build_indexes_every_record :
  forall (evolution_cases crisis_periods : dataframe),
    (forall idx,
       _build_memory_index evolution_cases crisis_periods = Ok idx ->
       let cases := processed_rows evolution_cases in
       let crises := processed_rows crisis_periods in
       (forall row, In row cases -> indexed_case row idx) /\
       (forall row, In row crises -> indexed_crisis row idx) /\
       keys_are_ids cases idx /\
       length (mi_evolution_cases idx) = length (first_occurrences (column "case_id" cases)) /\
       length (mi_crisis_periods idx) = length (first_occurrences (column "crisis_id" crises)) /\
       (NoDup (column "case_id" cases) ->
        length (mi_evolution_cases idx) = length cases) /\
       (NoDup (column "crisis_id" crises) ->
        length (mi_crisis_periods idx) = length crises)) /\
    (df_empty evolution_cases = false -> ~ In "case_id"%string (columns evolution_cases) ->
     _build_memory_index evolution_cases crisis_periods = Raise (KeyError "case_id")).
Proof.
  intros ev cr. destruct (every_row_is_indexed ev cr) as [Hrows Hraise].
  split; [|exact Hraise].
  intros idx H cases crises. destruct (Hrows idx H) as (Hev & Hcr & Hkeys).
  destruct (stores_content _ _ H) as (cs & ks & Hcs & Hks & Kev & Kcr & _).
  assert (Eev : map cr_id cs = column "case_id" cases).
  { apply (readings_ids read_case cr_id "case_id"); [|exact Hcs].
    intros row r Hr. now destruct (read_case_cells _ Hr). }
  assert (Ecr : map fst ks = column "crisis_id" crises).
  { apply (readings_ids read_crisis fst "crisis_id"); [|exact Hks].
    intros row r Hr. now apply read_crisis_cells. }
  assert (Lev : length (mi_evolution_cases idx)
                = length (first_occurrences (column "case_id" cases))).
  { rewrite <- Eev, <- Kev. unfold dict_keys. now rewrite length_map. }
  assert (Lcr : length (mi_crisis_periods idx)
                = length (first_occurrences (column "crisis_id" crises))).
  { rewrite <- Ecr, <- Kcr. unfold dict_keys. now rewrite length_map. }
  repeat split; try assumption; try apply Hkeys.
  - intro Hd. rewrite Lev, (first_occurrences_distinct Hd).
    apply column_length. intros row Hrow.
    destruct (Hev row Hrow) as (case_id & _ & _ & Hid & _). now exists case_id.
  - intro Hd. rewrite Lcr, (first_occurrences_distinct Hd).
    apply column_length. intros row Hrow.
    destruct (Hcr row Hrow) as (crisis_id & Hid & _). now exists crisis_id.
Qed.

(** C9, as the code has it. The year key of an evolution record is the first
    four characters of the string form of its start-date cell, or all of them
    when there are fewer, and the record's id is always listed under it:
    there is no length check and nothing is skipped. Crisis records add
    nothing to the year index: whatever is listed there is the id of an
    evolution record under that record's key. A frame without the start-date
    column makes the build raise [KeyError]. *)
Theorem temporal_index_takes_every_start_date :
  forall (evolution_cases crisis_periods : dataframe),
    (forall idx,
       _build_memory_index evolution_cases crisis_periods = Ok idx ->
       (forall row, In row (processed_rows evolution_cases) ->
          exists case_id fecha,
            getitem row "case_id" = Ok case_id /\
            getitem row "fecha_inicio" = Ok fecha /\
            listed_under str_eqb (mi_temporal idx) (str_take 4 (py_str fecha)) case_id /\
            length (str_take 4 (py_str fecha)) = Nat.min 4 (length (py_str fecha))) /\
       (forall year id,
          listed_under str_eqb (mi_temporal idx) year id ->
          exists row fecha,
            In row (processed_rows evolution_cases) /\
            getitem row "case_id" = Ok id /\
            getitem row "fecha_inicio" = Ok fecha /\
            year = str_take 4 (py_str fecha))) /\
    (df_empty evolution_cases = false -> ~ In "fecha_inicio"%string (columns evolution_cases) ->
     exists key, _build_memory_index evolution_cases crisis_periods = Raise (KeyError key)).
Proof.
  intros ev cr. destruct (every_start_date_is_listed ev cr) as [Hrows Hraise].
  split; [|exact Hraise].
  intros idx H. split; [exact (Hrows idx H)|].
  intros year id (l & Hget & Hin).
  destruct (secondary_indexes_content _ _ H) as (cs & Hcs & _ & Htm & _).
  rewrite Htm in Hget. unfold listing in Hget.
  destruct (appended str_eqb year _) as [|a l'] eqn:Ea; [discriminate|].
  injection Hget as <-. rewrite <- Ea in Hin. unfold appended in Hin.
  apply in_map_iff in Hin as [[y i] [Hi Hin]]. cbn in Hi. subst i.
  apply filter_In in Hin as [Hin Hy]. cbn in Hy. apply str_eqb_eq in Hy. subst y.
  apply in_map_iff in Hin as [r [Hr Hin]]. injection Hr as Hyear Hid.
  destruct (@Forall2_in_right _ _ _ _ _ r Hcs Hin) as [row [Hrow Hread]].
  destruct (@read_case_cells row r Hread) as (Hcid & _ & fecha & Hf & Hy).
  exists row, fecha. rewrite <- Hid, <- Hyear. now repeat split.
Qed.

End Records.

(** ** When a query answers with an error *)

Section QueryErrors.
Context {RT : PyRuntime}.

Lemma year_prefixes_find (dates : list pyval) :
  match find unusable_date dates with
  | Some d => year_prefixes dates = Raise (TypeError_len d)
  | None => exists years, year_prefixes dates = Ok years
  end.
Proof.
  induction dates as [|d t IH]; cbn [find year_prefixes]; [now exists []|].
  unfold unusable_date at 1.
  destruct (py_truthy d) eqn:Et; cbn [andb].
  - destruct d as [| |z|s]; try reflexivity.
    destruct (find unusable_date t) as [d0|].
    + now rewrite IH.
    + destruct IH as [years ->]. cbn [bind]. eexists. reflexivity.
  - exact IH.
Qed.

Lemma find_unusable_truthy (l : list pyval) :
  find unusable_date (filter py_truthy l) = find unusable_date l.
Proof.
  induction l as [|d t IH]; [reflexivity|]. cbn [filter find].
  destruct (py_truthy d) eqn:E.
  - cbn [find]. now rewrite IH.
  - assert (Hd : unusable_date d = false) by (unfold unusable_date; now rewrite E).
    now rewrite Hd.
Qed.

Lemma generate_insights_outcome (cases : list scored_case) :
  match find unusable_date (start_dates cases) with
  | Some d => _generate_insights cases = Raise (TypeError_len d)
  | None => exists text, _generate_insights cases = Ok text
  end.
Proof.
  unfold _generate_insights. destruct cases as [|c cs]; [cbn; eexists; reflexivity|].
  set (cases := c :: cs).
  pose proof (year_prefixes_find (truthy_field "start_date" cases)) as Hy.
  unfold truthy_field in Hy at 1. rewrite find_unusable_truthy in Hy.
  fold (start_dates cases) in Hy.
  destruct (find unusable_date (start_dates cases)) as [d|].
  - destruct (truthy_field "start_date" cases) as [|d0 ds] eqn:Ed.
    + cbn in Hy. discriminate.
    + rewrite Hy. reflexivity.
  - destruct (truthy_field "start_date" cases) as [|d0 ds] eqn:Ed.
    + cbn [bind]. eexists. reflexivity.
    + destruct Hy as [years ->]. cbn [bind].
      destruct years; cbn [bind]; eexists; reflexivity.
Qed.

(** X11. The insights raise exactly when some match has a start date that
    counts as true and is not a string; the exception is the [TypeError] of
    [len] on the first such date. With no such date they return a text. *)
Theorem insights_raise_on_first_unusable_date :
  forall (cases : list scored_case),
    match find unusable_date (start_dates cases) with
    | Some d => _generate_insights cases = Raise (TypeError_len d)
    | None => exists text, _generate_insights cases = Ok text
    end.
Proof. exact generate_insights_outcome. Qed.

End QueryErrors.

Section QueryOnBuiltIndex.
Context {RT : PyRuntime}.









End QueryOnBuiltIndex.

(** ** Confidence of a query *)

Lemma sum_scores_pos (cases : list scored_case) :
  cases <> [] -> Forall positive cases -> 0 < fold_right Qplus 0 (map sc_score cases).
Proof.
  intros Hne Hall. destruct cases as [|c cs]; [contradiction|].
  inversion Hall as [|? ? Hc Hcs]; subst. cbn [map fold_right].
  assert (0 <= fold_right Qplus 0 (map sc_score cs)).
  { apply sum_scores_nonneg. eapply Forall_impl; [|exact Hcs].
    intros x Hx. now apply Qlt_le_weak. }
  unfold positive in Hc. lra.
Qed.

Lemma average_score_pos (cases : list scored_case) :
  cases <> [] -> Forall positive cases -> 0 < average_score cases.
Proof.
  intros Hne Hall. unfold average_score. apply Qlt_shift_div_l.
  - change 0 with (inject_Z 0). rewrite <- Zlt_Qlt.
    destruct cases; [contradiction | simpl; lia].
  - rewrite Qmult_0_l. now apply sum_scores_pos.
Qed.

Lemma confidence_of_positive_matches (cases : list scored_case) (keywords : list str) :
  cases <> [] -> Forall positive cases ->
  0.75 < _calculate_confidence cases keywords /\
  _calculate_confidence cases keywords <= 1 /\
  ((6 <= length cases)%nat -> _calculate_confidence cases keywords == 1).
Proof.
  intros Hne Hall. rewrite (confidence_formula keywords Hne).
  pose proof (average_score_pos Hne Hall) as Havg.
  set (n := inject_Z (Z.of_nat (length cases))).
  assert (Hn : 1 <= n).
  { subst n. change 1 with (inject_Z 1). rewrite <- Zle_Qle.
    destruct cases; [contradiction | simpl; lia]. }
  assert (Hboost : 0.05 <= Qmin (n * 0.05) 0.3) by (apply Q.min_glb; lra).
  repeat split.
  - apply Q.min_glb_lt; lra.
  - apply Q.le_min_r.
  - intro H6.
    assert (Hn6 : 6 <= n).
    { subst n. change 6 with (inject_Z 6). rewrite <- Zle_Qle. lia. }
    assert (Hb : Qmin (n * 0.05) 0.3 == 0.3) by (apply Q.min_r; lra).
    rewrite Hb. apply Q.min_r. lra.
Qed.

Section QueryConfidence.
Context {RT : PyRuntime}.

Lemma search_memory_positive (cfg : config) (idx : memory_index) (keywords : list str)
    (context_type : option str) :
  Forall positive (_search_memory cfg idx keywords context_type).
Proof.
  apply Forall_forall. intros c Hc. apply search_memory_incl in Hc.
  pose proof (scan_memory_positive idx keywords context_type) as H.
  rewrite Forall_forall in H. now apply H.
Qed.

(** X13. The confidence a query reports is 0 when it found no relevant case
    and otherwise lies above 0.75 and at most at 1; with six or more relevant
    cases it is 1 whatever their scores. *)
Theorem query_confidence_is_zero_or_high :
  forall (cfg : config) (idx : memory_index) (now query : str) (context_type : option str)
         (r : query_success),
    query_legal_evolution cfg idx now query context_type = QueryResult r ->
    (r_relevant_cases r = [] /\ r_confidence r = 0) \/
    (r_relevant_cases r <> [] /\
     0.75 < r_confidence r /\ r_confidence r <= 1 /\
     ((6 <= length (r_relevant_cases r))%nat -> r_confidence r == 1)).
Proof.
  intros cfg idx now query context_type r H.
  unfold query_legal_evolution in H.
  destruct (query_pipeline cfg idx now query context_type) as [r0|e] eqn:E; [|discriminate].
  injection H as ->. unfold query_pipeline in E.
  destruct (_generate_response _ _); [|discriminate]. injection E as <-.
  cbn [r_relevant_cases r_confidence].
  set (matches := _search_memory cfg idx (_extract_keywords query) context_type).
  destruct matches as [|c cs] eqn:Em; [left; now split | right].
  assert (Hne : c :: cs <> []) by discriminate.
  assert (Hpos : Forall positive (c :: cs)).
  { rewrite <- Em. apply search_memory_positive. }
  destruct (confidence_of_positive_matches (_extract_keywords query) Hne Hpos) as (H1 & H2 & H3).
  repeat split; try assumption; try discriminate.
  intro H6. apply H3. now rewrite length_map in H6.
Qed.

Lemma filter_length_perm {A : Type} (f : A -> bool) (l l' : list A) :
  Permutation l l' -> length (filter f l) = length (filter f l').
Proof.
  induction 1 as [|x l l' _ IH|x y l|l l' l'' _ IH1 _ IH2]; cbn [filter].
  - reflexivity.
  - destruct (f x); cbn [length]; now rewrite IH.
  - now destruct (f x), (f y).
  - now rewrite IH1.
Qed.

Lemma score_perm (content : str) (keywords keywords' : list str) :
  Permutation keywords keywords' ->
  _calculate_relevance_score content keywords = _calculate_relevance_score content keywords'.
Proof.
  intro Hp. unfold _calculate_relevance_score.
  pose proof (Permutation_length Hp) as Hlen.
  destruct keywords as [|k ks], keywords' as [|k' ks']; try discriminate; [reflexivity|].
  rewrite (filter_length_perm _ Hp). now rewrite Hlen.
Qed.

(** X14. Retrieval does not depend on the order of the keywords: the list a
    set of keywords happens to be iterated into, in whatever order, gives the
    same matches with the same scores in the same ranking. *)
Theorem retrieval_ignores_keyword_order :
  forall (cfg : config) (idx : memory_index) (keywords keywords' : list str)
         (context_type : option str),
    Permutation keywords keywords' ->
    _search_memory cfg idx keywords context_type = _search_memory cfg idx keywords' context_type.
Proof.
  intros cfg idx keywords keywords' context_type Hp.
  assert (Hscan : forall type partition,
             scan_partition type keywords partition = scan_partition type keywords' partition).
  { intros type partition. unfold scan_partition. apply flat_map_ext.
    intros [case_id case_data]. now rewrite (score_perm _ Hp). }
  unfold _search_memory, scan_memory. now rewrite !Hscan.
Qed.

(** X15. Every source a response is credited with is a piece of the response
    text. *)
Theorem sources_are_quoted_from_the_response :
  forall (response : str),
    Forall (fun source => occurs_in source response) (_extract_sources response).
Proof.
  intro response. unfold _extract_sources. apply Forall_forall. intros s Hs.
  apply (proj1 (set_iter_str_in _ _)) in Hs.
  apply in_flat_map in Hs as [pattern [_ Hs]].
  pose proof (re_findall_occurs true pattern response) as H.
  rewrite Forall_forall in H. now apply H.
Qed.

End QueryConfidence.

(** ** The further properties at concrete inputs *)

Lemma sample_archive_built :
  _build_memory_index (RT := latin1_runtime) three_cases one_crisis = Ok sample_archive.
Proof. vm_compute. reflexivity. Qed.

(** The store of the second sample: the id met twice stands first and holds
    the entry of its later row; the year index lists it twice. *)
Example sample_archive_store :
  dict_keys (mi_evolution_cases sample_archive) = [txt "C1"; txt "C2"] /\
  option_map (fun e => get (metadata e) "start_date")
    (dict_get pyval_eqb (mi_evolution_cases sample_archive) (txt "C1"))
  = Some (txt "1995-06-30") /\
  dict_get str_eqb (mi_temporal sample_archive) (py "1995") = Some [txt "C1"; txt "C1"] /\
  dict_get str_eqb (mi_temporal sample_archive) (py "nan") = None.
Proof. repeat split; vm_compute; reflexivity. Qed.

Lemma by_id_store_keeps_first_place_and_last_entry_witness :
  exists cases crises,
    Forall2 (fun row r => read_case (RT := latin1_runtime) row = Ok r)
            (processed_rows three_cases) cases /\
    Forall2 (fun row r => read_crisis row = Ok r) (processed_rows one_crisis) crises /\
    dict_keys (mi_evolution_cases sample_archive) = first_occurrences (map cr_id cases) /\
    dict_keys (mi_crisis_periods sample_archive) = first_occurrences (map fst crises) /\
    (forall id,
       dict_get pyval_eqb (mi_evolution_cases sample_archive) id
       = option_map cr_entry (find (fun r => pyval_eqb (cr_id r) id) (rev cases))) /\
    (forall id,
       dict_get pyval_eqb (mi_crisis_periods sample_archive) id
       = option_map snd (find (fun r => pyval_eqb (fst r) id) (rev crises))).
Proof.
  exact (@by_id_store_keeps_first_place_and_last_entry latin1_runtime _ _ _ sample_archive_built).
Defined.

Lemma secondary_indexes_list_the_rows_in_order_witness :
  exists cases,
    Forall2 (fun row r => read_case (RT := latin1_runtime) row = Ok r)
            (processed_rows three_cases) cases /\
    (forall key,
       dict_get str_eqb (mi_keywords sample_archive) key
       = listing (appended str_eqb key (keyword_appends cases))) /\
    (forall year,
       dict_get str_eqb (mi_temporal sample_archive) year
       = listing (appended str_eqb year (map (fun r => (cr_year r, cr_id r)) cases))) /\
    (forall area,
       dict_get pyval_eqb (mi_legal_areas sample_archive) area
       = listing (appended pyval_eqb area (map (fun r => (cr_area r, cr_id r)) cases))).
Proof.
  exact (@secondary_indexes_list_the_rows_in_order latin1_runtime _ _ _ sample_archive_built).
Defined.

Lemma cases_only_built :
  _build_memory_index (RT := latin1_runtime) three_cases no_rows = Ok cases_only.
Proof. vm_compute. reflexivity. Qed.

Lemma partitions_are_independent_witness :
  mi_transplant_cases sample_archive = [] /\
  mi_evolution_cases sample_archive = mi_evolution_cases cases_only /\
  mi_keywords sample_archive = mi_keywords cases_only /\
  mi_temporal sample_archive = mi_temporal cases_only /\
  mi_legal_areas sample_archive = mi_legal_areas cases_only.
Proof.
  destruct (@partitions_are_independent latin1_runtime _ _ _ _ _ _
              sample_archive_built cases_only_built) as (Ht & Hev & _).
  split; [exact Ht | exact (Hev eq_refl)].
Defined.




(** The query of the second sample: both cases and the crisis are found. *)
Definition sample_answer : query_result :=
  Eval vm_compute in
    query_legal_evolution (RT := latin1_runtime) default_config sample_archive
      (py "2024-09-01T12:00:00") (py "crisis financiera del fideicomiso") None.

Lemma sample_answer_given :
  query_legal_evolution (RT := latin1_runtime) default_config sample_archive
    (py "2024-09-01T12:00:00") (py "crisis financiera del fideicomiso") None
  = sample_answer.
Proof. vm_compute. reflexivity. Qed.

Lemma query_confidence_is_zero_or_high_witness :
  match sample_answer with
  | QueryResult r =>
      (r_relevant_cases r = [] /\ r_confidence r = 0) \/
      (r_relevant_cases r <> [] /\
       0.75 < r_confidence r /\ r_confidence r <= 1 /\
       ((6 <= length (r_relevant_cases r))%nat -> r_confidence r == 1))
  | QueryError _ _ _ => False
  end.
Proof.
  exact (@query_confidence_is_zero_or_high latin1_runtime default_config sample_archive
           (py "2024-09-01T12:00:00") (py "crisis financiera del fideicomiso") None _
           sample_answer_given).
Defined.

Lemma retrieval_ignores_keyword_order_witness :
  Permutation [py "fideicomiso"; py "crisis"] [py "crisis"; py "fideicomiso"] /\
  _search_memory (RT := latin1_runtime) default_config sample_archive
    [py "fideicomiso"; py "crisis"] None
  = _search_memory (RT := latin1_runtime) default_config sample_archive
      [py "crisis"; py "fideicomiso"] None.
Proof.
  assert (H : Permutation [py "fideicomiso"; py "crisis"] [py "crisis"; py "fideicomiso"])
    by apply perm_swap.
  split; [exact H|].
  exact (@retrieval_ignores_keyword_order latin1_runtime default_config sample_archive _ _ None H).
Defined.

(** * No record is retrieved twice *)

Lemma nodup_keys_filter {V : Type} (f : pyval * V -> bool) (d : list (pyval * V)) :
  NoDup (map fst d) -> NoDup (map fst (filter f d)).
Proof.
  induction d as [|[k v] t IH]; cbn [map filter fst]; intro H; [constructor|].
  inversion H as [|? ? Hfresh Ht]; subst.
  destruct (f (k, v)); cbn [map fst]; [|now apply IH].
  constructor; [|now apply IH].
  intro Hin. apply Hfresh. apply in_map_iff in Hin as [[k' v'] [Hk Hin]].
  apply filter_In in Hin as [Hin _]. apply in_map_iff. now exists (k', v').
Qed.

Lemma nodup_firstn {A : Type} (n : nat) (l : list A) : NoDup l -> NoDup (firstn n l).
Proof.
  intro H. rewrite <- (firstn_skipn n l) in H. exact (NoDup_app_remove_r _ _ H).
Qed.

Section Distinct.
Context {RT : PyRuntime}.

(** The stores of a built index hold each id once. *)
Lemma built_stores_distinct (evolution_cases crisis_periods : dataframe) (idx : memory_index) :
  _build_memory_index evolution_cases crisis_periods = Ok idx ->
  NoDup (dict_keys (mi_evolution_cases idx)) /\ NoDup (dict_keys (mi_crisis_periods idx)).
Proof.
  intro H. apply build_inv in H as [idx1 [H1 H2]].
  set (P := fun i : memory_index =>
              NoDup (dict_keys (mi_evolution_cases i)) /\ NoDup (dict_keys (mi_crisis_periods i))).
  change (P idx).
  eapply (for_each_invariant index_crisis P); [|exact H2|].
  { intros s x s' _ Hb [Hev Hcr].
    apply index_crisis_inv in Hb as (crisis_id & e & _ & Hk & He & _).
    unfold P. rewrite Hk, He. split; [exact Hev|].
    now apply (dict_keys_set_nodup _ pyval_eqb_eq). }
  eapply (for_each_invariant index_case P); [|exact H1|].
  { intros s x s' _ Hb [Hev Hcr].
    apply index_case_inv in Hb
      as (case_id & fecha & area & e & kws & _ & _ & _ & He & _ & _ & _ & Hk).
    unfold P. rewrite Hk, He. split; [|exact Hcr].
    now apply (dict_keys_set_nodup _ pyval_eqb_eq). }
  split; constructor.
Qed.

Lemma scan_partition_distinct (type : string) (keywords : list str)
    (partition : dict pyval entry) :
  NoDup (dict_keys partition) ->
  NoDup (map sc_id (scan_partition type keywords partition)).
Proof.
  intro H. rewrite scan_partition_ids. unfold ids_above_zero.
  now apply nodup_keys_filter.
Qed.

Lemma scan_partition_type (type : string) (keywords : list str)
    (partition : dict pyval entry) (c : scored_case) :
  In c (scan_partition type keywords partition) -> sc_type c = type.
Proof.
  intro Hc. pose proof (scan_partition_from type keywords partition) as Hf.
  rewrite Forall_forall in Hf. now destruct (Hf c Hc).
Qed.

Lemma distinct_ids_distinct_records (l : list scored_case) :
  NoDup (map sc_id l) -> NoDup (map (fun c => (sc_type c, sc_id c)) l).
Proof.
  intro H. apply (NoDup_map_inv snd). now rewrite map_map.
Qed.

(** Sorting and cutting keep a list free of repetitions. *)
Lemma ranked_distinct {B : Type} (f : scored_case -> B) (k : Z) (l : list scored_case) :
  NoDup (map f l) -> NoDup (map f (slice_to k (sort_desc l))).
Proof.
  intro H. destruct (slice_to_firstn k (sort_desc l)) as [n [-> _]].
  rewrite <- firstn_map. apply nodup_firstn.
  eapply Permutation_NoDup; [apply Permutation_map, sort_desc_perm | exact H].
Qed.

(** X21. On a built index no record is retrieved twice: the matches of a
    search are distinct as pairs of type and id, however often an id recurs
    in the frames; under a type filter the ids alone are distinct. Ids are
    told apart as a dictionary tells its keys apart: the missing-value markers
    of two rows are two ids, and give two matches, unless they are the same
    object. *)
Theorem no_record_is_retrieved_twice :
  forall (evolution_cases crisis_periods : dataframe) (idx : memory_index)
         (cfg : config) (keywords : list str) (context_type : option str),
    _build_memory_index evolution_cases crisis_periods = Ok idx ->
    NoDup (map (fun c => (sc_type c, sc_id c))
               (_search_memory cfg idx keywords context_type)) /\
    (forall t, context_type = Some t -> t <> [] ->
               NoDup (map sc_id (_search_memory cfg idx keywords context_type))).
Proof.
  intros ev cr idx cfg keywords context_type Hb.
  destruct (built_stores_distinct _ _ Hb) as [Hev Hcr].
  pose proof (@scan_partition_distinct "evolution_case" keywords _ Hev) as Dev.
  pose proof (@scan_partition_distinct "crisis_period" keywords _ Hcr) as Dcr.
  split.
  - unfold _search_memory. apply ranked_distinct. unfold scan_memory. rewrite map_app.
    apply NoDup_app.
    + destruct (context_selects context_type "evolution_cases"); [|constructor].
      now apply distinct_ids_distinct_records.
    + destruct (context_selects context_type "crisis_periods"); [|constructor].
      now apply distinct_ids_distinct_records.
    + intros [type id] H1 H2.
      apply in_map_iff in H1 as [c1 [E1 H1]]. apply in_map_iff in H2 as [c2 [E2 H2]].
      destruct (context_selects context_type "evolution_cases"); [|contradiction].
      destruct (context_selects context_type "crisis_periods"); [|contradiction].
      apply scan_partition_type in H1. apply scan_partition_type in H2.
      injection E1 as E1 _. injection E2 as E2 _. rewrite H1 in E1. rewrite H2 in E2.
      rewrite <- E1 in E2. discriminate.
  - intros t -> Ht. unfold _search_memory. apply ranked_distinct. unfold scan_memory.
    destruct t as [|ch t]; [contradiction|]. unfold context_selects.
    destruct (str_eqb (ch :: t) (py "evolution_cases")) eqn:E1.
    + apply str_eqb_eq in E1. rewrite E1.
      replace (str_eqb (py "evolution_cases") (py "crisis_periods")) with false
        by (vm_compute; reflexivity).
      now rewrite app_nil_r.
    + destruct (str_eqb (ch :: t) (py "crisis_periods")); [exact Dcr | constructor].
Qed.

End Distinct.

(** * The instance: construction and loading *)

Section Loading.
Variable fs : filesystem.

(** The loop goes through exactly when the reader raises on no listed file. *)
Lemma load_each_constructs (paths : list (string * string)) (attrs : attributes) :
  (exists attrs', load_each fs paths attrs = Constructed attrs') <->
  Forall (fun p => ~ unreadable fs (snd p)) paths.
Proof.
  revert attrs. induction paths as [|[name path] rest IH]; intro attrs; simpl.
  - split; [constructor | now exists attrs].
  - destruct (fs path) as [[df|message]|] eqn:E.
    + rewrite IH. split.
      * intro H. constructor; [|exact H]. intros [m Hm]. simpl in Hm. congruence.
      * intro H. now inversion H.
    + split.
      * intros [attrs' H]. discriminate.
      * intro H. inversion H as [|? ? Hp _]. exfalso. apply Hp. now exists message.
    + rewrite IH. split.
      * intro H. constructor; [|exact H]. intros [m Hm]. simpl in Hm. congruence.
      * intro H. now inversion H.
Qed.

(** It stops at the first listed file the reader raises on, with the
    reader's exception. *)
Lemma load_each_fails (paths : list (string * string)) (attrs : attributes) (e : init_exn) :
  load_each fs paths attrs = Fails e <->
  exists before name path message after,
    paths = before ++ (name, path) :: after /\
    Forall (fun p => ~ unreadable fs (snd p)) before /\
    fs path = Some (CsvRaises message) /\
    e = CsvError path message.
Proof.
  revert attrs. induction paths as [|[name path] rest IH]; intro attrs; simpl.
  - split; [discriminate|].
    intros (before & n & p & m & after & H & _). now destruct before.
  - assert (Hstep : forall attrs0,
              ~ unreadable fs path ->
              (load_each fs rest attrs0 = Fails e <->
               exists before name0 path0 message after,
                 (name, path) :: rest = before ++ (name0, path0) :: after /\
                 Forall (fun p => ~ unreadable fs (snd p)) before /\
                 fs path0 = Some (CsvRaises message) /\
                 e = CsvError path0 message)).
    { intros attrs0 Hr. rewrite IH. split.
      - intros (before & n & p & m & after & -> & Hb & Hf & He).
        exists ((name, path) :: before), n, p, m, after.
        repeat split; [constructor; assumption | exact Hf | exact He].
      - intros (before & n & p & m & after & Hl & Hb & Hf & He).
        destruct before as [|b before]; simpl in Hl.
        + injection Hl as <- <- <-. exfalso. apply Hr. now exists m.
        + injection Hl as <- ->. inversion Hb.
          exists before, n, p, m, after. repeat split; assumption. }
    destruct (fs path) as [[df|message]|] eqn:E.
    + apply Hstep. intros [m Hm]. congruence.
    + split.
      * intro H. injection H as <-.
        exists [], name, path, message, rest. repeat split; [constructor | exact E].
      * intros (before & n & p & m & after & Hl & Hb & Hf & ->).
        destruct before as [|b before]; simpl in Hl.
        -- injection Hl as <- <- <-. rewrite E in Hf. now injection Hf as <-.
        -- injection Hl as <- ->. inversion Hb as [|? ? Hp _]. exfalso. apply Hp.
           now exists message.
    + apply Hstep. intros [m Hm]. congruence.
Qed.

(** An attribute that is no name of the list keeps what it held. *)
Lemma load_each_other (paths : list (string * string)) (attrs attrs' : attributes)
    (name : string) :
  load_each fs paths attrs = Constructed attrs' ->
  ~ In name (map fst paths) ->
  dict_get String.eqb attrs' name = dict_get String.eqb attrs name.
Proof.
  revert attrs. induction paths as [|[n p] rest IH]; intros attrs H Hn; simpl in H.
  - now injection H as <-.
  - simpl in Hn.
    assert (Hne : String.eqb n name = false).
    { apply String.eqb_neq. intro Heq. apply Hn. now left. }
    assert (Hrest : ~ In name (map fst rest)) by tauto.
    destruct (fs p) as [[df|message]|]; [|discriminate|].
    + rewrite (IH _ H Hrest), (@dict_get_set _ _ String.eqb String.eqb_eq). now rewrite Hne.
    + rewrite (IH _ H Hrest), (@dict_get_set _ _ String.eqb String.eqb_eq). now rewrite Hne.
Qed.

(** An attribute named once in the list holds the frame of its path. *)
Lemma load_each_listed (paths : list (string * string)) (attrs attrs' : attributes)
    (name path : string) :
  load_each fs paths attrs = Constructed attrs' ->
  NoDup (map fst paths) ->
  In (name, path) paths ->
  dict_get String.eqb attrs' name = Some (loaded_frame fs path).
Proof.
  revert attrs. induction paths as [|[n p] rest IH]; intros attrs H Hnd Hin; simpl in H.
  - contradiction.
  - simpl in Hnd. inversion Hnd as [|? ? Hfresh Hnd']. subst.
    destruct Hin as [Heq|Hin].
    + injection Heq as -> ->.
      unfold loaded_frame.
      destruct (fs path) as [[df|message]|]; [|discriminate|];
        rewrite (@load_each_other rest _ attrs' name H Hfresh),
          (@dict_get_set _ _ String.eqb String.eqb_eq);
        now rewrite String.eqb_refl.
    + destruct (fs p) as [[df|message]|]; [|discriminate|]; exact (IH _ H Hnd' Hin).
Qed.

End Loading.

Section Construction.
Context {RT : PyRuntime}.

(** What the constructor returns, by the outcome of the loading. *)
Lemma init_constructed (cfg : config) (fs : filesystem) (inst : instance) :
  __init__ cfg fs = Constructed inst ->
  _load_legal_datasets fs initial_attributes = Constructed (self_attributes inst) /\
  _build_memory_index (attribute (self_attributes inst) "evolution_cases")
                      (attribute (self_attributes inst) "crisis_periods")
    = Ok (self_memory_index inst) /\
  self_config inst = cfg.
Proof.
  unfold __init__. intro H.
  destruct (_load_legal_datasets fs initial_attributes) as [attrs|e]; [|discriminate].
  destruct (_build_memory_index _ _) as [idx|e] eqn:Eb; [|discriminate].
  injection H as <-. simpl. now repeat split.
Qed.

Lemma dataset_names_distinct : NoDup (map fst dataset_paths).
Proof.
  simpl. repeat constructor; simpl; intro H;
    repeat (destruct H as [H|H]; [discriminate|]); exact H.
Qed.

(** After loading, each listed attribute holds the frame of its file. *)
Lemma loaded_attribute (fs : filesystem) (attrs : attributes) (name path : string) :
  _load_legal_datasets fs initial_attributes = Constructed attrs ->
  In (name, path) dataset_paths ->
  dict_get String.eqb attrs name = Some (loaded_frame fs path).
Proof.
  intros H Hin. exact (@load_each_listed fs dataset_paths initial_attributes attrs name path H
           dataset_names_distinct Hin).
Qed.

Lemma loaded_main_frames (fs : filesystem) (attrs : attributes) :
  _load_legal_datasets fs initial_attributes = Constructed attrs ->
  attribute attrs "evolution_cases" = loaded_frame fs "./evolution_cases.csv" /\
  attribute attrs "crisis_periods" = loaded_frame fs "./crisis_periods.csv".
Proof.
  intro H. unfold attribute.
  rewrite (@loaded_attribute fs attrs "evolution_cases" "./evolution_cases.csv" H)
    by (simpl; tauto).
  rewrite (@loaded_attribute fs attrs "crisis_periods" "./crisis_periods.csv" H)
    by (simpl; tauto).
  now split.
Qed.

(** X16. On every constructed instance each of the five names of
    [dataset_paths] is an attribute holding the frame read from its file (the
    empty frame when the file is missing), while the attribute
    [transplant_cases], which the start-up message and the report summary
    count, is still the empty frame of [__init__]: the transplants file is
    loaded under the name [transplants_tracking] only. *)
Theorem transplants_are_loaded_under_another_name :
  forall (cfg : config) (fs : filesystem) (inst : instance),
    __init__ cfg fs = Constructed inst ->
    (forall name path,
       In (name, path) dataset_paths ->
       dict_get String.eqb (self_attributes inst) name = Some (loaded_frame fs path)) /\
    dict_get String.eqb (self_attributes inst) "transplant_cases"%string = Some empty_frame /\
    dict_get String.eqb (self_attributes inst) "transplants_tracking"%string
      = Some (loaded_frame fs "./transplants_tracking.csv").
Proof.
  intros cfg fs inst H. apply init_constructed in H as (Hload & _ & _).
  split; [|split].
  - intros name path Hin. exact (@loaded_attribute fs _ name path Hload Hin).
  - unfold _load_legal_datasets in Hload.
    rewrite (@load_each_other fs dataset_paths initial_attributes _ "transplant_cases"%string Hload);
      [reflexivity|].
    simpl. intro Hin. repeat (destruct Hin as [Hin|Hin]; [discriminate|]). exact Hin.
  - apply (@loaded_attribute fs _ "transplants_tracking" "./transplants_tracking.csv" Hload).
    simpl. tauto.
Qed.

(** X17. The constructor returns an instance exactly when the reader raises
    on none of the five files and every row of the evolution and crisis
    frames can be read; a missing file is never a reason to fail. When it
    fails on a file, that is the first file of [dataset_paths] the reader
    raises on, with the reader's exception; an exception of the index build
    comes out only when all five files have been read. *)
Theorem construction_outcomes :
  forall (cfg : config) (fs : filesystem),
    ((exists inst, __init__ cfg fs = Constructed inst) <->
     Forall (fun p => ~ unreadable fs (snd p)) dataset_paths /\
     (forall row, In row (processed_rows (loaded_frame fs "./evolution_cases.csv")) ->
                  case_readable row) /\
     (forall row, In row (processed_rows (loaded_frame fs "./crisis_periods.csv")) ->
                  crisis_readable row)) /\
    (forall path message,
       __init__ cfg fs = Fails (CsvError path message) <->
       exists before name after,
         dataset_paths = before ++ (name, path) :: after /\
         Forall (fun p => ~ unreadable fs (snd p)) before /\
         fs path = Some (CsvRaises message)) /\
    (forall e,
       __init__ cfg fs = Fails (BuildError e) <->
       Forall (fun p => ~ unreadable fs (snd p)) dataset_paths /\
       _build_memory_index (loaded_frame fs "./evolution_cases.csv")
                           (loaded_frame fs "./crisis_periods.csv") = Raise e).
Proof.
  intros cfg fs.
  pose proof (load_each_constructs fs dataset_paths initial_attributes) as Hc.
  pose proof (fun e => load_each_fails fs dataset_paths initial_attributes e) as Hf.
  pose proof (@loaded_main_frames fs) as Hm.
  unfold __init__. fold (_load_legal_datasets fs initial_attributes) in Hc, Hf.
  destruct (_load_legal_datasets fs initial_attributes) as [attrs|e0] eqn:El.
  - destruct (Hm attrs eq_refl) as [-> ->].
    assert (Hall : Forall (fun p => ~ unreadable fs (snd p)) dataset_paths).
    { apply Hc. now exists attrs. }
    split; [|split].
    + rewrite <- build_returns_iff_readable.
      destruct (_build_memory_index _ _) as [idx|e]; split.
      * intros _. split; [exact Hall | now exists idx].
      * intros _. eexists. reflexivity.
      * intros [inst H]. discriminate.
      * intros [_ [idx H]]. discriminate.
    + intros path message. split.
      * intro H. destruct (_build_memory_index _ _); discriminate.
      * intros (before & name & after & Hl & Hb & Hp). exfalso.
        assert (Hfail : @Constructed attributes attrs = Fails (CsvError path message)).
        { apply Hf. exists before, name, path, message, after. now repeat split. }
        discriminate.
    + intro e. destruct (_build_memory_index _ _) as [idx|e1]; split.
      * discriminate.
      * intros [_ H]. discriminate.
      * intro H. injection H as <-. now split.
      * intros [_ H]. now injection H as <-.
  - assert (Hnot : ~ Forall (fun p => ~ unreadable fs (snd p)) dataset_paths).
    { intro H. apply Hc in H as [attrs H]. discriminate. }
    split; [|split].
    + split; [intros [inst H]; discriminate | intros [H _]; contradiction].
    + intros path message. split.
      * intro H. injection H as ->.
        destruct (proj1 (Hf _) eq_refl) as (before & name & p & m & after & Hl & Hb & Hp & He).
        injection He as <- <-. now exists before, name, after.
      * intros (before & name & after & Hl & Hb & Hp).
        assert (He : @Fails attributes e0 = Fails (CsvError path message)).
        { apply Hf. exists before, name, path, message, after. now repeat split. }
        now injection He as ->.
    + intro e. split; [|intros [H _]; contradiction].
      destruct (proj1 (Hf _) eq_refl) as (before & name & p & m & after & _ & _ & _ & ->).
      intro H. discriminate.
Qed.

(** X18. The answers of an instance depend on the evolution and crisis files
    only: two instances constructed with the same configuration over files
    that give the same two frames have the same memory index and answer every
    query alike, whatever the velocity, transplants and innovations files
    hold. *)
Theorem answers_depend_on_two_files_only :
  forall (cfg : config) (fs fs' : filesystem) (inst inst' : instance),
    __init__ cfg fs = Constructed inst ->
    __init__ cfg fs' = Constructed inst' ->
    loaded_frame fs "./evolution_cases.csv" = loaded_frame fs' "./evolution_cases.csv" ->
    loaded_frame fs "./crisis_periods.csv" = loaded_frame fs' "./crisis_periods.csv" ->
    self_memory_index inst = self_memory_index inst' /\
    forall now query context_type,
      instance_query inst now query context_type
      = instance_query inst' now query context_type.
Proof.
  intros cfg fs fs' inst inst' H H' Hev Hcr.
  apply init_constructed in H as (Hload & Hbuild & Hcfg).
  apply init_constructed in H' as (Hload' & Hbuild' & Hcfg').
  destruct (@loaded_main_frames fs _ Hload) as [E1 E2].
  destruct (@loaded_main_frames fs' _ Hload') as [E1' E2'].
  rewrite E1, E2, Hev, Hcr in Hbuild. rewrite E1', E2' in Hbuild'.
  assert (Hidx : self_memory_index inst = self_memory_index inst') by congruence.
  split; [exact Hidx|].
  intros now query context_type. unfold instance_query. now rewrite Hidx, Hcfg, Hcfg'.
Qed.



End Construction.

(** * Sources named in the query *)

Section Literals.
Context {RT : PyRuntime}.
Variable ic : bool.

Lemma has_group_rlit (name : str) : has_group (rlit name) = false.
Proof.
  induction name as [|c t IH]; [reflexivity|].
  destruct t as [|c' t']; [reflexivity|].
  change (rlit (c :: c' :: t')) with (RSeq (RLit c) (rlit (c' :: t'))).
  cbn [has_group]. exact IH.
Qed.

(** A literal matches where the text spells it, and goes on after it. *)
Lemma rmatch_rlit_complete (name : str) :
  name <> [] ->
  forall (w rest : str) (prev : option char) (pos : nat) (g : option (nat * nat)) (cont : mcont),
    Forall2 (fun c x => lit_eq ic c x = true) name w ->
    exists last,
      rmatch ic (rlit name) prev (w ++ rest) pos g cont
      = cont (Some last) rest (pos + length name)%nat g.
Proof.
  induction name as [|c t IH]; intro Hne; [contradiction|].
  intros w rest prev pos g cont Hw.
  inversion Hw as [|? x ? w' Hc Ht]; subst.
  destruct t as [|c' t'].
  - inversion Ht; subst. cbn [rlit rmatch app length]. rewrite Hc.
    exists x. now rewrite Nat.add_1_r.
  - change (rlit (c :: c' :: t')) with (RSeq (RLit c) (rlit (c' :: t'))).
    cbn [rmatch app]. rewrite Hc.
    destruct (IH ltac:(discriminate) w' rest (Some x) (S pos) g cont Ht) as [last Hl].
    exists last. rewrite Hl.
    now replace (pos + length (c :: c' :: t'))%nat with (S pos + length (c' :: t'))%nat
      by (simpl; lia).
Qed.

(** Where a literal matches, the text spells it. *)
Lemma rmatch_rlit_sound (name : str) :
  name <> [] ->
  forall (s : str) (prev : option char) (pos : nat) (g : option (nat * nat)) (cont : mcont)
         (r : nat * option (nat * nat)),
    rmatch ic (rlit name) prev s pos g cont = Some r ->
    exists w rest last,
      s = w ++ rest /\
      Forall2 (fun c x => lit_eq ic c x = true) name w /\
      cont (Some last) rest (pos + length name)%nat g = Some r.
Proof.
  induction name as [|c t IH]; intro Hne; [contradiction|].
  intros s prev pos g cont r H.
  destruct t as [|c' t'].
  - cbn [rlit rmatch] in H. destruct s as [|x s']; [discriminate|].
    destruct (lit_eq ic c x) eqn:Hc; [|discriminate].
    exists [x], s', x. cbn [length]. rewrite Nat.add_1_r.
    repeat split; [|exact H]. now repeat constructor.
  - change (rlit (c :: c' :: t')) with (RSeq (RLit c) (rlit (c' :: t'))) in H.
    cbn [rmatch] in H. destruct s as [|x s']; [discriminate|].
    destruct (lit_eq ic c x) eqn:Hc; [|discriminate].
    destruct (IH ltac:(discriminate) s' (Some x) (S pos) g cont r H)
      as (w & rest & last & -> & Hw & Hk).
    exists (x :: w), rest, last.
    replace (pos + length (c :: c' :: t'))%nat with (S pos + length (c' :: t'))%nat
      by (simpl; lia).
    repeat split; [|exact Hk]. now constructor.
Qed.

Lemma spelled_length (name w : str) :
  Forall2 (fun c x => lit_eq ic c x = true) name w -> length w = length name.
Proof. intro H. symmetry. exact (Forall2_length H). Qed.

(** What the scan reports for a match of a literal. *)
Lemma literal_match_text (name : str) (full consumed w rest : str) (pos : nat) :
  full = consumed ++ w ++ rest ->
  length consumed = pos ->
  length w = length name ->
  match_text (rlit name) full pos (pos + length name) None = w.
Proof.
  intros -> Hpos Hlen. unfold match_text. rewrite has_group_rlit. unfold str_slice.
  rewrite skipn_app, <- Hpos, skipn_all, Nat.sub_diag. cbn [skipn app].
  replace (length consumed + length name - length consumed)%nat with (length w) by lia.
  now rewrite firstn_app, Nat.sub_diag, firstn_all, firstn_O, app_nil_r.
Qed.

(** The scan for a literal finds a spelling of it wherever the text holds one. *)
Lemma findall_literal (name : str) (full : str) :
  name <> [] ->
  forall (a consumed w rest : str) (prev : option char) (pos : nat),
    full = consumed ++ a ++ w ++ rest ->
    length consumed = pos ->
    Forall2 (fun c x => lit_eq ic c x = true) name w ->
    exists m,
      In m (findall_from ic (rlit name) full prev (a ++ w ++ rest) pos 0) /\
      Forall2 (fun c x => lit_eq ic c x = true) name m.
Proof.
  intro Hne.
  assert (Hfound : forall (s consumed : str) (prev : option char) (pos e : nat) g,
             full = consumed ++ s -> length consumed = pos ->
             rmatch ic (rlit name) prev s pos None (fun _ _ e g => Some (e, g)) = Some (e, g) ->
             Forall2 (fun c x => lit_eq ic c x = true) name (match_text (rlit name) full pos e g)).
  { intros s consumed prev pos e g Hfull Hpos Hm.
    destruct (rmatch_rlit_sound Hne _ _ _ _ _ Hm) as (w & rest & last & -> & Hw & Hk).
    injection Hk as <- <-.
    now rewrite (@literal_match_text name full consumed w rest pos Hfull Hpos (spelled_length Hw)). }
  induction a as [|x a IH]; intros consumed w rest prev pos Hfull Hpos Hw.
  - cbn [app] in *.
    destruct w as [|x w']; [inversion Hw; subst; contradiction|].
    cbn [app findall_from].
    destruct (rmatch ic (rlit name) prev (x :: w' ++ rest) pos None _) as [[e g]|] eqn:Hm.
    + eexists. split; [left; reflexivity|].
      exact (Hfound _ consumed _ _ _ _ Hfull Hpos Hm).
    + exfalso.
      destruct (@rmatch_rlit_complete name Hne (x :: w') rest prev pos None
                  (fun _ _ e g => Some (e, g)) Hw) as [last Hl].
      cbn [app] in Hl. rewrite Hl in Hm. discriminate.
  - cbn [app findall_from].
    assert (Hnext : exists m,
               In m (findall_from ic (rlit name) full (Some x) (a ++ w ++ rest) (S pos) 0) /\
               Forall2 (fun c x => lit_eq ic c x = true) name m).
    { apply (IH (consumed ++ [x])); [|rewrite length_app; simpl; lia | exact Hw].
      rewrite Hfull, <- app_assoc. reflexivity. }
    destruct (rmatch ic (rlit name) prev (x :: a ++ w ++ rest) pos None _) as [[e g]|] eqn:Hm.
    + eexists. split; [left; reflexivity|].
      exact (Hfound _ consumed _ _ _ _ Hfull Hpos Hm).
    + exact Hnext.
Qed.

End Literals.

Section SourcesFromQuery.
Context {RT : PyRuntime}.

(** A response that lists cases opens with the query between quotes. *)
Lemma response_quotes_query (query : str) (c : scored_case) (cs : list scored_case)
    (text : str) :
  _generate_response query (c :: cs) = Ok text ->
  exists tail, text = py "Análisis de evolución legal para: '" ++ query ++ tail.
Proof.
  unfold _generate_response. intro H.
  apply bind_ok in H as [r1 [H1 H]]. apply bind_ok in H as [r2 [H2 H]].
  apply bind_ok in H as [insights [_ H]]. injection H as <-.
  assert (Q1 : exists tail, r1 = py "Análisis de evolución legal para: '" ++ query ++ tail).
  { destruct (filter _ (c :: cs)) in H1.
    - injection H1 as <-. eexists. reflexivity.
    - apply bind_ok in H1 as [ls [_ H1]]. injection H1 as <-.
      eexists. rewrite <- !app_assoc. reflexivity. }
  destruct Q1 as [t1 ->].
  assert (Q2 : exists tail, r2 = py "Análisis de evolución legal para: '" ++ query ++ tail).
  { destruct (filter _ (c :: cs)) in H2.
    - injection H2 as <-. eexists. reflexivity.
    - apply bind_ok in H2 as [ls [_ H2]]. injection H2 as <-.
      eexists. rewrite <- !app_assoc. reflexivity. }
  destruct Q2 as [t2 ->].
  eexists. rewrite <- !app_assoc. reflexivity.
Qed.

(** A name of the list spelled in the response is among its sources. *)
Lemma spelled_source_extracted (response name w before after : str) :
  In name source_names ->
  spells name w ->
  response = before ++ w ++ after ->
  exists s, In s (_extract_sources response) /\ spells name s.
Proof.
  intros Hname Hw ->.
  assert (Hne : name <> []).
  { unfold source_names in Hname. simpl in Hname.
    repeat (destruct Hname as [<-|Hname]; [discriminate|]). contradiction. }
  destruct (@findall_literal RT true name (before ++ w ++ after) Hne before [] w after None 0
              eq_refl eq_refl Hw) as [m [Hin Hm]].
  exists m. split; [|exact Hm].
  unfold _extract_sources. apply set_iter_str_in. apply in_flat_map.
  exists (rlit name). split; [|exact Hin].
  unfold source_names in Hname. simpl in Hname. unfold source_patterns.
  repeat (destruct Hname as [<-|Hname]; [simpl; tauto|]). contradiction.
Qed.

(** X20. The sources of an answer are taken from the response, and the
    response of a query that found something opens with the query itself: so
    whenever such a query spells, in any case, one of the names InfoLeg, SAIJ,
    CSJN, BCRA and CNV, a spelling of that name is among the sources of the
    answer, whatever the cases found hold. *)
Theorem source_named_in_query_is_credited :
  forall (cfg : config) (idx : memory_index) (now query : str) (context_type : option str)
         (r : query_success) (name w before after : str),
    In name source_names ->
    spells name w ->
    query = before ++ w ++ after ->
    query_legal_evolution cfg idx now query context_type = QueryResult r ->
    r_relevant_cases r <> [] ->
    exists s, In s (r_sources r) /\ spells name s.
Proof.
  intros cfg idx now query context_type r name w before after Hname Hw Hq Hres Hfound.
  unfold query_legal_evolution in Hres.
  destruct (query_pipeline cfg idx now query context_type) as [r0|e] eqn:Hp; [|discriminate].
  injection Hres as ->. unfold query_pipeline in Hp.
  apply bind_ok in Hp as [response [Hresp Hp]]. injection Hp as <-.
  cbn [r_relevant_cases r_sources] in *.
  destruct (_search_memory cfg idx (_extract_keywords query) context_type) as [|c cs];
    [now contradiction Hfound|].
  destruct (response_quotes_query _ _ _ Hresp) as [tail ->].
  apply (@spelled_source_extracted _ name w
           (py "Análisis de evolución legal para: '" ++ before) (after ++ tail) Hname Hw).
  rewrite Hq, <- !app_assoc. reflexivity.
Qed.

End SourcesFromQuery.

(** ** A query that names the court *)

Definition court_answer : query_result :=
  Eval vm_compute in
    query_legal_evolution (RT := latin1_runtime) default_config sample_archive
      (py "2024-09-01T12:00:00") (py "crisis financiera segun la csjn") None.

Lemma court_answer_given :
  query_legal_evolution (RT := latin1_runtime) default_config sample_archive
    (py "2024-09-01T12:00:00") (py "crisis financiera segun la csjn") None
  = court_answer.
Proof. vm_compute. reflexivity. Qed.

Lemma source_named_in_query_is_credited_witness :
  match court_answer with
  | QueryResult r =>
      r_relevant_cases r <> [] /\
      exists s, In s (r_sources r) /\ spells (RT := latin1_runtime) (py "CSJN") s
  | QueryError _ _ _ => False
  end.
Proof.
  assert (Hname : In (py "CSJN") source_names) by (vm_compute; tauto).
  assert (Hw : spells (RT := latin1_runtime) (py "CSJN") (py "csjn"))
    by (repeat constructor).
  pose proof court_answer_given as Hg. unfold court_answer in Hg |- *. cbv iota.
  split; [discriminate|].
  eapply (@source_named_in_query_is_credited latin1_runtime default_config sample_archive
            (py "2024-09-01T12:00:00") (py "crisis financiera segun la csjn") None _
            (py "CSJN") (py "csjn") (py "crisis financiera segun la ") []
            Hname Hw eq_refl Hg).
  discriminate.
Defined.

(** ** The constructor over no file and over a transplants file *)

Lemma no_files_constructed :
  __init__ (RT := latin1_runtime) default_config no_files = Constructed no_files_instance.
Proof. vm_compute. reflexivity. Qed.

Lemma transplants_only_constructed :
  __init__ (RT := latin1_runtime) default_config transplants_only
  = Constructed transplants_instance.
Proof. vm_compute. reflexivity. Qed.

Lemma transplants_are_loaded_under_another_name_witness :
  dict_get String.eqb (self_attributes transplants_instance) "transplant_cases"%string
    = Some empty_frame /\
  dict_get String.eqb (self_attributes transplants_instance) "transplants_tracking"%string
    = Some (loaded_frame transplants_only "./transplants_tracking.csv") /\
  loaded_frame transplants_only "./transplants_tracking.csv" = transplants_frame.
Proof.
  destruct (@transplants_are_loaded_under_another_name latin1_runtime default_config
              transplants_only transplants_instance transplants_only_constructed)
    as (_ & Hcases & Htracking).
  split; [exact Hcases|]. split; [exact Htracking|]. reflexivity.
Defined.

Lemma answers_depend_on_two_files_only_witness :
  self_memory_index transplants_instance = self_memory_index no_files_instance /\
  instance_query (RT := latin1_runtime) transplants_instance
    (py "2024-09-01T12:00:00") (py "transplantes legales") None
  = instance_query (RT := latin1_runtime) no_files_instance
      (py "2024-09-01T12:00:00") (py "transplantes legales") None.
Proof.
  destruct (@answers_depend_on_two_files_only latin1_runtime default_config
              transplants_only no_files transplants_instance no_files_instance
              transplants_only_constructed no_files_constructed eq_refl eq_refl)
    as [Hidx Hq].
  split; [exact Hidx | exact (Hq _ _ _)].
Defined.


(** ** The search over the second sample, whose frame holds one id twice *)

Lemma no_record_is_retrieved_twice_witness :
  NoDup (map (fun c => (sc_type c, sc_id c))
             (_search_memory (RT := latin1_runtime) default_config sample_archive
                [py "fideicomiso"; py "crisis"] None)).
Proof.
  exact (proj1 (@no_record_is_retrieved_twice latin1_runtime three_cases one_crisis
                  sample_archive default_config [py "fideicomiso"; py "crisis"] None
                  sample_archive_built)).
Defined.

(** ** Records whose id is missing *)

Lemma build_indexes_every_record_witness :
  NoDup (column "case_id" (processed_rows two_without_id)) /\
  length (mi_evolution_cases
            (match _build_memory_index (RT := latin1_runtime) two_without_id no_rows with
             | Ok idx => idx
             | Raise _ => empty_index
             end))
  = length (processed_rows two_without_id).
Proof.
  assert (Hd : NoDup (column "case_id" (processed_rows two_without_id))).
  { vm_compute. repeat constructor; simpl; intuition discriminate. }
  split; [exact Hd|].
  destruct (build_indexes_every_record (RT := latin1_runtime) two_without_id no_rows) as [H _].
  pose proof (H _ eq_refl) as H'. cbv zeta in H'.
  destruct H' as (_ & _ & _ & _ & _ & Hn & _).
  exact (Hn Hd).
Defined.

(** Both records are found by a query, each under its own marker. *)
Example missing_ids_are_retrieved_apart :
  forall idx,
    _build_memory_index (RT := latin1_runtime) two_without_id no_rows = Ok idx ->
    map (fun c => (sc_type c, sc_id c))
        (_search_memory (RT := latin1_runtime) default_config idx [py "fideicomiso"] None)
    = [("evolution_case"%string, PyNaN 1); ("evolution_case"%string, PyNaN 2)].
Proof. intros idx H. vm_compute in H. injection H as <-. vm_compute. reflexivity. Qed.

(** ** The year index of short start dates and of crisis periods *)

Lemma temporal_index_takes_every_start_date_witness :
  exists case_id fecha,
    getitem (combine case_columns (case_row (txt "C1") (txt "95"))) "case_id" = Ok case_id /\
    getitem (combine case_columns (case_row (txt "C1") (txt "95"))) "fecha_inicio" = Ok fecha /\
    listed_under str_eqb
      (mi_temporal
         (match _build_memory_index (RT := latin1_runtime) (one_case (txt "C1") (txt "95")) no_rows with
          | Ok idx => idx
          | Raise _ => empty_index
          end))
      (str_take 4 (py_str fecha)) case_id /\
    length (str_take 4 (py_str fecha)) = Nat.min 4 (length (py_str fecha)).
Proof.
  destruct (temporal_index_takes_every_start_date (RT := latin1_runtime)
              (one_case (txt "C1") (txt "95")) no_rows) as [H _].
  destruct (H _ eq_refl) as [Hrows _].
  apply Hrows. now left.
Defined.

(** The crisis period of the second sample is in the crisis store and is
    listed in no secondary index. *)
Example crisis_periods_are_not_in_the_year_index :
  dict_keys (mi_crisis_periods sample_archive) = [txt "K1"] /\
  ~ listed (mi_temporal sample_archive) (txt "K1") /\
  ~ listed (mi_keywords sample_archive) (txt "K1") /\
  ~ listed (mi_legal_areas sample_archive) (txt "K1").
Proof.
  split; [reflexivity|].
  repeat split; intros (k & l & Hin & Hl); vm_compute in Hin;
    repeat (destruct Hin as [Hin|Hin];
            [injection Hin as <- <-; simpl in Hl; intuition discriminate|]);
    exact Hin.
Qed.
